(** * FoxCom: the reputation and quota ledger

    A shallow embedding of the reputation / quota core of the FoxCom bot:

    - [core/utils.py]       : [utc_now_iso], [parse_iso_utc];
    - [core/db.py]          : the SQLite tables [rep_users], [rep_messages],
                              [rep_votes], [broadcast_actions], [maintenance]
                              and the functions that read and write them;
    - [cogs/reputation.py]  : the tier curve ([rep_threshold], [rep_level],
                              [rep_stars], [rep_milestone]) and the two
                              reaction listeners;
    - [cogs/broadcasts.py]  : the rate-limit policy table [_limits_for_rep],
                              [_format_wait] and [_should_prune_rep];
    - [core/db.py], again   : the ban list;
    - [core/utils.py], again: [contains_disallowed_mentions];
    - [cogs/groups.py]      : the cooldown [_cooldown_ok].

    Conventions of the embedding.

    - An aware UTC [datetime] is the integer number of microseconds since
      the epoch (a [Z]); a [timedelta] is a number of microseconds.
      [timedelta.total_seconds()] is a float holding microseconds / 10^6;
      a comparison of it against an integer number of seconds is stated on
      the microseconds, and [int(...)] of it is the quotient truncated
      toward zero ([Z.quot]).
    - A TEXT column that holds a timestamp is a [text]: either [Iso t], the
      string [datetime.isoformat()] renders for the UTC instant [t], or
      [Raw s], a string that [datetime.fromisoformat] rejects.  The
      rendering is fixed-width ("YYYY-MM-DDTHH:MM:SS[.ffffff]+00:00", and
      '+' sorts before '.'), so SQLite's byte-wise comparison of two
      renderings is the chronological one.  A string that parses without
      having been written by the program (a naive datetime, another UTC
      offset) is outside the model.
    - Every function of [db.py] opens its own connection; the model threads
      the committed database ([ledger]) through the calls and represents
      the open connection by the committed state together with the
      working copy of the pending transaction.
    - The process-wide write lock serialises the writers; the model is
      sequential and every function is one atomic step.
    - A function that reads the clock takes the reading as its argument
      [now].  A reaction listener calls several such functions, and each
      call is handed a reading of its own ([Readings.t]).
    - User, message and guild ids are Discord snowflakes, which fit
      SQLite's 64-bit INTEGER.  A score is computed by the program before
      it is bound to a statement: a value outside the 64 bits makes
      [sqlite3] raise [OverflowError] at the bind, and that is modelled. *)

From Stdlib Require Import ZArith QArith Qround Qpower Lqa Lia String Sorted.
From stdpp Require Import base gmap strings list pretty.

Local Open Scope Z_scope.

(** ** Time *)

Definition US_PER_SECOND : Z := 1000000.

(** [timedelta(seconds=n)] and [timedelta(days=n)], in microseconds. *)
Definition timedelta_seconds (n : Z) : Z := n * US_PER_SECOND.
Definition timedelta_days (n : Z) : Z := n * 86400 * US_PER_SECOND.

(** [int(td.total_seconds())]: conversion to [int] truncates toward zero. *)
Definition int_total_seconds (td : Z) : Z := Z.quot td US_PER_SECOND.

(** ** Timestamp text *)

Inductive text : Type :=
| Iso (t : Z)
| Raw (s : string).

#[global] Instance text_eq_dec : EqDecision text.
Proof. solve_decision. Defined.

(** [datetime.isoformat()] of an aware UTC datetime. *)
Definition isoformat (t : Z) : text := Iso t.

(** [core/utils.py]: [utc_now_iso] renders the clock with
    [timespec="seconds"], which drops the microseconds. *)
Definition utc_now_iso (now : Z) : text :=
  isoformat (now - now mod US_PER_SECOND).

(** [core/utils.py]: [parse_iso_utc] returns [None] for an empty string and
    for anything [fromisoformat] raises on. *)
Definition parse_iso_utc (ts : text) : option Z :=
  match ts with
  | Iso t => Some t
  | Raw _ => None
  end.

(** ** Tables *)

Module RepUser.
Record t : Type := mk { rep : Z; user_name : string; last_updated : text }.
End RepUser.

Module RepMessage.
Record t : Type := mk { author_id : Z; author_name : string; created_at : text }.
End RepMessage.

Module BroadcastAction.
Record t : Type := mk { user_id : Z; used_at : text }.
End BroadcastAction.

(** [rep_users] and [rep_messages] have an INTEGER PRIMARY KEY, [rep_votes]
    the composite key (message_id, voter_id); [broadcast_actions] has no key
    and is append-only, so it is a list in insertion order; [maintenance]
    holds at most the row id=1, whose [last_prune_at] may be NULL. *)
Record ledger : Type := mkLedger {
  rep_users : gmap Z RepUser.t;
  rep_messages : gmap Z RepMessage.t;
  rep_votes : gmap (Z * Z) Z;
  broadcast_actions : list BroadcastAction.t;
  maintenance : option (option text)
}.

Definition with_rep_users (f : gmap Z RepUser.t -> gmap Z RepUser.t) (db : ledger) : ledger :=
  mkLedger (f (rep_users db)) (rep_messages db) (rep_votes db)
           (broadcast_actions db) (maintenance db).

Definition with_rep_messages (f : gmap Z RepMessage.t -> gmap Z RepMessage.t) (db : ledger) : ledger :=
  mkLedger (rep_users db) (f (rep_messages db)) (rep_votes db)
           (broadcast_actions db) (maintenance db).

Definition with_rep_votes (f : gmap (Z * Z) Z -> gmap (Z * Z) Z) (db : ledger) : ledger :=
  mkLedger (rep_users db) (rep_messages db) (f (rep_votes db))
           (broadcast_actions db) (maintenance db).

Definition with_broadcast_actions
    (f : list BroadcastAction.t -> list BroadcastAction.t) (db : ledger) : ledger :=
  mkLedger (rep_users db) (rep_messages db) (rep_votes db)
           (f (broadcast_actions db)) (maintenance db).

Definition with_maintenance (f : option (option text) -> option (option text)) (db : ledger) : ledger :=
  mkLedger (rep_users db) (rep_messages db) (rep_votes db)
           (broadcast_actions db) (f (maintenance db)).

(** ** Connections

    [sqlite3] opens a transaction implicitly before the first INSERT, UPDATE
    or DELETE of a connection; [commit] makes the working copy durable and
    [close] without a commit discards it. *)

Record connection : Type := mkConn { committed : ledger; pending : ledger }.

Definition connect (db : ledger) : connection := mkConn db db.

Definition execute (stmt : ledger -> ledger) (conn : connection) : connection :=
  mkConn (committed conn) (stmt (pending conn)).

Definition commit (conn : connection) : connection :=
  mkConn (pending conn) (pending conn).

Definition close (conn : connection) : ledger := committed conn.

(** ** Python results *)

Inductive exn : Type := IndexError | OverflowError.

Inductive result (A : Type) : Type :=
| Return (a : A)
| Raise (e : exn).
Arguments Return {A} a.
Arguments Raise {A} e.

(** ** SQLite integers

    An INTEGER is stored in at most 64 bits; [sqlite3] raises
    [OverflowError] when a Python [int] outside that range is bound to a
    statement. *)

Definition INT64_MIN : Z := - 2 ^ 63.
Definition INT64_MAX : Z := 2 ^ 63 - 1.

Definition fits_int64 (n : Z) : bool := (INT64_MIN <=? n) && (n <=? INT64_MAX).

(** ** [core/db.py] *)

Definition REP_TTL_SECONDS : Z := 4 * 60 * 60.

Definition within_rep_window (created_at_iso : text) (now : Z) : bool :=
  match parse_iso_utc created_at_iso with
  | None => false
  | Some t => (now - t) <=? timedelta_seconds REP_TTL_SECONDS
  end.

(** *** Reads (no lock) *)

Definition get_rep (db : ledger) (user_id : Z) : Z :=
  match rep_users db !! user_id with
  | Some r => RepUser.rep r
  | None => 0
  end.

Definition get_last_prune (db : ledger) : option text :=
  match maintenance db with
  | Some r => r
  | None => None
  end.

Definition get_rep_message (db : ledger) (message_id : Z) : option RepMessage.t :=
  rep_messages db !! message_id.

Definition get_vote (db : ledger) (message_id voter_id : Z) : option Z :=
  rep_votes db !! (message_id, voter_id).

(** *** Writes (locked) *)

Definition ensure_rep_user (user_id : Z) (user_name : string) (now : Z) (db : ledger) : ledger :=
  let conn := connect db in
  let conn :=
    match rep_users (pending conn) !! user_id with
    | None =>
        execute (with_rep_users (insert user_id (RepUser.mk 0 user_name (utc_now_iso now)))) conn
    | Some r =>
        execute (with_rep_users
                   (insert user_id (RepUser.mk (RepUser.rep r) user_name (utc_now_iso now)))) conn
    end in
  close (commit conn).

(** The UPDATE binds [int(r["rep"]) + int(delta)].  When the sum does not
    fit, the bind raises, the statement is not run and the connection is
    dropped without a commit: the call raises and the row is as it was. *)
Definition adjust_rep (user_id delta : Z) (now : Z) (db : ledger) : result unit * ledger :=
  let conn := connect db in
  match rep_users (pending conn) !! user_id with
  | Some r =>
      let rep := RepUser.rep r + delta in
      if fits_int64 rep then
        let conn :=
          execute (with_rep_users
                     (insert user_id (RepUser.mk rep (RepUser.user_name r) (utc_now_iso now))))
                  conn in
        (Return tt, close (commit conn))
      else (Raise OverflowError, close conn)
  | None => (Return tt, close (commit conn))
  end.

Definition track_rep_message (message_id author_id : Z) (author_name : string)
    (now : Z) (db : ledger) : ledger :=
  let conn := connect db in
  let conn :=
    execute (with_rep_messages
               (insert message_id (RepMessage.mk author_id author_name (utc_now_iso now)))) conn in
  close (commit conn).

Definition set_vote (message_id voter_id vote : Z) (db : ledger) : ledger :=
  let conn := connect db in
  let conn := execute (with_rep_votes (insert (message_id, voter_id) vote)) conn in
  close (commit conn).

Definition delete_vote (message_id voter_id : Z) (db : ledger) : ledger :=
  let conn := connect db in
  let conn := execute (with_rep_votes (delete (message_id, voter_id))) conn in
  close (commit conn).

(** [DELETE FROM rep_votes WHERE message_id IN (ids)] and the same for
    [rep_messages]. *)
Definition delete_votes_of (ids : list Z) (votes : gmap (Z * Z) Z) : gmap (Z * Z) Z :=
  filter (fun kv => kv.1.1 ∉ ids) votes.

Definition delete_messages_of (ids : list Z) (msgs : gmap Z RepMessage.t) : gmap Z RepMessage.t :=
  filter (fun kv => kv.1 ∉ ids) msgs.

Definition delete_rep_message (message_id : Z) (db : ledger) : ledger :=
  let conn := connect db in
  let conn := execute (with_rep_votes (delete_votes_of [message_id])) conn in
  let conn := execute (with_rep_messages (delete_messages_of [message_id])) conn in
  close (commit conn).

(** The rows [prune_rep] marks as expired: the timestamp parses and is
    strictly more than the TTL in the past. *)
Definition is_expired (now : Z) (created_at : text) : bool :=
  match parse_iso_utc created_at with
  | Some t => timedelta_seconds REP_TTL_SECONDS <? (now - t)
  | None => false
  end.

Definition expired_ids (now : Z) (rows : list (Z * RepMessage.t)) : list Z :=
  (filter (fun r => is_expired now (RepMessage.created_at r.2) = true) rows).*1.

Definition prune_rep (now : Z) (db : ledger) : ledger :=
  let conn := connect db in
  let rows := map_to_list (rep_messages (pending conn)) in
  let expired := expired_ids now rows in
  let conn :=
    match expired with
    | [] => conn
    | _ :: _ =>
        let conn := execute (with_rep_votes (delete_votes_of expired)) conn in
        execute (with_rep_messages (delete_messages_of expired)) conn
    end in
  let conn :=
    execute (with_maintenance
               (fun m => match m with
                         | Some _ => Some (Some (utc_now_iso now))
                         | None => None
                         end)) conn in
  close (commit conn).

(** *** The broadcast quota *)

Section Quota.

(** The order SQLite's BINARY collation puts between a string that is not
    a timestamp rendering and the rendering of the instant [t]:
    [raw_lt_iso s t] says that [s] sorts before [isoformat t].  Nothing is
    assumed about it. *)
Variable raw_lt_iso : string -> Z -> bool.

(** [a < b] on TEXT values. *)
Definition text_ltb (a b : text) : bool :=
  match a, b with
  | Iso x, Iso y => x <? y
  | Raw s, Iso y => raw_lt_iso s y
  | Iso x, Raw s => negb (raw_lt_iso s x)
  | Raw s, Raw s' => String.ltb s s'
  end.

(** [DELETE FROM broadcast_actions WHERE used_at < ?] *)
Definition delete_used_before (bound : text)
    (rows : list BroadcastAction.t) : list BroadcastAction.t :=
  filter (fun r => text_ltb (BroadcastAction.used_at r) bound = false) rows.

(** [ORDER BY used_at ASC], as a stable insertion sort. *)
Fixpoint insert_used_at (x : text) (l : list text) : list text :=
  match l with
  | [] => [x]
  | y :: l' => if text_ltb y x then y :: insert_used_at x l' else x :: y :: l'
  end.

Definition order_by_used_at (l : list text) : list text :=
  foldr insert_used_at [] l.

(** [WHERE user_id=? AND used_at >= ?] *)
Definition in_window (user_id : Z) (since : text) (r : BroadcastAction.t) : Prop :=
  BroadcastAction.user_id r = user_id ∧ text_ltb (BroadcastAction.used_at r) since = false.

#[global] Instance in_window_dec user_id since r : Decision (in_window user_id since r).
Proof. unfold in_window. apply _. Defined.

(** [SELECT used_at FROM broadcast_actions
     WHERE user_id=? AND used_at >= ? ORDER BY used_at ASC] *)
Definition select_used_at (user_id : Z) (since : text) (db : ledger) : list text :=
  order_by_used_at
    (BroadcastAction.used_at <$> filter (in_window user_id since) (broadcast_actions db)).

(** Returns what the call returns and the database it leaves.  With no row
    in the window and [max_actions <= 0], [rows[0]] raises [IndexError]
    and the connection is dropped with its transaction open, which SQLite
    rolls back like the [close] without [commit] of the two denied
    branches. *)
Definition check_and_consume_broadcast_quota
    (user_id max_actions window_seconds : Z) (now : Z) (db : ledger)
  : result (bool * Z) * ledger :=
  let window_start := now - timedelta_seconds window_seconds in
  let conn := connect db in
  let prune_before := now - timedelta_days 2 in
  let conn :=
    execute (with_broadcast_actions (delete_used_before (isoformat prune_before))) conn in
  let rows := select_used_at user_id (isoformat window_start) (pending conn) in
  if max_actions <=? Z.of_nat (length rows) then
    match rows with
    | [] => (Raise IndexError, close conn)
    | oldest_iso :: _ =>
        match parse_iso_utc oldest_iso with
        | None => (Return (false, 30), close conn)
        | Some oldest_dt =>
            let unblock_at := oldest_dt + timedelta_seconds window_seconds in
            let retry_after := int_total_seconds (unblock_at - now) in
            (Return (false, Z.max 1 retry_after), close conn)
        end
    end
  else
    let conn :=
      execute (with_broadcast_actions
                 (fun rows => rows ++ [BroadcastAction.mk user_id (isoformat now)])) conn in
    (Return (true, 0), close (commit conn)).

End Quota.

(** ** [cogs/broadcasts.py] *)

Definition _limits_for_rep (rep : Z) : Z * Z :=
  if rep <=? -30 then (1, 4 * 60 * 60)
  else if rep <=? -2 then (1, 60 * 60)
  else if rep <=? 9 then (5, 60 * 60)
  else if rep <=? 25 then (15, 60 * 60)
  else (30, 60 * 60).

(** ** [cogs/reputation.py]: the reaction listeners *)

Definition THUMBS_UP : string := "👍".
Definition THUMBS_DOWN : string := "👎".

Module Payload.
(** [discord.RawReactionActionEvent], with [emoji] already rendered by
    [str]. *)
Record t : Type := mk { message_id : Z; user_id : Z; emoji : string }.
End Payload.

(** [1 if emoji == THUMBS_UP else -1] *)
Definition vote_of (emoji : string) : Z :=
  if decide (emoji = THUMBS_UP) then 1 else -1.

(** [old_vote or 0] *)
Definition or_0 (old_vote : option Z) : Z := default 0 old_vote.

Module Readings.
(** The readings of the clock one listener takes, in the order it takes
    them: [window] in [within_rep_window], [adjust] in the [utc_now_iso]
    of [adjust_rep], [prune] in [prune_rep].  A branch that does not reach
    a call does not take its reading. *)
Record t : Type := mk { window : Z; adjust : Z; prune : Z }.
End Readings.

(** [bot_user] is [self.bot.user.id], or [None] while the client has not
    logged in.  A listener returns nothing; the model returns whether it
    returned or raised, and the database it leaves.  An [OverflowError]
    of [adjust_rep] leaves the handler before [prune_rep], after the vote
    row was written and committed. *)
Definition on_raw_reaction_add (bot_user : option Z) (payload : Payload.t)
    (clock : Readings.t) (db : ledger) : result unit * ledger :=
  if decide (bot_user = Some (Payload.user_id payload)) then (Return tt, db)
  else if decide (Payload.emoji payload = THUMBS_UP ∨ Payload.emoji payload = THUMBS_DOWN) then
    match get_rep_message db (Payload.message_id payload) with
    | None => (Return tt, db)
    | Some msg =>
        if negb (within_rep_window (RepMessage.created_at msg) (Readings.window clock)) then
          let db := delete_rep_message (Payload.message_id payload) db in
          (Return tt, prune_rep (Readings.prune clock) db)
        else
          let author_id := RepMessage.author_id msg in
          if decide (Payload.user_id payload = author_id) then (Return tt, db)
          else
            let new_vote := vote_of (Payload.emoji payload) in
            let old_vote := get_vote db (Payload.message_id payload) (Payload.user_id payload) in
            if decide (old_vote = Some new_vote) then (Return tt, db)
            else
              let delta := new_vote - or_0 old_vote in
              let db := set_vote (Payload.message_id payload) (Payload.user_id payload) new_vote db in
              match adjust_rep author_id delta (Readings.adjust clock) db with
              | (Raise e, db) => (Raise e, db)
              | (Return _, db) => (Return tt, prune_rep (Readings.prune clock) db)
              end
    end
  else (Return tt, db).

Definition on_raw_reaction_remove (payload : Payload.t) (clock : Readings.t) (db : ledger)
  : result unit * ledger :=
  if decide (Payload.emoji payload = THUMBS_UP ∨ Payload.emoji payload = THUMBS_DOWN) then
    match get_rep_message db (Payload.message_id payload) with
    | None => (Return tt, db)
    | Some msg =>
        if negb (within_rep_window (RepMessage.created_at msg) (Readings.window clock)) then
          let db := delete_rep_message (Payload.message_id payload) db in
          (Return tt, prune_rep (Readings.prune clock) db)
        else
          let removed_vote := vote_of (Payload.emoji payload) in
          let old_vote := get_vote db (Payload.message_id payload) (Payload.user_id payload) in
          if decide (old_vote = Some removed_vote) then
            let author_id := RepMessage.author_id msg in
            let db := delete_vote (Payload.message_id payload) (Payload.user_id payload) db in
            match adjust_rep author_id (- removed_vote) (Readings.adjust clock) db with
            | (Raise e, db) => (Raise e, db)
            | (Return _, db) => (Return tt, prune_rep (Readings.prune clock) db)
            end
          else (Return tt, db)
    end
  else (Return tt, db).

(** ** [cogs/reputation.py]: the tier curve

    The source evaluates the curve in binary64 floats.  The arithmetic
    ([/], [+], [-], [*], [**]) is embedded as exact rational arithmetic on
    the decimal value of the literal [LOG_BASE]; the one library call whose
    result the platform decides, [math.log], is a parameter of [rep_level],
    and [exact_log_floor] is its exact instance.  Scores are SQLite
    INTEGERs (64 bits), far inside the range of a float. *)

Definition TIER_NAMES : list string :=
  ["Recruit"; "Regular"; "Trusted"; "Veteran"; "Elite"; "Legend"].

Definition LOG_BASE : Q := (18667452839806598 # 10000000000000000)%Q.
Definition LOG_SCALE : Q := (10 / (LOG_BASE - 1))%Q.

(** [round(x)] on a float: to the nearest integer, ties to the even one. *)
Definition py_round (x : Q) : Z :=
  let f := Qfloor x in
  match ((x - inject_Z f) ?= (1 # 2))%Q with
  | Lt => f
  | Gt => f + 1
  | Eq => if Z.even f then f else f + 1
  end.

Definition rep_threshold (level : Z) : Z :=
  let level := Z.max 0 level in
  Z.max 0 (py_round (LOG_SCALE * (LOG_BASE ^ level - 1))%Q).

Section TierCurve.

(** [math_log_floor x base] is [int(math.floor(math.log(x, base)))]. *)
Variable math_log_floor : Q -> Q -> Z.

Definition rep_level (rep : Z) : Z :=
  if rep <=? 0 then 0
  else
    let lvl := math_log_floor (inject_Z rep / LOG_SCALE + 1)%Q LOG_BASE in
    Z.max 0 (Z.min lvl (Z.of_nat (length TIER_NAMES) - 1)).

End TierCurve.

(** The exact floor of the logarithm, for [1 <= x] and a base whose square
    is at least 2: count upward while the next power still fits.  The
    square of the base doubles at each second step, so twice the bit length
    of [x] bounds the number of steps. *)
Fixpoint log_floor_from (fuel : nat) (base x : Q) (l : Z) : Z :=
  match fuel with
  | O => l
  | S fuel' =>
      if Qle_bool (base ^ (l + 1)) x then log_floor_from fuel' base x (l + 1) else l
  end.

Definition exact_log_floor (x base : Q) : Z :=
  log_floor_from (Z.to_nat (2 * Z.log2_up (Qceiling x) + 5)) base x 0.

(** The accuracy asked of [math.log]: at each tier [l] (1 to 5) the floor
    is on the right side of [l] as soon as [x] is at least one part in a
    thousand away from [base ^ l]. *)
Definition LOG_TOLERANCE : Q := (1 # 1000)%Q.

Definition log_floor_accurate (math_log_floor : Q -> Q -> Z) : Prop :=
  forall (x : Q) (l : Z), 1 <= l <= 5 ->
    ((LOG_BASE ^ l * (1 + LOG_TOLERANCE) <= x)%Q -> l <= math_log_floor x LOG_BASE) /\
    ((x * (1 + LOG_TOLERANCE) <= LOG_BASE ^ l)%Q -> math_log_floor x LOG_BASE < l).

(** ** More of [core/db.py] and of its callers *)

(** [set_user_rep]: the administrative override.  [updated_by] is accepted
    and not stored.  Both the INSERT and the UPDATE bind [rep]; when it
    does not fit the bind raises and nothing is written. *)
Definition set_user_rep (user_id : Z) (user_name : string) (rep : Z)
    (updated_by : option string) (now : Z) (db : ledger) : result unit * ledger :=
  let conn := connect db in
  match rep_users (pending conn) !! user_id with
  | None =>
      if fits_int64 rep then
        let conn :=
          execute (with_rep_users (insert user_id (RepUser.mk rep user_name (utc_now_iso now))))
                  conn in
        (Return tt, close (commit conn))
      else (Raise OverflowError, close conn)
  | Some _ =>
      if fits_int64 rep then
        let conn :=
          execute (with_rep_users (insert user_id (RepUser.mk rep user_name (utc_now_iso now))))
                  conn in
        (Return tt, close (commit conn))
      else (Raise OverflowError, close conn)
  end.

(** [cogs/broadcasts.py]: [_should_prune_rep], on the marker
    [get_last_prune] reads.  A NULL or empty marker and a marker that does
    not parse all answer [True]; the [except] branch, which answers [False]
    when the read itself fails, has no counterpart in a model whose reads
    cannot fail. *)
Definition _should_prune_rep (now_utc : Z) (min_interval_seconds : Z) (db : ledger) : bool :=
  match get_last_prune db with
  | None => true
  | Some last =>
      match parse_iso_utc last with
      | None => true
      | Some t => timedelta_seconds min_interval_seconds <=? now_utc - t
      end
  end.

(** [s * n] on a string: [n] copies of [s], none when [n <= 0]. *)
Definition py_repeat (s : string) (n : Z) : string :=
  Z.iter n (fun acc => s +:+ acc) "".

(** [l[i]] on a list: a negative index counts from the end, an index out
    of range raises [IndexError]. *)
Definition py_index {A : Type} (l : list A) (i : Z) : result A :=
  let n := Z.of_nat (length l) in
  let j := if i <? 0 then i + n else i in
  if (0 <=? j) && (j <? n) then
    match l !! Z.to_nat j with
    | Some x => Return x
    | None => Raise IndexError
    end
  else Raise IndexError.

(** [cogs/reputation.py]: [rep_stars] and [rep_milestone], over the same
    evaluation of the logarithm as [rep_level]. *)
Definition rep_stars (math_log_floor : Q -> Q -> Z) (rep : Z) : string :=
  let lvl := rep_level math_log_floor rep in
  py_repeat "★" (Z.min 3 lvl).

Definition rep_milestone (math_log_floor : Q -> Q -> Z) (rep : Z)
  : result (string * option string * option Z) :=
  let lvl := rep_level math_log_floor rep in
  match py_index TIER_NAMES lvl with
  | Raise e => Raise e
  | Return current =>
      if Z.of_nat (length TIER_NAMES) - 1 <=? lvl then Return (current, None, None)
      else
        match py_index TIER_NAMES (lvl + 1) with
        | Raise e => Raise e
        | Return next_name =>
            let next_at := rep_threshold (lvl + 1) in
            Return (current, Some next_name, Some next_at)
        end
  end.

(** [cogs/broadcasts.py]: [_format_wait].  [//] and [%] round toward
    minus infinity, as [Z.div] and [Z.modulo] do for a positive divisor;
    an integer in an f-string is rendered in decimal. *)
Definition _format_wait (retry_after : Z) : string :=
  let mins := retry_after / 60 in
  let secs := retry_after mod 60 in
  if 60 <=? mins then
    let hrs := mins / 60 in
    let mins := mins mod 60 in
    pretty hrs +:+ "h " +:+ pretty mins +:+ "m"
  else if 0 <? mins then
    pretty mins +:+ "m " +:+ pretty secs +:+ "s"
  else
    pretty secs +:+ "s".

(** ** [core/db.py]: the ban list

    [banlist] has the INTEGER PRIMARY KEY [user_id].  [init] creates the
    table with the column [blocked] and [_migrate] adds the column to an
    older table, so the first SELECT of [is_user_blocked] does not raise
    after [init]. *)

Module Ban.
Record t : Type := mk {
  blocked : Z;
  user_name : string;
  blocked_by : string;
  blocked_at : text;
  reason : string
}.
End Ban.

Definition banlist : Type := gmap Z Ban.t.

(** [is_user_blocked]: [bool(r and int(r["blocked"]) == 1)]. *)
Definition is_user_blocked (user_id : Z) (bans : banlist) : bool :=
  match bans !! user_id with
  | Some r => Ban.blocked r =? 1
  | None => false
  end.

Section BanList.

(** [str.strip()]. *)
Variable py_strip : string -> string.

(** [block_user]: INSERT OR REPLACE of the whole row with [blocked = 1]. *)
Definition block_user (now : Z) (user_id : Z) (user_name blocked_by : string)
    (reason : option string) (bans : banlist) : banlist :=
  <[user_id := Ban.mk 1 user_name blocked_by (utc_now_iso now)
                      (py_strip (default "" reason))]> bans.

(** [unblock_user]: DELETE, then [cur.rowcount > 0]. *)
Definition unblock_user (user_id : Z) (bans : banlist) : bool * banlist :=
  (bool_decide (is_Some (bans !! user_id)), delete user_id bans).

End BanList.

(** ** [core/utils.py]: mentions *)

(** [needle in hay] on [str]. *)
Fixpoint py_in (needle hay : string) : bool :=
  String.prefix needle hay ||
  match hay with
  | EmptyString => false
  | String _ rest => py_in needle rest
  end.

Section Mentions.

(** [str.lower()]. *)
Variable py_lower : string -> string.

Definition contains_disallowed_mentions (text : option string) : bool :=
  let t := py_lower (default "" text) in
  if py_in "@everyone" t || py_in "@here" t then true
  else if py_in "<@" t || py_in "<@&" t || py_in "<#" t then true
  else if py_in "@" t then true
  else false.

End Mentions.

(** ** [cogs/groups.py]: the cooldown of group broadcasts *)

Definition GROUP_BROADCAST_COOLDOWN : Z := 60.

(** [Groups._cooldowns]: the dict (group_id, user_id) -> last_ts. *)
Definition cooldowns : Type := gmap (Z * Z) Z.

(** [Groups._cooldown_ok]; [now] is the reading of [_now_ts()], the dict
    of the cog is passed in and returned. *)
Definition _cooldown_ok (now : Z) (group_id user_id : Z) (self : cooldowns)
  : (bool * Z) * cooldowns :=
  let key := (group_id, user_id) in
  let last := default 0 (self !! key) in
  if now - last <? GROUP_BROADCAST_COOLDOWN then
    ((false, GROUP_BROADCAST_COOLDOWN - (now - last)), self)
  else
    ((true, 0), <[key := now]> self).

(** * Vocabulary of the statements

    Names for what the properties talk about, and the sample ledgers and
    runs the examples are evaluated on. *)

(** [init()] on a fresh database file: empty tables and the maintenance
    row with a NULL [last_prune_at]. *)
Definition init : ledger := mkLedger ∅ ∅ ∅ [] (Some None).

(** The argument [rep / LOG_SCALE + 1.0] handed to the logarithm. *)
Definition tier_x (rep : Z) : Q := (inject_Z rep / LOG_SCALE + 1)%Q.

Definition is_vote_emoji (emoji : string) : Prop :=
  emoji = THUMBS_UP \/ emoji = THUMBS_DOWN.

(** What handling a reaction on an expired message leaves behind: the
    scores as they were, and neither the message row nor any vote on it. *)
Definition stale_row_dropped (m : Z) (db db' : ledger) : Prop :=
  rep_users db' = rep_users db /\
  (forall u, get_rep db' u = get_rep db u) /\
  get_rep_message db' m = None /\
  (forall v, get_vote db' m v = None).

(** The retention horizon of the DELETE, in seconds. *)
Definition RETENTION_SECONDS : Z := 2 * 86400.

(** The rows [check_and_consume_broadcast_quota] fetches: the caller's
    rows inside the window, oldest first, read after the retention DELETE
    on the same connection. *)
Definition rows_in_window (raw_lt_iso : string -> Z -> bool)
    (user_id window_seconds now : Z) (db : ledger) : list text :=
  select_used_at raw_lt_iso user_id (isoformat (now - timedelta_seconds window_seconds))
    (with_broadcast_actions
       (delete_used_before raw_lt_iso (isoformat (now - timedelta_days 2))) db).

(** Every [used_at] was written by [isoformat]. *)
Definition well_formed_actions (db : ledger) : Prop :=
  forall r, r ∈ broadcast_actions db -> exists t, BroadcastAction.used_at r = Iso t.

(** [t] is the [used_at] of the oldest row of [user_id] inside the window
    that starts at [since]. *)
Definition oldest_in_window (user_id since t : Z) (db : ledger) : Prop :=
  BroadcastAction.mk user_id (Iso t) ∈ broadcast_actions db /\
  since <= t /\
  forall t', BroadcastAction.mk user_id (Iso t') ∈ broadcast_actions db ->
             since <= t' -> t <= t'.

(** On renderings the head of the sorted list is the earliest instant. *)
Definition head_earliest (l : list text) : Prop :=
  match l with
  | [] => True
  | h :: _ => exists th, h = Iso th /\ forall t, Iso t ∈ l -> th <= t
  end.

Module Call.
(** One call of [check_and_consume_broadcast_quota], with the reading of
    the clock it makes. *)
Record t : Type := mk { user_id : Z; max_actions : Z; window_seconds : Z; now : Z }.
End Call.

Module Step.
(** A call, the ledger it ran on and what it returned. *)
Record t : Type := mk { call : Call.t; before : ledger; outcome : result (bool * Z) }.
End Step.

(** The calls run one after the other, each on the ledger the previous one
    left. *)
Fixpoint run (raw_lt_iso : string -> Z -> bool) (calls : list Call.t) (db : ledger)
  : list Step.t :=
  match calls with
  | [] => []
  | c :: calls' =>
      let r := check_and_consume_broadcast_quota raw_lt_iso
                 (Call.user_id c) (Call.max_actions c) (Call.window_seconds c) (Call.now c) db in
      Step.mk c db r.1 :: run raw_lt_iso calls' r.2
  end.

(** The instants at which a call of [user_id] returned [allowed = True]. *)
Definition is_allowed (user_id : Z) (s : Step.t) : bool :=
  (Call.user_id (Step.call s) =? user_id) &&
  match Step.outcome s with
  | Return (allowed, _) => allowed
  | Raise _ => false
  end.

Definition allowed_times (user_id : Z) (trace : list Step.t) : list Z :=
  map (fun s => Call.now (Step.call s)) (List.filter (is_allowed user_id) trace).

(** How many of the instants [l] lie in the closed interval [lo, hi]. *)
Definition count_between (lo hi : Z) (l : list Z) : Z :=
  Z.of_nat (length (List.filter (fun p => (lo <=? p) && (p <=? hi)) l)).

(** How many of the instants [l] are at or after [c]. *)
Definition count_since (c : Z) (l : list Z) : Z :=
  Z.of_nat (length (List.filter (fun p => c <=? p) l)).

(** A row of [user_id] written by [isoformat] at or after the instant [c]. *)
Definition iso_since (user_id c : Z) (r : BroadcastAction.t) : bool :=
  (BroadcastAction.user_id r =? user_id) &&
  match BroadcastAction.used_at r with
  | Iso t => c <=? t
  | Raw _ => false
  end.

Definition rows_since (user_id c : Z) (db : ledger) : Z :=
  Z.of_nat (length (List.filter (iso_since user_id c) (broadcast_actions db))).

(** What the ledger remembers of the allowed calls [past] of [u], none
    later than [tlast]: inside the retention horizon every one of them has
    its row, and no trailing window holds more than [max_actions]. *)
Definition past_ok (u max_actions window : Z) (past : list Z) (db : ledger) (tlast : Z)
  : Prop :=
  Forall (fun p => p <= tlast) past /\
  (forall c, tlast - timedelta_days 2 <= c -> count_since c past <= rows_since u c db) /\
  (forall s, count_between (s - timedelta_seconds window) s past <= max_actions).

(** ** Sample ledgers and runs *)

(** A string that starts with a letter sorts after every timestamp
    rendering, which starts with a digit. *)
Definition letters_after_digits : string -> Z -> bool := fun _ _ => false.

(** Sample ledgers, built with the code's own writers: user 1 ("alice")
    broadcasts at instant 0 and the copy delivered as message 50 is
    tracked; in [untracked_author] her account was never created (the
    broadcast path prints and goes on when [ensure_rep_user] fails). *)
Definition tracked_author : ledger :=
  track_rep_message 50 1 "alice" 0 (ensure_rep_user 1 "alice" 0 init).

Definition untracked_author : ledger :=
  track_rep_message 50 1 "alice" 0 init.

Definition alice_message : RepMessage.t := RepMessage.mk 1 "alice" (Iso 0).

(** A handler whose readings of the clock all fall on [now]. *)
Definition at_reading (now : Z) : Readings.t := Readings.mk now now now.

(** The voter (user 2) has a thumbs-up on message 50. *)
Definition voted_up : ledger :=
  (on_raw_reaction_add (Some 99) (Payload.mk 50 2 THUMBS_UP) (at_reading 10000000)
     tracked_author).2.

Definition voted_up_untracked_author : ledger :=
  (on_raw_reaction_add (Some 99) (Payload.mk 50 2 THUMBS_UP) (at_reading 10000000)
     untracked_author).2.

(** A handler that checks the window at the last instant of the TTL of a
    message created at instant 0 and reaches [prune_rep] a millisecond
    later. *)
Definition at_ttl_end : Readings.t :=
  Readings.mk (timedelta_seconds REP_TTL_SECONDS)
              (timedelta_seconds REP_TTL_SECONDS)
              (timedelta_seconds REP_TTL_SECONDS + 1000).

(** The score of user 1 was set to the largest INTEGER, and, with the
    thumbs-up of user 2 stored, to the smallest. *)
Definition at_the_bound : ledger :=
  (set_user_rep 1 "alice" INT64_MAX None 0 tracked_author).2.

Definition voted_up_at_the_floor : ledger :=
  (set_user_rep 1 "alice" INT64_MIN None 0 voted_up).2.

(** The part the two listeners share once the vote row is written: the
    score adjustment and, unless it raised, the prune. *)
Definition adjust_then_prune (author delta : Z) (clock : Readings.t) (db : ledger)
  : result unit * ledger :=
  match adjust_rep author delta (Readings.adjust clock) db with
  | (Raise e, db) => (Raise e, db)
  | (Return _, db) => (Return tt, prune_rep (Readings.prune clock) db)
  end.

(** Five hours after the broadcast the message is past the window. *)
Definition FIVE_HOURS : Z := timedelta_seconds (5 * 60 * 60).

Definition TEN_MINUTES : Z := timedelta_seconds 600.

(** Two allowed calls: user 1 at instant 0, then user 2 ten minutes before
    the row of user 1 turns two days old. *)
Definition after_first_call : ledger :=
  (check_and_consume_broadcast_quota letters_after_digits 1 5 3600 0 init).2.

Definition after_second_call : ledger :=
  (check_and_consume_broadcast_quota letters_after_digits 2 1 3600
     (timedelta_days 2 - TEN_MINUTES) after_first_call).2.

(** A ledger whose only quota row carries a [used_at] that is no
    timestamp. *)
Definition corrupt_ledger : ledger :=
  mkLedger ∅ ∅ ∅ [BroadcastAction.mk 7 (Raw "yesterday")] (Some None).

(** The scenario of the specification: score 0, so five actions an hour;
    five calls one second apart and a sixth after a hundred seconds. *)
Definition six_calls : list Call.t :=
  map (fun s => Call.mk 1 (_limits_for_rep 0).1 (_limits_for_rep 0).2 (timedelta_seconds s))
      [0; 1; 2; 3; 4; 100].

(** One action per three days: a call at instant 0 and a call two days
    and one second later. *)
Definition three_day_calls : list Call.t :=
  [Call.mk 1 1 259200 0; Call.mk 1 1 259200 (timedelta_days 2 + timedelta_seconds 1)].

(** ** Vocabulary of the further properties *)

(** The votes stored on message [m], and their sum. *)
Definition votes_on (m : Z) (db : ledger) : gmap (Z * Z) Z :=
  filter (fun kv => kv.1.1 = m) (rep_votes db).

Definition sum_votes (votes : gmap (Z * Z) Z) : Z :=
  map_fold (fun _ v acc => v + acc) 0 votes.

Definition vote_sum (m : Z) (db : ledger) : Z := sum_votes (votes_on m db).

(** The clock reading [now] with its microseconds dropped, as
    [utc_now_iso] stores it. *)
Definition whole_second (now : Z) : Z := now - now mod US_PER_SECOND.

(** ** Sequences of cooldown checks *)

Module Cooldown.
Record call : Type := mk { now : Z; group_id : Z; user_id : Z }.
Definition key (c : call) : Z * Z := (group_id c, user_id c).
End Cooldown.

(** The calls of a cog in order, each with what [_cooldown_ok] returned. *)
Fixpoint run_cooldown (calls : list Cooldown.call) (self : cooldowns)
  : list (Cooldown.call * (bool * Z)) * cooldowns :=
  match calls with
  | [] => ([], self)
  | c :: rest =>
      let r := _cooldown_ok (Cooldown.now c) (Cooldown.group_id c) (Cooldown.user_id c) self in
      let t := run_cooldown rest r.2 in
      ((c, r.1) :: t.1, t.2)
  end.

Definition cooldown_passed (k : Z * Z) (x : Cooldown.call * (bool * Z)) : bool :=
  bool_decide (Cooldown.key x.1 = k) && x.2.1.

(** The readings at which the calls of the key [k] passed, in order. *)
Definition passed_at (k : Z * Z) (trace : list (Cooldown.call * (bool * Z))) : list Z :=
  (fun x => Cooldown.now x.1) <$> List.filter (cooldown_passed k) trace.

(** * Properties *)

Example rep_threshold_values :
  map rep_threshold [0; 1; 2; 3; 4; 5] = [0; 10; 29; 64; 129; 250].
Proof. vm_compute. reflexivity. Qed.

Example rep_level_values :
  map (rep_level exact_log_floor) [-3; 0; 9; 10; 28; 29; 63; 64; 128; 129; 249; 250; 100000]
  = [0; 0; 0; 1; 1; 2; 2; 3; 3; 4; 4; 5; 5].
Proof. vm_compute. reflexivity. Qed.

(** ** The rate-limit policy table *)

(** C8. [_limits_for_rep] is defined on every integer score and is a
    monotone step function: from a lower score to a higher one the number
    of allowed actions does not decrease and the window does not grow. *)
Theorem limits_for_rep_monotone (a b : Z) :
  a <= b ->
  (_limits_for_rep a).1 <= (_limits_for_rep b).1 /\
  (_limits_for_rep b).2 <= (_limits_for_rep a).2.
Proof.
  intros Hab. unfold _limits_for_rep.
  repeat match goal with
         | |- context [?x <=? ?y] => destruct (Z.leb_spec x y)
         end; simpl; lia.
Qed.

Lemma limits_for_rep_monotone_witness :
  -40 <= 12 /\
  (_limits_for_rep (-40)).1 <= (_limits_for_rep 12).1 /\
  (_limits_for_rep 12).2 <= (_limits_for_rep (-40)).2.
Proof. split; [lia | apply (limits_for_rep_monotone (-40) 12); lia]. Defined.

(** ** Score adjustment *)

(** C9. Without a [rep_users] row for [user_id], [adjust_rep] changes
    nothing: the call returns, the ledger after it is the ledger before it
    (so no row was created), and [get_rep] still answers 0. *)
Theorem adjust_rep_without_account (db : ledger) (user_id delta now : Z) :
  rep_users db !! user_id = None ->
  adjust_rep user_id delta now db = (Return tt, db) /\
  rep_users (adjust_rep user_id delta now db).2 !! user_id = None /\
  get_rep (adjust_rep user_id delta now db).2 user_id = 0.
Proof.
  intros Hnone.
  assert (Hsame : adjust_rep user_id delta now db = (Return tt, db)).
  { unfold adjust_rep, connect, commit, close. simpl. rewrite Hnone. reflexivity. }
  rewrite Hsame. cbn [snd]. unfold get_rep. rewrite Hnone. auto.
Qed.

Lemma adjust_rep_without_account_witness :
  rep_users init !! 7 = None /\
  adjust_rep 7 (-2) 1000000 init = (Return tt, init) /\
  rep_users (adjust_rep 7 (-2) 1000000 init).2 !! 7 = None /\
  get_rep (adjust_rep 7 (-2) 1000000 init).2 7 = 0.
Proof.
  split; [reflexivity | apply (adjust_rep_without_account init 7 (-2) 1000000); reflexivity].
Defined.

(** ** The tier curve *)

Lemma tier_x_mono (a b : Z) : a <= b -> (tier_x a <= tier_x b)%Q.
Proof.
  intros Hab. unfold tier_x.
  apply Qplus_le_l. unfold Qdiv.
  apply Qmult_le_compat_r.
  - rewrite <- Zle_Qle. exact Hab.
  - apply Qlt_le_weak, Qinv_lt_0_compat. reflexivity.
Qed.

Lemma tier_x_below (s d : Z) (q : Q) :
  s <= d ->
  Qle_bool (tier_x d * (1 + LOG_TOLERANCE)) q = true ->
  (tier_x s * (1 + LOG_TOLERANCE) <= q)%Q.
Proof.
  intros Hsd Hq. apply Qle_bool_iff in Hq.
  eapply Qle_trans; [| exact Hq].
  apply Qmult_le_compat_r; [apply tier_x_mono; exact Hsd | discriminate].
Qed.

Lemma tier_x_above (s u : Z) (q : Q) :
  u <= s ->
  Qle_bool (q * (1 + LOG_TOLERANCE)) (tier_x u) = true ->
  (q * (1 + LOG_TOLERANCE) <= tier_x s)%Q.
Proof.
  intros Hus Hq. apply Qle_bool_iff in Hq.
  eapply Qle_trans; [exact Hq |]. apply tier_x_mono; exact Hus.
Qed.

Section TierCurveFacts.

Variable math_log_floor : Q -> Q -> Z.
Hypothesis math_log_floor_ok : log_floor_accurate math_log_floor.

Lemma rep_level_range (s : Z) : 0 <= rep_level math_log_floor s <= 5.
Proof.
  unfold rep_level. destruct (Z.leb_spec s 0); [lia |].
  change (Z.of_nat (length TIER_NAMES) - 1) with 5. lia.
Qed.

(** Below the threshold of tier [l] the level is below [l]. *)
Lemma rep_level_below (l s : Z) :
  1 <= l <= 5 -> s < rep_threshold l -> rep_level math_log_floor s < l.
Proof.
  intros Hl Hs. unfold rep_level. destruct (Z.leb_spec s 0) as [Hle | Hpos]; [lia |].
  change (Z.of_nat (length TIER_NAMES) - 1) with 5.
  fold (tier_x s).
  destruct (math_log_floor_ok (tier_x s) l Hl) as [_ Hlt].
  assert (Hx : (tier_x s * (1 + LOG_TOLERANCE) <= LOG_BASE ^ l)%Q).
  { assert (Hcases : l = 1 \/ l = 2 \/ l = 3 \/ l = 4 \/ l = 5) by lia.
    destruct Hcases as [-> | [-> | [-> | [-> | ->]]]].
    - apply (tier_x_below s 9); [change (rep_threshold 1) with 10 in Hs; lia | reflexivity].
    - apply (tier_x_below s 28); [change (rep_threshold 2) with 29 in Hs; lia | reflexivity].
    - apply (tier_x_below s 63); [change (rep_threshold 3) with 64 in Hs; lia | reflexivity].
    - apply (tier_x_below s 128); [change (rep_threshold 4) with 129 in Hs; lia | reflexivity].
    - apply (tier_x_below s 249); [change (rep_threshold 5) with 250 in Hs; lia | reflexivity]. }
  specialize (Hlt Hx). lia.
Qed.

(** Above the threshold of tier [l] the level is at least [l]. *)
Lemma rep_level_above (l s : Z) :
  1 <= l <= 5 -> rep_threshold l < s -> l <= rep_level math_log_floor s.
Proof.
  intros Hl Hs.
  destruct (math_log_floor_ok (tier_x s) l Hl) as [Hge _].
  assert (Hx : 0 < s /\ (LOG_BASE ^ l * (1 + LOG_TOLERANCE) <= tier_x s)%Q).
  { assert (Hcases : l = 1 \/ l = 2 \/ l = 3 \/ l = 4 \/ l = 5) by lia.
    destruct Hcases as [-> | [-> | [-> | [-> | ->]]]].
    - change (rep_threshold 1) with 10 in Hs.
      split; [lia | apply (tier_x_above s 11); [lia | reflexivity]].
    - change (rep_threshold 2) with 29 in Hs.
      split; [lia | apply (tier_x_above s 30); [lia | reflexivity]].
    - change (rep_threshold 3) with 64 in Hs.
      split; [lia | apply (tier_x_above s 65); [lia | reflexivity]].
    - change (rep_threshold 4) with 129 in Hs.
      split; [lia | apply (tier_x_above s 130); [lia | reflexivity]].
    - change (rep_threshold 5) with 250 in Hs.
      split; [lia | apply (tier_x_above s 251); [lia | reflexivity]]. }
  destruct Hx as [Hpos Hx]. specialize (Hge Hx).
  unfold rep_level. destruct (Z.leb_spec s 0) as [Hle | _]; [lia |].
  change (Z.of_nat (length TIER_NAMES) - 1) with 5.
  fold (tier_x s). lia.
Qed.

End TierCurveFacts.

(** The exact floor of the logarithm meets the accuracy asked of
    [math.log]. *)

Lemma log_floor_from_ge (base x : Q) (fuel : nat) (l : Z) :
  l <= log_floor_from fuel base x l.
Proof.
  revert l. induction fuel as [| fuel IH]; intros l; simpl; [lia |].
  destruct (Qle_bool (base ^ (l + 1)) x); [| lia].
  specialize (IH (l + 1)). lia.
Qed.

Lemma log_floor_from_reaches (base x : Q) (fuel : nat) (l k : Z) :
  l <= k -> k - l <= Z.of_nat fuel ->
  (forall j, l < j <= k -> (base ^ j <= x)%Q) ->
  k <= log_floor_from fuel base x l.
Proof.
  revert l. induction fuel as [| fuel IH]; intros l Hlk Hfuel Hpow.
  - simpl. lia.
  - destruct (Z.eq_dec l k) as [-> | Hne]; [apply log_floor_from_ge |].
    simpl.
    assert (Hstep : Qle_bool (base ^ (l + 1)) x = true).
    { apply Qle_bool_iff, Hpow. lia. }
    rewrite Hstep. apply IH; [lia | lia |].
    intros j Hj. apply Hpow. lia.
Qed.

Lemma log_floor_from_sound (base x : Q) (fuel : nat) (l : Z) :
  l < log_floor_from fuel base x l ->
  (base ^ log_floor_from fuel base x l <= x)%Q.
Proof.
  revert l. induction fuel as [| fuel IH]; intros l Hlt; simpl in *; [lia |].
  destruct (Qle_bool (base ^ (l + 1)) x) eqn:Hstep; [| lia].
  destruct (Z.eq_dec (log_floor_from fuel base x (l + 1)) (l + 1)) as [Heq | Hne].
  - rewrite Heq. apply Qle_bool_iff. exact Hstep.
  - apply IH. pose proof (log_floor_from_ge base x fuel (l + 1)). lia.
Qed.

Lemma LOG_BASE_gt_1 : (1 < LOG_BASE)%Q.
Proof. reflexivity. Qed.

Lemma log_floor_from_stops (base x : Q) (fuel : nat) (l : Z) :
  log_floor_from fuel base x l < l + Z.of_nat fuel ->
  (x < base ^ (log_floor_from fuel base x l + 1))%Q.
Proof.
  revert l. induction fuel as [| fuel IH]; intros l Hlt; simpl in *; [lia |].
  destruct (Qle_bool (base ^ (l + 1)) x) eqn:Hstep.
  - apply IH. lia.
  - apply Qnot_le_lt. intros Hle. apply Qle_bool_iff in Hle. congruence.
Qed.

Lemma Qpower_base_mono (a b : Q) (k : nat) :
  (0 <= a)%Q -> (a <= b)%Q -> (a ^ Z.of_nat k <= b ^ Z.of_nat k)%Q.
Proof.
  intros Ha Hab. induction k as [| k IH].
  - simpl. apply Qle_refl.
  - rewrite Nat2Z.inj_succ, <- Z.add_1_l.
    rewrite !Qpower_plus' by lia. simpl (_ ^ 1)%Q.
    assert (H0 : (0 <= a ^ Z.of_nat k)%Q) by (apply Qpower_0_le; exact Ha).
    nra.
Qed.

(** The fuel of [exact_log_floor] outlasts the count. *)
Lemma exact_log_floor_fuel (x : Q) :
  (1 <= x)%Q -> (x < LOG_BASE ^ (2 * Z.log2_up (Qceiling x) + 5))%Q.
Proof.
  intros Hx.
  set (c := Qceiling x). set (k := Z.log2_up c).
  assert (Hk : 0 <= k) by apply Z.log2_up_nonneg.
  assert (Hc : (x <= inject_Z c)%Q) by apply Qle_ceiling.
  assert (Hpow : c <= 2 ^ k).
  { destruct (Z.le_gt_cases c 1) as [Hle | Hgt].
    - pose proof (Z.pow_pos_nonneg 2 k ltac:(lia) Hk). lia.
    - apply Z.log2_up_spec. exact Hgt. }
  assert (H2 : (inject_Z c <= 2 ^ k)%Q).
  { rewrite <- (Zpower_Qpower 2 k Hk). rewrite <- Zle_Qle. exact Hpow. }
  assert (H3 : (2 ^ k <= (LOG_BASE ^ 2) ^ k)%Q).
  { rewrite <- (Z2Nat.id k Hk). apply Qpower_base_mono; [discriminate |].
    apply Qle_bool_iff. reflexivity. }
  assert (H4 : (LOG_BASE ^ (2 * k + 5) == (LOG_BASE ^ 2) ^ k * LOG_BASE ^ 5)%Q).
  { rewrite Qpower_plus by discriminate. rewrite Qpower_mult. reflexivity. }
  rewrite H4.
  assert (H5 : (1 < LOG_BASE ^ 5)%Q) by reflexivity.
  assert (H6 : (0 < 2 ^ k)%Q) by (apply Qpower_0_lt; reflexivity).
  nra.
Qed.

(** [exact_log_floor x LOG_BASE] is the floor of the logarithm of [x] in
    base [LOG_BASE]. *)
Lemma exact_log_floor_spec (x : Q) :
  (1 <= x)%Q ->
  0 <= exact_log_floor x LOG_BASE /\
  (LOG_BASE ^ exact_log_floor x LOG_BASE <= x)%Q /\
  (x < LOG_BASE ^ (exact_log_floor x LOG_BASE + 1))%Q.
Proof.
  intros Hx. unfold exact_log_floor.
  set (fuel := Z.to_nat (2 * Z.log2_up (Qceiling x) + 5)).
  pose proof (log_floor_from_ge LOG_BASE x fuel 0) as Hge.
  assert (Hlow : (LOG_BASE ^ log_floor_from fuel LOG_BASE x 0 <= x)%Q).
  { destruct (Z.eq_dec (log_floor_from fuel LOG_BASE x 0) 0) as [-> | Hne];
      [exact Hx | apply log_floor_from_sound; lia]. }
  split; [exact Hge |]. split; [exact Hlow |].
  apply log_floor_from_stops.
  pose proof (exact_log_floor_fuel x Hx) as Hfuel.
  pose proof (Z.log2_up_nonneg (Qceiling x)) as Hk.
  assert (Hlt : log_floor_from fuel LOG_BASE x 0 < 2 * Z.log2_up (Qceiling x) + 5).
  { apply Qpower_lt_compat_l_inv with LOG_BASE; [| apply LOG_BASE_gt_1].
    eapply Qle_lt_trans; [exact Hlow | exact Hfuel]. }
  subst fuel. rewrite Z2Nat.id by lia. lia.
Qed.

Lemma exact_log_floor_accurate : log_floor_accurate exact_log_floor.
Proof.
  intros x l Hl. split.
  - intros Hx. unfold exact_log_floor.
    apply log_floor_from_reaches; [lia | |].
    + pose proof (Z.log2_up_nonneg (Qceiling x)). lia.
    + intros j Hj.
      apply Qle_trans with (LOG_BASE ^ l)%Q.
      * apply Qpower_le_compat_l; [lia | apply Qlt_le_weak, LOG_BASE_gt_1].
      * eapply Qle_trans; [| exact Hx].
        assert (H0 : (0 < LOG_BASE ^ l)%Q) by (apply Qpower_0_lt; reflexivity).
        unfold LOG_TOLERANCE. lra.
  - intros Hx. unfold exact_log_floor.
    set (fuel := Z.to_nat (2 * Z.log2_up (Qceiling x) + 5)).
    destruct (Z.lt_ge_cases 0 (log_floor_from fuel LOG_BASE x 0)) as [Hpos | Hzero]; [| lia].
    pose proof (log_floor_from_sound LOG_BASE x fuel 0 Hpos) as Hsound.
    apply Qpower_lt_compat_l_inv with LOG_BASE; [| apply LOG_BASE_gt_1].
    assert (H0 : (0 < LOG_BASE ^ log_floor_from fuel LOG_BASE x 0)%Q)
      by (apply Qpower_0_lt; reflexivity).
    unfold LOG_TOLERANCE in Hx. lra.
Qed.

(** C7, as the code has it.  [rep_level] is monotone over all integer
    scores, and the threshold of the level of a score is at most the score
    for every score that is not negative.  This holds for every evaluation
    of the floored logarithm that is right away from the tier boundaries
    ([log_floor_accurate]); the exact logarithm is one. *)
Theorem rep_level_monotone_and_threshold (math_log_floor : Q -> Q -> Z) :
  log_floor_accurate math_log_floor ->
  (forall a b : Z, a < b -> rep_level math_log_floor a <= rep_level math_log_floor b) /\
  (forall s : Z, 0 <= s -> rep_threshold (rep_level math_log_floor s) <= s).
Proof.
  intros Hacc. split.
  - intros a b Hab.
    destruct (Z.le_gt_cases (rep_level math_log_floor a) (rep_level math_log_floor b))
      as [Hle | Hgt]; [exact Hle | exfalso].
    pose proof (rep_level_range math_log_floor a) as Ha.
    pose proof (rep_level_range math_log_floor b) as Hb.
    set (l := rep_level math_log_floor a) in *.
    assert (Hl : 1 <= l <= 5) by lia.
    destruct (Z.lt_ge_cases a (rep_threshold l)) as [Hbelow | Habove].
    + pose proof (rep_level_below math_log_floor Hacc l a Hl Hbelow). lia.
    + assert (Hb' : rep_threshold l < b) by lia.
      pose proof (rep_level_above math_log_floor Hacc l b Hl Hb'). lia.
  - intros s Hs.
    pose proof (rep_level_range math_log_floor s) as Hr.
    set (l := rep_level math_log_floor s) in *.
    destruct (Z.eq_dec l 0) as [-> | Hne].
    + change (rep_threshold 0) with 0. exact Hs.
    + assert (Hl : 1 <= l <= 5) by lia.
      destruct (Z.lt_ge_cases s (rep_threshold l)) as [Hbelow | Habove]; [| lia].
      pose proof (rep_level_below math_log_floor Hacc l s Hl Hbelow). lia.
Qed.

Lemma rep_level_monotone_and_threshold_witness :
  log_floor_accurate exact_log_floor /\
  (forall a b : Z, a < b -> rep_level exact_log_floor a <= rep_level exact_log_floor b) /\
  (forall s : Z, 0 <= s -> rep_threshold (rep_level exact_log_floor s) <= s).
Proof.
  split; [exact exact_log_floor_accurate |].
  apply (rep_level_monotone_and_threshold exact_log_floor), exact_log_floor_accurate.
Defined.

(** C7 as stated fails on a negative score: every score at or below zero
    is at level 0, whose threshold is 0. *)
Lemma rep_threshold_above_negative_score :
  rep_level exact_log_floor (-1) = 0 /\
  rep_threshold (rep_level exact_log_floor (-1)) = 0 /\
  ~ (rep_threshold (rep_level exact_log_floor (-1)) <= -1).
Proof.
  split; [reflexivity | split; [reflexivity |]].
  change (rep_threshold (rep_level exact_log_floor (-1))) with 0. lia.
Qed.

(** ** The ledger operations, table by table *)

Lemma lookup_delete_votes_of (ids : list Z) (votes : gmap (Z * Z) Z) (m v : Z) :
  delete_votes_of ids votes !! (m, v) = if decide (m ∈ ids) then None else votes !! (m, v).
Proof.
  unfold delete_votes_of. destruct (decide (m ∈ ids)) as [Hin | Hout].
  - apply map_lookup_filter_None. right. intros x _. simpl. tauto.
  - destruct (votes !! (m, v)) as [x |] eqn:Hx.
    + apply map_lookup_filter_Some. split; [exact Hx | exact Hout].
    + apply map_lookup_filter_None. left. exact Hx.
Qed.

Lemma lookup_delete_messages_of (ids : list Z) (msgs : gmap Z RepMessage.t) (m : Z) :
  delete_messages_of ids msgs !! m = if decide (m ∈ ids) then None else msgs !! m.
Proof.
  unfold delete_messages_of. destruct (decide (m ∈ ids)) as [Hin | Hout].
  - apply map_lookup_filter_None. right. intros x _. simpl. tauto.
  - destruct (msgs !! m) as [x |] eqn:Hx.
    + apply map_lookup_filter_Some. split; [exact Hx | exact Hout].
    + apply map_lookup_filter_None. left. exact Hx.
Qed.

Lemma delete_votes_of_nil (votes : gmap (Z * Z) Z) : delete_votes_of [] votes = votes.
Proof. apply map_filter_id. intros i x _. simpl. apply not_elem_of_nil. Qed.

Lemma delete_messages_of_nil (msgs : gmap Z RepMessage.t) : delete_messages_of [] msgs = msgs.
Proof. apply map_filter_id. intros i x _. simpl. apply not_elem_of_nil. Qed.

Lemma elem_of_expired_ids (now : Z) (msgs : gmap Z RepMessage.t) (m : Z) :
  m ∈ expired_ids now (map_to_list msgs) <->
  exists msg, msgs !! m = Some msg /\ is_expired now (RepMessage.created_at msg) = true.
Proof.
  unfold expired_ids. rewrite list_elem_of_fmap. split.
  - intros [[m' msg] [-> Hin]]. apply list_elem_of_filter in Hin as [Hexp Hin].
    apply elem_of_map_to_list in Hin. exists msg. split; assumption.
  - intros [msg [Hm Hexp]]. exists (m, msg). split; [reflexivity |].
    apply list_elem_of_filter. split; [exact Hexp | apply elem_of_map_to_list; exact Hm].
Qed.

(** [prune_rep] touches neither the scores nor the quota rows; it removes
    the expired messages and their votes. *)
Lemma prune_rep_tables (now : Z) (db : ledger) :
  rep_users (prune_rep now db) = rep_users db /\
  broadcast_actions (prune_rep now db) = broadcast_actions db /\
  rep_votes (prune_rep now db)
    = delete_votes_of (expired_ids now (map_to_list (rep_messages db))) (rep_votes db) /\
  rep_messages (prune_rep now db)
    = delete_messages_of (expired_ids now (map_to_list (rep_messages db))) (rep_messages db).
Proof.
  unfold prune_rep, connect, commit, close, execute. simpl.
  destruct (expired_ids now (map_to_list (rep_messages db))) as [| i ids]; simpl.
  - rewrite delete_votes_of_nil, delete_messages_of_nil. auto.
  - auto.
Qed.

Lemma get_rep_prune_rep (now : Z) (db : ledger) (u : Z) :
  get_rep (prune_rep now db) u = get_rep db u.
Proof. unfold get_rep. destruct (prune_rep_tables now db) as [-> _]. reflexivity. Qed.

(** A row that [within_rep_window] accepts is not one [prune_rep] marks. *)
Lemma within_window_not_expired (now : Z) (created_at : text) :
  within_rep_window created_at now = true -> is_expired now created_at = false.
Proof.
  unfold within_rep_window, is_expired. destruct (parse_iso_utc created_at); [| reflexivity].
  intros H. apply Z.leb_le in H. apply Z.ltb_ge. exact H.
Qed.

Lemma get_vote_prune_rep_live (now : Z) (db : ledger) (m v : Z) (msg : RepMessage.t) :
  get_rep_message db m = Some msg ->
  within_rep_window (RepMessage.created_at msg) now = true ->
  get_vote (prune_rep now db) m v = get_vote db m v.
Proof.
  intros Hmsg Hlive. unfold get_vote.
  destruct (prune_rep_tables now db) as (_ & _ & -> & _).
  rewrite lookup_delete_votes_of.
  destruct (decide _) as [Hin | Hout]; [| reflexivity].
  apply elem_of_expired_ids in Hin as [msg' [Hm' Hexp]].
  unfold get_rep_message in Hmsg. rewrite Hmsg in Hm'. injection Hm' as <-.
  rewrite (within_window_not_expired _ _ Hlive) in Hexp. discriminate.
Qed.

Lemma get_rep_message_prune_rep_live (now : Z) (db : ledger) (m : Z) (msg : RepMessage.t) :
  get_rep_message db m = Some msg ->
  within_rep_window (RepMessage.created_at msg) now = true ->
  get_rep_message (prune_rep now db) m = Some msg.
Proof.
  intros Hmsg Hlive. unfold get_rep_message.
  destruct (prune_rep_tables now db) as (_ & _ & _ & ->).
  rewrite lookup_delete_messages_of.
  destruct (decide _) as [Hin | Hout]; [| exact Hmsg].
  apply elem_of_expired_ids in Hin as [msg' [Hm' Hexp]].
  unfold get_rep_message in Hmsg. rewrite Hmsg in Hm'. injection Hm' as <-.
  rewrite (within_window_not_expired _ _ Hlive) in Hexp. discriminate.
Qed.

Lemma prune_rep_votes_subseteq (now : Z) (db : ledger) :
  rep_votes (prune_rep now db) ⊆ rep_votes db.
Proof.
  destruct (prune_rep_tables now db) as (_ & _ & -> & _). apply map_filter_subseteq.
Qed.

Lemma get_rep_message_prune_rep (now : Z) (db : ledger) (m : Z) :
  get_rep_message (prune_rep now db) m =
  match get_rep_message db m with
  | Some msg => if is_expired now (RepMessage.created_at msg) then None else Some msg
  | None => None
  end.
Proof.
  unfold get_rep_message. destruct (prune_rep_tables now db) as (_ & _ & _ & ->).
  rewrite lookup_delete_messages_of.
  destruct (rep_messages db !! m) as [msg |] eqn:Hm.
  - destruct (decide _) as [Hin | Hout].
    + apply elem_of_expired_ids in Hin as [msg' [Hm' Hexp]].
      rewrite Hm in Hm'. injection Hm' as <-. rewrite Hexp. reflexivity.
    + destruct (is_expired now (RepMessage.created_at msg)) eqn:Hexp; [| reflexivity].
      exfalso. apply Hout, elem_of_expired_ids. exists msg. split; assumption.
  - destruct (decide _); reflexivity.
Qed.

Lemma get_vote_prune_rep (now : Z) (db : ledger) (m v : Z) :
  get_vote (prune_rep now db) m v =
  match get_rep_message db m with
  | Some msg => if is_expired now (RepMessage.created_at msg) then None else get_vote db m v
  | None => get_vote db m v
  end.
Proof.
  unfold get_vote, get_rep_message. destruct (prune_rep_tables now db) as (_ & _ & -> & _).
  rewrite lookup_delete_votes_of.
  destruct (rep_messages db !! m) as [msg |] eqn:Hm.
  - destruct (decide _) as [Hin | Hout].
    + apply elem_of_expired_ids in Hin as [msg' [Hm' Hexp]].
      rewrite Hm in Hm'. injection Hm' as <-. rewrite Hexp. reflexivity.
    + destruct (is_expired now (RepMessage.created_at msg)) eqn:Hexp; [| reflexivity].
      exfalso. apply Hout, elem_of_expired_ids. exists msg. split; assumption.
  - destruct (decide _) as [Hin | Hout]; [| reflexivity].
    apply elem_of_expired_ids in Hin as [msg' [Hm' _]]. rewrite Hm in Hm'. discriminate.
Qed.

(** A row inside the window at one reading and outside it at another is
    one [prune_rep] marks at the other. *)
Lemma outside_window_expired (w p : Z) (created_at : text) :
  within_rep_window created_at w = true ->
  within_rep_window created_at p = false ->
  is_expired p created_at = true.
Proof.
  unfold within_rep_window, is_expired.
  destruct (parse_iso_utc created_at); [| discriminate].
  intros _ H. apply Z.leb_gt in H. apply Z.ltb_lt. exact H.
Qed.

(** The window check is monotone: a row inside the window at a reading
    is inside it at every earlier one. *)
Lemma within_rep_window_earlier (now now' : Z) (created_at : text) :
  now <= now' ->
  within_rep_window created_at now' = true -> within_rep_window created_at now = true.
Proof.
  unfold within_rep_window. destruct (parse_iso_utc created_at); [| discriminate].
  intros Hle H. apply Z.leb_le in H. apply Z.leb_le. lia.
Qed.

Lemma delete_rep_message_tables (m : Z) (db : ledger) :
  rep_users (delete_rep_message m db) = rep_users db /\
  broadcast_actions (delete_rep_message m db) = broadcast_actions db /\
  rep_votes (delete_rep_message m db) = delete_votes_of [m] (rep_votes db) /\
  rep_messages (delete_rep_message m db) = delete_messages_of [m] (rep_messages db).
Proof. unfold delete_rep_message, connect, commit, close, execute. simpl. auto. Qed.

(** [adjust_rep] returns, or raises [OverflowError] and leaves the ledger. *)
Lemma adjust_rep_cases (u delta now : Z) (db : ledger) :
  adjust_rep u delta now db = (Return tt, (adjust_rep u delta now db).2) \/
  adjust_rep u delta now db = (Raise OverflowError, db).
Proof.
  unfold adjust_rep, connect, close. cbn [pending committed].
  destruct (rep_users db !! u) as [r |]; [| left; reflexivity].
  destruct (fits_int64 (RepUser.rep r + delta)); [left | right]; reflexivity.
Qed.

Lemma adjust_rep_outcome (u delta now : Z) (db : ledger) :
  (adjust_rep u delta now db).1 =
  match rep_users db !! u with
  | Some _ => if fits_int64 (get_rep db u + delta) then Return tt else Raise OverflowError
  | None => Return tt
  end.
Proof.
  unfold adjust_rep, get_rep, connect. cbn [pending].
  destruct (rep_users db !! u) as [r |]; [| reflexivity].
  destruct (fits_int64 (RepUser.rep r + delta)); reflexivity.
Qed.

Lemma adjust_rep_tables (u delta now : Z) (db : ledger) :
  rep_messages (adjust_rep u delta now db).2 = rep_messages db /\
  rep_votes (adjust_rep u delta now db).2 = rep_votes db /\
  broadcast_actions (adjust_rep u delta now db).2 = broadcast_actions db.
Proof.
  unfold adjust_rep, connect, commit, close, execute. cbn [pending committed].
  destruct (rep_users db !! u) as [r |]; [| auto].
  destruct (fits_int64 (RepUser.rep r + delta)); simpl; auto.
Qed.

Lemma get_rep_adjust_rep (u delta now : Z) (db : ledger) (u' : Z) :
  get_rep (adjust_rep u delta now db).2 u' =
  if decide (u' = u) then
    match rep_users db !! u with
    | Some _ => if fits_int64 (get_rep db u + delta) then get_rep db u + delta else get_rep db u
    | None => 0
    end
  else get_rep db u'.
Proof.
  unfold get_rep, adjust_rep, connect, commit, close, execute. cbn [pending committed].
  destruct (rep_users db !! u) as [r |] eqn:Hr.
  - destruct (fits_int64 (RepUser.rep r + delta)); simpl.
    + destruct (decide (u' = u)) as [-> | Hne].
      * rewrite lookup_insert_eq. reflexivity.
      * rewrite lookup_insert_ne by congruence. reflexivity.
    + destruct (decide (u' = u)) as [-> | Hne]; [rewrite Hr |]; reflexivity.
  - simpl. destruct (decide (u' = u)) as [-> | Hne]; [rewrite Hr |]; reflexivity.
Qed.

Lemma account_after_adjust_rep (author delta now : Z) (db : ledger) (u : Z) :
  is_Some (rep_users (adjust_rep author delta now db).2 !! u) <-> is_Some (rep_users db !! u).
Proof.
  unfold adjust_rep, connect, commit, close, execute. cbn [pending committed].
  destruct (rep_users db !! author) as [r |] eqn:Hr; [| reflexivity].
  destruct (fits_int64 (RepUser.rep r + delta)); simpl; [| reflexivity].
  destruct (decide (u = author)) as [-> | Hne].
  - rewrite lookup_insert_eq, Hr. split; intros _; eexists; reflexivity.
  - rewrite lookup_insert_ne by congruence. reflexivity.
Qed.

(** [adjust_then_prune] through [adjust_rep]. *)
Lemma adjust_then_prune_fst (author delta : Z) (clock : Readings.t) (db : ledger) :
  (adjust_then_prune author delta clock db).1
    = (adjust_rep author delta (Readings.adjust clock) db).1.
Proof.
  unfold adjust_then_prune.
  destruct (adjust_rep author delta (Readings.adjust clock) db) as [[[] | e] db1]; reflexivity.
Qed.

Lemma adjust_then_prune_snd (author delta : Z) (clock : Readings.t) (db : ledger) :
  (adjust_then_prune author delta clock db).2 =
  match (adjust_rep author delta (Readings.adjust clock) db).1 with
  | Return _ => prune_rep (Readings.prune clock) (adjust_rep author delta (Readings.adjust clock) db).2
  | Raise _ => db
  end.
Proof.
  unfold adjust_then_prune.
  destruct (adjust_rep_cases author delta (Readings.adjust clock) db) as [H | H].
  - rewrite H. reflexivity.
  - rewrite H. reflexivity.
Qed.

(** ** The reaction listeners *)

Lemma drop_stale_row (m now : Z) (db : ledger) :
  stale_row_dropped m db (prune_rep now (delete_rep_message m db)).
Proof.
  destruct (prune_rep_tables now (delete_rep_message m db)) as (Hu & _ & Hv & Hm).
  destruct (delete_rep_message_tables m db) as (Hu' & _ & Hv' & Hm').
  assert (Husers : rep_users (prune_rep now (delete_rep_message m db)) = rep_users db)
    by congruence.
  split; [exact Husers |]. split; [| split].
  - intros u. unfold get_rep. rewrite Husers. reflexivity.
  - unfold get_rep_message. rewrite Hm, lookup_delete_messages_of.
    destruct (decide _); [reflexivity |].
    rewrite Hm', lookup_delete_messages_of.
    destruct (decide (m ∈ [m])) as [_ | Hout]; [reflexivity |].
    exfalso. apply Hout, list_elem_of_singleton. reflexivity.
  - intros v. unfold get_vote. rewrite Hv, lookup_delete_votes_of.
    destruct (decide _); [reflexivity |].
    rewrite Hv', lookup_delete_votes_of.
    destruct (decide (m ∈ [m])) as [_ | Hout]; [reflexivity |].
    exfalso. apply Hout, list_elem_of_singleton. reflexivity.
Qed.


(** The events a listener drops before it looks the message up. *)
Lemma other_emoji_dropped
    (bot_user : option Z) (payload : Payload.t) (clock : Readings.t) (db : ledger) :
  ~ is_vote_emoji (Payload.emoji payload) ->
  on_raw_reaction_add bot_user payload clock db = (Return tt, db) /\
  on_raw_reaction_remove payload clock db = (Return tt, db).
Proof.
  intros Hno. unfold on_raw_reaction_add, on_raw_reaction_remove.
  destruct (decide (_ \/ _)) as [Hyes | _]; [contradiction |].
  destruct (decide (bot_user = _)); split; reflexivity.
Qed.


(** A reaction of the author on a message inside the window. *)
Lemma self_vote_unchanged
    (bot_user : option Z) (payload : Payload.t) (clock : Readings.t) (db : ledger)
    (msg : RepMessage.t) :
  get_rep_message db (Payload.message_id payload) = Some msg ->
  Payload.user_id payload = RepMessage.author_id msg ->
  within_rep_window (RepMessage.created_at msg) (Readings.window clock) = true ->
  on_raw_reaction_add bot_user payload clock db = (Return tt, db).
Proof.
  intros Hmsg Hself Hwin. unfold on_raw_reaction_add.
  destruct (decide (bot_user = _)); [reflexivity |].
  destruct (decide (_ \/ _)); [| reflexivity].
  rewrite Hmsg, Hwin. cbn [negb].
  destruct (decide (Payload.user_id payload = _)) as [_ | Hne]; [reflexivity | contradiction].
Qed.


(** C5. A reaction added by the author of a tracked message, whatever the
    emoji, is handled without an error, leaves every score as it was and
    adds no vote row; while the message is inside the window the ledger is
    not touched at all. *)
Theorem self_vote_ignored
    (bot_user : option Z) (payload : Payload.t) (clock : Readings.t) (db : ledger)
    (msg : RepMessage.t) :
  get_rep_message db (Payload.message_id payload) = Some msg ->
  Payload.user_id payload = RepMessage.author_id msg ->
  (on_raw_reaction_add bot_user payload clock db).1 = Return tt /\
  rep_users (on_raw_reaction_add bot_user payload clock db).2 = rep_users db /\
  get_rep (on_raw_reaction_add bot_user payload clock db).2 (RepMessage.author_id msg)
    = get_rep db (RepMessage.author_id msg) /\
  rep_votes (on_raw_reaction_add bot_user payload clock db).2 ⊆ rep_votes db /\
  (within_rep_window (RepMessage.created_at msg) (Readings.window clock) = true ->
   on_raw_reaction_add bot_user payload clock db = (Return tt, db)).
Proof.
  intros Hmsg Hself.
  assert (Hcore :
    (on_raw_reaction_add bot_user payload clock db).1 = Return tt /\
    rep_users (on_raw_reaction_add bot_user payload clock db).2 = rep_users db /\
    rep_votes (on_raw_reaction_add bot_user payload clock db).2 ⊆ rep_votes db /\
    (within_rep_window (RepMessage.created_at msg) (Readings.window clock) = true ->
     on_raw_reaction_add bot_user payload clock db = (Return tt, db))).
  { unfold on_raw_reaction_add.
    destruct (decide (bot_user = _)) as [_ | _]; [cbn [fst snd]; auto |].
    destruct (decide (_ \/ _)) as [_ | _]; [| cbn [fst snd]; auto].
    rewrite Hmsg.
    destruct (within_rep_window (RepMessage.created_at msg) (Readings.window clock)) eqn:Hwin;
      cbn [negb].
    - destruct (decide (Payload.user_id payload = _)) as [_ | Hne];
        [cbn [fst snd]; auto | contradiction].
    - cbn [fst snd]. split; [reflexivity |]. split; [| split; [| discriminate]].
      + apply (drop_stale_row (Payload.message_id payload) (Readings.prune clock) db).
      + transitivity (rep_votes (delete_rep_message (Payload.message_id payload) db));
          [apply prune_rep_votes_subseteq |].
        destruct (delete_rep_message_tables (Payload.message_id payload) db)
          as (_ & _ & -> & _).
        apply map_filter_subseteq. }
  destruct Hcore as (Hret & Hu & Hv & Hsame).
  split; [exact Hret |]. split; [exact Hu |]. split; [| split; assumption].
  unfold get_rep. rewrite Hu. reflexivity.
Qed.

(** The two listeners past their guards. *)

Lemma on_raw_reaction_add_applies
    (bot_user : option Z) (payload : Payload.t) (clock : Readings.t) (db : ledger)
    (msg : RepMessage.t) :
  bot_user <> Some (Payload.user_id payload) ->
  is_vote_emoji (Payload.emoji payload) ->
  get_rep_message db (Payload.message_id payload) = Some msg ->
  within_rep_window (RepMessage.created_at msg) (Readings.window clock) = true ->
  Payload.user_id payload <> RepMessage.author_id msg ->
  on_raw_reaction_add bot_user payload clock db =
    let new_vote := vote_of (Payload.emoji payload) in
    let old_vote := get_vote db (Payload.message_id payload) (Payload.user_id payload) in
    if decide (old_vote = Some new_vote) then (Return tt, db)
    else adjust_then_prune (RepMessage.author_id msg) (new_vote - or_0 old_vote) clock
           (set_vote (Payload.message_id payload) (Payload.user_id payload) new_vote db).
Proof.
  intros Hbot Hemoji Hmsg Hwin Hother. unfold on_raw_reaction_add.
  destruct (decide (bot_user = _)) as [Heq | _]; [contradiction |].
  destruct (decide (_ \/ _)) as [_ | Hno]; [| contradiction].
  rewrite Hmsg, Hwin. cbn [negb].
  destruct (decide (Payload.user_id payload = _)) as [Heq | _]; [contradiction |].
  reflexivity.
Qed.

Lemma on_raw_reaction_remove_applies
    (payload : Payload.t) (clock : Readings.t) (db : ledger) (msg : RepMessage.t) :
  is_vote_emoji (Payload.emoji payload) ->
  get_rep_message db (Payload.message_id payload) = Some msg ->
  within_rep_window (RepMessage.created_at msg) (Readings.window clock) = true ->
  on_raw_reaction_remove payload clock db =
    let removed_vote := vote_of (Payload.emoji payload) in
    let old_vote := get_vote db (Payload.message_id payload) (Payload.user_id payload) in
    if decide (old_vote = Some removed_vote) then
      adjust_then_prune (RepMessage.author_id msg) (- removed_vote) clock
        (delete_vote (Payload.message_id payload) (Payload.user_id payload) db)
    else (Return tt, db).
Proof.
  intros Hemoji Hmsg Hwin. unfold on_raw_reaction_remove.
  destruct (decide (_ \/ _)) as [_ | Hno]; [| contradiction].
  rewrite Hmsg, Hwin. cbn [negb]. reflexivity.
Qed.

(** The score adjustment and the prune, after a write [w] to the votes
    table only. *)
Section VoteWrite.

Variables (w : ledger -> ledger) (db : ledger).
Hypothesis w_users : rep_users (w db) = rep_users db.
Hypothesis w_messages : rep_messages (w db) = rep_messages db.

Variables (author delta : Z) (clock : Readings.t).

Lemma outcome_after_vote_write :
  (adjust_then_prune author delta clock (w db)).1 =
  match rep_users db !! author with
  | Some _ => if fits_int64 (get_rep db author + delta) then Return tt else Raise OverflowError
  | None => Return tt
  end.
Proof.
  rewrite adjust_then_prune_fst, adjust_rep_outcome. unfold get_rep. rewrite w_users.
  reflexivity.
Qed.

Lemma raise_after_vote_write (e : exn) :
  (adjust_then_prune author delta clock (w db)).1 = Raise e ->
  adjust_then_prune author delta clock (w db) = (Raise OverflowError, w db).
Proof.
  unfold adjust_then_prune.
  destruct (adjust_rep_cases author delta (Readings.adjust clock) (w db)) as [H | H];
    rewrite H; [discriminate | reflexivity].
Qed.

Lemma get_rep_after_vote_write (u : Z) :
  get_rep (adjust_then_prune author delta clock (w db)).2 u =
  if decide (u = author) then
    match rep_users db !! author with
    | Some _ => if fits_int64 (get_rep db author + delta)
                then get_rep db author + delta else get_rep db author
    | None => 0
    end
  else get_rep db u.
Proof.
  assert (Hadj : get_rep (adjust_rep author delta (Readings.adjust clock) (w db)).2 u =
                 if decide (u = author) then
                   match rep_users db !! author with
                   | Some _ => if fits_int64 (get_rep db author + delta)
                               then get_rep db author + delta else get_rep db author
                   | None => 0
                   end
                 else get_rep db u).
  { rewrite get_rep_adjust_rep. unfold get_rep. rewrite w_users. reflexivity. }
  rewrite adjust_then_prune_snd.
  destruct (adjust_rep_cases author delta (Readings.adjust clock) (w db)) as [H | H].
  - rewrite H. cbn [fst snd]. rewrite get_rep_prune_rep. rewrite H in Hadj. exact Hadj.
  - rewrite H. cbn [fst]. rewrite H in Hadj. exact Hadj.
Qed.

Lemma account_after_vote_write (u : Z) :
  is_Some (rep_users (adjust_then_prune author delta clock (w db)).2 !! u)
  <-> is_Some (rep_users db !! u).
Proof.
  rewrite adjust_then_prune_snd.
  destruct ((adjust_rep author delta (Readings.adjust clock) (w db)).1).
  - destruct (prune_rep_tables (Readings.prune clock)
                (adjust_rep author delta (Readings.adjust clock) (w db)).2) as [-> _].
    rewrite account_after_adjust_rep, w_users. reflexivity.
  - rewrite w_users. reflexivity.
Qed.

(** What is stored on message [m] after the write: the row and the votes
    the write left, unless the prune collected the message. *)
Lemma stored_after_vote_write (m : Z) (msg : RepMessage.t) :
  get_rep_message db m = Some msg ->
  let r := adjust_then_prune author delta clock (w db) in
  (r.1 = Return tt /\ is_expired (Readings.prune clock) (RepMessage.created_at msg) = true /\
   get_rep_message r.2 m = None /\ forall v, get_vote r.2 m v = None) \/
  ((r.1 = Return tt -> is_expired (Readings.prune clock) (RepMessage.created_at msg) = false) /\
   get_rep_message r.2 m = Some msg /\ forall v, get_vote r.2 m v = get_vote (w db) m v).
Proof.
  intros Hmsg r. subst r.
  assert (Hmsg1 : get_rep_message (adjust_rep author delta (Readings.adjust clock) (w db)).2 m
                  = Some msg).
  { unfold get_rep_message in *.
    destruct (adjust_rep_tables author delta (Readings.adjust clock) (w db)) as (-> & _ & _).
    rewrite w_messages. exact Hmsg. }
  assert (Hvote1 : forall v,
            get_vote (adjust_rep author delta (Readings.adjust clock) (w db)).2 m v
            = get_vote (w db) m v).
  { intros v. unfold get_vote.
    destruct (adjust_rep_tables author delta (Readings.adjust clock) (w db)) as (_ & -> & _).
    reflexivity. }
  rewrite adjust_then_prune_fst, adjust_then_prune_snd.
  destruct (adjust_rep_cases author delta (Readings.adjust clock) (w db)) as [H | H].
  - rewrite H. cbn [fst snd]. rewrite H in Hmsg1, Hvote1. cbn [snd] in Hmsg1, Hvote1.
    destruct (is_expired (Readings.prune clock) (RepMessage.created_at msg)) eqn:Hexp.
    + left. split; [reflexivity |]. split; [reflexivity |]. split.
      * rewrite get_rep_message_prune_rep, Hmsg1, Hexp. reflexivity.
      * intros v. rewrite get_vote_prune_rep, Hmsg1, Hexp. reflexivity.
    + right. split; [reflexivity |]. split.
      * rewrite get_rep_message_prune_rep, Hmsg1, Hexp. reflexivity.
      * intros v. rewrite get_vote_prune_rep, Hmsg1, Hexp. apply Hvote1.
  - rewrite H. cbn [fst]. right. split; [discriminate |]. split.
    + unfold get_rep_message in *. rewrite w_messages. exact Hmsg.
    + reflexivity.
Qed.

End VoteWrite.

Lemma get_vote_set_vote (m v x : Z) (db : ledger) : get_vote (set_vote m v x db) m v = Some x.
Proof. unfold get_vote, set_vote, connect, commit, close, execute. simpl. apply lookup_insert_eq. Qed.

Lemma get_vote_delete_vote (m v : Z) (db : ledger) : get_vote (delete_vote m v db) m v = None.
Proof. unfold get_vote, delete_vote, connect, commit, close, execute. simpl. apply lookup_delete_eq. Qed.

Lemma set_vote_tables (m v x : Z) (db : ledger) :
  rep_users (set_vote m v x db) = rep_users db /\
  rep_messages (set_vote m v x db) = rep_messages db.
Proof. unfold set_vote, connect, commit, close, execute. simpl. auto. Qed.

Lemma delete_vote_tables (m v : Z) (db : ledger) :
  rep_users (delete_vote m v db) = rep_users db /\
  rep_messages (delete_vote m v db) = rep_messages db.
Proof. unfold delete_vote, connect, commit, close, execute. simpl. auto. Qed.

(** The ledger after a reaction was added, past the guards. *)
Lemma on_raw_reaction_add_outcome
    (bot_user : option Z) (m u : Z) (emoji : string) (clock : Readings.t) (db : ledger)
    (msg : RepMessage.t) :
  bot_user <> Some u ->
  is_vote_emoji emoji ->
  get_rep_message db m = Some msg ->
  within_rep_window (RepMessage.created_at msg) (Readings.window clock) = true ->
  u <> RepMessage.author_id msg ->
  let db' := (on_raw_reaction_add bot_user (Payload.mk m u emoji) clock db).2 in
  let delta := if decide (get_vote db m u = Some (vote_of emoji)) then 0
               else vote_of emoji - or_0 (get_vote db m u) in
  (get_rep_message db' m = None \/
   (get_rep_message db' m = Some msg /\ get_vote db' m u = Some (vote_of emoji))) /\
  (within_rep_window (RepMessage.created_at msg) (Readings.prune clock) = true ->
   get_rep_message db' m = Some msg /\ get_vote db' m u = Some (vote_of emoji)) /\
  (is_Some (rep_users db' !! RepMessage.author_id msg)
     <-> is_Some (rep_users db !! RepMessage.author_id msg)) /\
  (forall u', get_rep db' u' =
     if decide (u' = RepMessage.author_id msg) then
       match rep_users db !! RepMessage.author_id msg with
       | Some _ =>
           if fits_int64 (get_rep db (RepMessage.author_id msg) + delta)
           then get_rep db (RepMessage.author_id msg) + delta
           else get_rep db (RepMessage.author_id msg)
       | None => 0
       end
     else get_rep db u').
Proof.
  intros Hbot Hemoji Hmsg Hwin Hother db' delta. subst db' delta.
  rewrite (on_raw_reaction_add_applies bot_user (Payload.mk m u emoji) clock db msg
             Hbot Hemoji Hmsg Hwin Hother).
  cbn [Payload.message_id Payload.user_id Payload.emoji].
  destruct (decide (get_vote db m u = Some (vote_of emoji))) as [Hsame | Hdiff]; cbn [snd].
  - split; [right; split; assumption |]. split; [intros _; split; assumption |].
    split; [reflexivity |].
    intros u'. destruct (decide (u' = _)) as [-> | _]; [| reflexivity].
    unfold get_rep. destruct (rep_users db !! _); [| reflexivity].
    rewrite Z.add_0_r. destruct (fits_int64 _); reflexivity.
  - destruct (set_vote_tables m u (vote_of emoji) db) as [Hu Hm].
    pose proof (stored_after_vote_write (set_vote m u (vote_of emoji)) db Hm
                  (RepMessage.author_id msg) (vote_of emoji - or_0 (get_vote db m u))
                  clock m msg Hmsg) as Hstored.
    cbv zeta in Hstored.
    split; [| split; [| split]].
    + destruct Hstored as [(_ & _ & Hgone & _) | (_ & Hthere & Hvotes)].
      * left. exact Hgone.
      * right. split; [exact Hthere |]. rewrite Hvotes. apply get_vote_set_vote.
    + intros Hlive. apply within_window_not_expired in Hlive.
      destruct Hstored as [(_ & Hexp & _) | (_ & Hthere & Hvotes)]; [congruence |].
      split; [exact Hthere |]. rewrite Hvotes. apply get_vote_set_vote.
    + apply account_after_vote_write. exact Hu.
    + intros u'. apply get_rep_after_vote_write. exact Hu.
Qed.

(** C2, as the code has it.  On a tracked message inside the window at
    the reading of the window check, for a thumbs reaction added by a user
    who is neither the author nor the bot.  When the stored vote already
    has the new value the ledger is not touched.  Otherwise the vote row
    is written with the new value; the author's score moves by
    [new - (old or 0)] if the author has a [rep_users] row and the new
    score fits the 64 bits of an INTEGER (without a row it stays where it
    was; when the new score does not fit, [adjust_rep] raises, with the
    vote row written and the score as it was); and no other score moves.  The vote row is stored after the
    handler when the message is still inside the window at the reading of
    [prune_rep]; when it is not, that prune deletes the message row and
    every vote on it, and the score keeps its adjustment.  Adding the same
    reaction a second time changes nothing, and a thumbs-down after a
    thumbs-up moves the score by -2. *)
Theorem vote_cast_effect
    (bot_user : option Z) (m u : Z) (emoji : string) (clock : Readings.t) (db : ledger)
    (msg : RepMessage.t) :
  bot_user <> Some u ->
  is_vote_emoji emoji ->
  get_rep_message db m = Some msg ->
  within_rep_window (RepMessage.created_at msg) (Readings.window clock) = true ->
  u <> RepMessage.author_id msg ->
  let author := RepMessage.author_id msg in
  let new_vote := vote_of emoji in
  let old_vote := get_vote db m u in
  let r := on_raw_reaction_add bot_user (Payload.mk m u emoji) clock db in
  (old_vote = Some new_vote -> r = (Return tt, db)) /\
  (old_vote <> Some new_vote ->
     (is_Some (rep_users db !! author) ->
      fits_int64 (get_rep db author + (new_vote - or_0 old_vote)) = true ->
      r.1 = Return tt /\
      get_rep r.2 author = get_rep db author + (new_vote - or_0 old_vote)) /\
     (is_Some (rep_users db !! author) ->
      fits_int64 (get_rep db author + (new_vote - or_0 old_vote)) = false ->
      r = (Raise OverflowError, set_vote m u new_vote db)) /\
     (rep_users db !! author = None ->
      r.1 = Return tt /\ get_rep r.2 author = get_rep db author) /\
     (forall u', u' <> author -> get_rep r.2 u' = get_rep db u') /\
     (within_rep_window (RepMessage.created_at msg) (Readings.prune clock) = true ->
      get_vote r.2 m u = Some new_vote) /\
     (r.1 = Return tt ->
      within_rep_window (RepMessage.created_at msg) (Readings.prune clock) = false ->
      get_rep_message r.2 m = None /\ forall v, get_vote r.2 m v = None)) /\
  (forall clock',
     within_rep_window (RepMessage.created_at msg) (Readings.window clock') = true ->
     on_raw_reaction_add bot_user (Payload.mk m u emoji) clock' r.2 = (Return tt, r.2)) /\
  (forall clock',
     within_rep_window (RepMessage.created_at msg) (Readings.prune clock) = true ->
     within_rep_window (RepMessage.created_at msg) (Readings.window clock') = true ->
     emoji = THUMBS_UP ->
     is_Some (rep_users db !! author) ->
     fits_int64 (get_rep r.2 author - 2) = true ->
     get_rep (on_raw_reaction_add bot_user (Payload.mk m u THUMBS_DOWN) clock' r.2).2 author
       = get_rep r.2 author - 2).
Proof.
  intros Hbot Hemoji Hmsg Hwin Hother author new_vote old_vote r.
  pose proof (on_raw_reaction_add_outcome bot_user m u emoji clock db msg
                Hbot Hemoji Hmsg Hwin Hother) as (Hrow & Hlive & Hacct & Hrep).
  fold r in Hrow, Hlive, Hacct, Hrep. fold author in Hacct, Hrep.
  pose proof (on_raw_reaction_add_applies bot_user (Payload.mk m u emoji) clock db msg
                Hbot Hemoji Hmsg Hwin Hother) as Happ.
  cbn [Payload.message_id Payload.user_id Payload.emoji] in Happ. cbv zeta in Happ.
  fold r author new_vote old_vote in Happ.
  split; [| split; [| split]].
  - intros Hsame. rewrite Happ, decide_True by exact Hsame. reflexivity.
  - intros Hdiff. rewrite decide_False in Happ by exact Hdiff.
    destruct (set_vote_tables m u new_vote db) as [Hu Hm].
    pose proof (outcome_after_vote_write (set_vote m u new_vote) db Hu
                  author (new_vote - or_0 old_vote) clock) as Hout.
    rewrite <- Happ in Hout.
    pose proof (stored_after_vote_write (set_vote m u new_vote) db Hm
                  author (new_vote - or_0 old_vote) clock m msg Hmsg) as Hstored.
    cbv zeta in Hstored. rewrite <- Happ in Hstored.
    split; [| split; [| split; [| split; [| split]]]].
    + intros [x Hx] Hfits. rewrite Hx, Hfits in Hout. split; [exact Hout |].
      rewrite Happ, (get_rep_after_vote_write _ db Hu), decide_True by reflexivity.
      rewrite Hx, Hfits. reflexivity.
    + intros [x Hx] Hfits. rewrite Hx, Hfits in Hout.
      rewrite Happ. apply (raise_after_vote_write _ _ _ _ _ OverflowError).
      rewrite <- Happ. exact Hout.
    + intros Hnone. rewrite Hnone in Hout. split; [exact Hout |].
      rewrite Happ, (get_rep_after_vote_write _ db Hu), decide_True by reflexivity.
      rewrite Hnone. unfold get_rep. rewrite Hnone. reflexivity.
    + intros u' Hne. rewrite Happ, (get_rep_after_vote_write _ db Hu), decide_False by exact Hne.
      reflexivity.
    + intros Hkept. apply Hlive. exact Hkept.
    + intros Hret Hout'.
      pose proof (outside_window_expired _ _ _ Hwin Hout') as Hexp.
      destruct Hstored as [(_ & _ & Hgone & Hvotes) | (Hnot & _)].
      * split; assumption.
      * rewrite (Hnot Hret) in Hexp. discriminate.
  - intros clock' Hwin'.
    destruct Hrow as [Hgone | [Hthere Hvote]].
    + unfold on_raw_reaction_add. cbn [Payload.message_id Payload.user_id Payload.emoji].
      destruct (decide (bot_user = Some u)); [reflexivity |].
      destruct (decide (emoji = THUMBS_UP \/ emoji = THUMBS_DOWN)); [| reflexivity].
      rewrite Hgone. reflexivity.
    + rewrite (on_raw_reaction_add_applies bot_user (Payload.mk m u emoji) clock' r.2 msg
                 Hbot Hemoji Hthere Hwin' Hother).
      cbn [Payload.message_id Payload.user_id Payload.emoji]. cbv zeta.
      rewrite decide_True by exact Hvote. reflexivity.
  - intros clock' Hkept Hwin' -> Hacct0 Hfits.
    destruct (Hlive Hkept) as [Hthere Hvote].
    pose proof (on_raw_reaction_add_outcome bot_user m u THUMBS_DOWN clock' r.2 msg
                  Hbot (or_intror eq_refl) Hthere Hwin' Hother) as (_ & _ & _ & Hrep').
    rewrite Hrep'. fold author. rewrite decide_True by reflexivity.
    apply Hacct in Hacct0 as [x Hx]. rewrite Hx, Hvote.
    rewrite decide_False by discriminate.
    change (vote_of THUMBS_DOWN - or_0 (Some (vote_of THUMBS_UP))) with (-2).
    change (get_rep r.2 author + -2) with (get_rep r.2 author - 2).
    rewrite Hfits. reflexivity.
Qed.

Lemma vote_cast_effect_witness :
  Some 99 <> Some 2 /\
  is_vote_emoji THUMBS_UP /\
  get_rep_message tracked_author 50 = Some alice_message /\
  within_rep_window (RepMessage.created_at alice_message)
    (Readings.window (at_reading 10000000)) = true /\
  2 <> RepMessage.author_id alice_message /\
  (on_raw_reaction_add (Some 99) (Payload.mk 50 2 THUMBS_UP) (at_reading 10000000)
     tracked_author).1 = Return tt /\
  get_vote (on_raw_reaction_add (Some 99) (Payload.mk 50 2 THUMBS_UP) (at_reading 10000000)
              tracked_author).2 50 2 = Some 1 /\
  get_rep (on_raw_reaction_add (Some 99) (Payload.mk 50 2 THUMBS_UP) (at_reading 10000000)
             tracked_author).2 1
    = get_rep tracked_author 1 + (1 - 0).
Proof.
  assert (Hbot : Some 99 <> Some 2) by discriminate.
  assert (Hemoji : is_vote_emoji THUMBS_UP) by (left; reflexivity).
  assert (Hmsg : get_rep_message tracked_author 50 = Some alice_message) by reflexivity.
  assert (Hwin : within_rep_window (RepMessage.created_at alice_message)
                   (Readings.window (at_reading 10000000)) = true) by reflexivity.
  assert (Hother : 2 <> RepMessage.author_id alice_message) by discriminate.
  repeat (split; [assumption |]).
  destruct (vote_cast_effect (Some 99) 50 2 THUMBS_UP (at_reading 10000000) tracked_author
              alice_message Hbot Hemoji Hmsg Hwin Hother) as (_ & Hnew & _ & _).
  destruct Hnew as (Hrep & _ & _ & _ & Hvote & _); [discriminate |].
  destruct Hrep as [Hret Hrep]; [eexists; reflexivity | reflexivity |].
  split; [exact Hret |]. split; [apply Hvote; reflexivity | exact Hrep].
Defined.

(** C2 as stated fails in four ways.  A thumbs-up the bot itself adds
    (the bot is a voter other than the author) is dropped by the first
    guard of the listener: no vote row is written.  When the author has no
    [rep_users] row the vote row is written but the score stays where it
    was.  A vote handled at the end of the TTL passes the window check and
    moves the score, and the prune that closes the handler, reading the
    clock a millisecond later, deletes the message with the vote row just
    written.  And on a score at the largest INTEGER the vote row is
    written, [adjust_rep] raises, and the score is as it was. *)
Lemma vote_cast_not_applied :
  (get_rep_message tracked_author 50 = Some alice_message /\
   within_rep_window (RepMessage.created_at alice_message) 10000000 = true /\
   99 <> RepMessage.author_id alice_message /\
   get_vote tracked_author 50 99 <> Some (vote_of THUMBS_UP) /\
   get_vote (on_raw_reaction_add (Some 99) (Payload.mk 50 99 THUMBS_UP) (at_reading 10000000)
               tracked_author).2 50 99 <> Some (vote_of THUMBS_UP) /\
   get_rep (on_raw_reaction_add (Some 99) (Payload.mk 50 99 THUMBS_UP) (at_reading 10000000)
              tracked_author).2 1
     <> get_rep tracked_author 1 + (vote_of THUMBS_UP - or_0 (get_vote tracked_author 50 99))) /\
  (get_rep_message untracked_author 50 = Some alice_message /\
   within_rep_window (RepMessage.created_at alice_message) 10000000 = true /\
   2 <> RepMessage.author_id alice_message /\
   get_vote untracked_author 50 2 <> Some (vote_of THUMBS_UP) /\
   get_vote (on_raw_reaction_add (Some 99) (Payload.mk 50 2 THUMBS_UP) (at_reading 10000000)
               untracked_author).2 50 2 = Some (vote_of THUMBS_UP) /\
   get_rep untracked_author 1 = 0 /\
   get_rep (on_raw_reaction_add (Some 99) (Payload.mk 50 2 THUMBS_UP) (at_reading 10000000)
              untracked_author).2 1 = 0 /\
   get_rep (on_raw_reaction_add (Some 99) (Payload.mk 50 2 THUMBS_UP) (at_reading 10000000)
              untracked_author).2 1
     <> get_rep untracked_author 1 + (vote_of THUMBS_UP - or_0 (get_vote untracked_author 50 2))) /\
  (get_rep_message tracked_author 50 = Some alice_message /\
   within_rep_window (RepMessage.created_at alice_message) (Readings.window at_ttl_end) = true /\
   Readings.window at_ttl_end <= Readings.adjust at_ttl_end <= Readings.prune at_ttl_end /\
   2 <> RepMessage.author_id alice_message /\
   get_vote tracked_author 50 2 <> Some (vote_of THUMBS_UP) /\
   (on_raw_reaction_add (Some 99) (Payload.mk 50 2 THUMBS_UP) at_ttl_end tracked_author).1
     = Return tt /\
   get_rep tracked_author 1 = 0 /\
   get_rep (on_raw_reaction_add (Some 99) (Payload.mk 50 2 THUMBS_UP) at_ttl_end
              tracked_author).2 1 = 1 /\
   get_vote (on_raw_reaction_add (Some 99) (Payload.mk 50 2 THUMBS_UP) at_ttl_end
               tracked_author).2 50 2 = None /\
   get_vote (on_raw_reaction_add (Some 99) (Payload.mk 50 2 THUMBS_UP) at_ttl_end
               tracked_author).2 50 2 <> Some (vote_of THUMBS_UP)) /\
  (get_rep_message at_the_bound 50 = Some alice_message /\
   within_rep_window (RepMessage.created_at alice_message) 10000000 = true /\
   2 <> RepMessage.author_id alice_message /\
   get_vote at_the_bound 50 2 <> Some (vote_of THUMBS_UP) /\
   get_rep at_the_bound 1 = INT64_MAX /\
   on_raw_reaction_add (Some 99) (Payload.mk 50 2 THUMBS_UP) (at_reading 10000000) at_the_bound
     = (Raise OverflowError, set_vote 50 2 1 at_the_bound) /\
   get_rep (set_vote 50 2 1 at_the_bound) 1 = INT64_MAX /\
   get_rep (set_vote 50 2 1 at_the_bound) 1
     <> get_rep at_the_bound 1 + (vote_of THUMBS_UP - or_0 (get_vote at_the_bound 50 2))).
Proof.
  split; [| split; [| split]].
  - repeat split; try reflexivity; discriminate.
  - repeat split; try reflexivity; discriminate.
  - repeat split; try reflexivity; discriminate.
  - repeat split; try reflexivity; discriminate.
Qed.

(** The ledger after a reaction was removed, past the guards. *)
Lemma on_raw_reaction_remove_outcome
    (m u : Z) (emoji : string) (clock : Readings.t) (db : ledger) (msg : RepMessage.t) :
  is_vote_emoji emoji ->
  get_rep_message db m = Some msg ->
  within_rep_window (RepMessage.created_at msg) (Readings.window clock) = true ->
  get_vote db m u = Some (vote_of emoji) ->
  let r := on_raw_reaction_remove (Payload.mk m u emoji) clock db in
  r = adjust_then_prune (RepMessage.author_id msg) (- vote_of emoji) clock (delete_vote m u db) /\
  get_vote r.2 m u = None /\
  (forall u', get_rep r.2 u' =
     if decide (u' = RepMessage.author_id msg) then
       match rep_users db !! RepMessage.author_id msg with
       | Some _ =>
           if fits_int64 (get_rep db (RepMessage.author_id msg) + - vote_of emoji)
           then get_rep db (RepMessage.author_id msg) + - vote_of emoji
           else get_rep db (RepMessage.author_id msg)
       | None => 0
       end
     else get_rep db u').
Proof.
  intros Hemoji Hmsg Hwin Hold r. subst r.
  rewrite (on_raw_reaction_remove_applies (Payload.mk m u emoji) clock db msg Hemoji Hmsg Hwin).
  cbn [Payload.message_id Payload.user_id Payload.emoji]. cbv zeta.
  rewrite decide_True by exact Hold.
  destruct (delete_vote_tables m u db) as [Hu Hm].
  split; [reflexivity |]. split.
  - pose proof (stored_after_vote_write (delete_vote m u) db Hm
                  (RepMessage.author_id msg) (- vote_of emoji) clock m msg Hmsg) as Hstored.
    cbv zeta in Hstored.
    destruct Hstored as [(_ & _ & _ & Hvotes) | (_ & _ & Hvotes)].
    + apply Hvotes.
    + rewrite Hvotes. apply get_vote_delete_vote.
  - intros u'. apply get_rep_after_vote_write. exact Hu.
Qed.

(** C3, as the code has it.  For a thumbs reaction removed on a tracked
    message inside the window at the reading of the window check, with [v]
    the value of the removed emoji.  When the stored vote is not [v] the
    ledger is not touched.  When it is [v] the vote row is deleted; the
    author's score moves by [-v] if the author has a [rep_users] row and
    the new score fits the 64 bits of an INTEGER (without a row it stays
    where it was; when the new score does not fit, [adjust_rep] raises,
    with the vote row deleted and the score as it was); and no other score
    moves.  A first vote followed by its
    withdrawal leaves the author's score where it was, when the message is
    still inside the window as the prune of the first handler runs. *)
Theorem vote_withdraw_effect
    (m u : Z) (emoji : string) (clock : Readings.t) (db : ledger) (msg : RepMessage.t) :
  is_vote_emoji emoji ->
  get_rep_message db m = Some msg ->
  within_rep_window (RepMessage.created_at msg) (Readings.window clock) = true ->
  let author := RepMessage.author_id msg in
  let v := vote_of emoji in
  let r := on_raw_reaction_remove (Payload.mk m u emoji) clock db in
  (get_vote db m u <> Some v -> r = (Return tt, db)) /\
  (get_vote db m u = Some v ->
     get_vote r.2 m u = None /\
     (is_Some (rep_users db !! author) ->
      fits_int64 (get_rep db author - v) = true ->
      r.1 = Return tt /\ get_rep r.2 author = get_rep db author - v) /\
     (is_Some (rep_users db !! author) ->
      fits_int64 (get_rep db author - v) = false ->
      r = (Raise OverflowError, delete_vote m u db)) /\
     (rep_users db !! author = None ->
      r.1 = Return tt /\ get_rep r.2 author = get_rep db author) /\
     (forall u', u' <> author -> get_rep r.2 u' = get_rep db u')) /\
  (forall (bot_user : option Z) (clock0 : Readings.t),
     bot_user <> Some u ->
     u <> author ->
     within_rep_window (RepMessage.created_at msg) (Readings.window clock0) = true ->
     within_rep_window (RepMessage.created_at msg) (Readings.prune clock0) = true ->
     get_vote db m u = None ->
     fits_int64 (get_rep db author) = true ->
     fits_int64 (get_rep db author + v) = true ->
     get_rep (on_raw_reaction_remove (Payload.mk m u emoji) clock
                (on_raw_reaction_add bot_user (Payload.mk m u emoji) clock0 db).2).2 author
       = get_rep db author).
Proof.
  intros Hemoji Hmsg Hwin author v r.
  split; [| split].
  - intros Hdiff. subst r.
    rewrite (on_raw_reaction_remove_applies (Payload.mk m u emoji) clock db msg Hemoji Hmsg Hwin).
    cbn [Payload.message_id Payload.user_id Payload.emoji]. cbv zeta.
    rewrite decide_False by exact Hdiff. reflexivity.
  - intros Hsame.
    pose proof (on_raw_reaction_remove_outcome m u emoji clock db msg Hemoji Hmsg Hwin Hsame)
      as (Happ & Hvote' & Hrep').
    fold r author v in Happ, Hvote', Hrep'.
    destruct (delete_vote_tables m u db) as [Hu Hm].
    pose proof (outcome_after_vote_write (delete_vote m u) db Hu author (- v) clock) as Hout.
    rewrite <- Happ in Hout.
    change (get_rep db author + - v) with (get_rep db author - v) in Hout, Hrep'.
    split; [exact Hvote' |]. split; [| split; [| split]].
    + intros [x Hx] Hfits. rewrite Hx, Hfits in Hout. split; [exact Hout |].
      rewrite Hrep', decide_True by reflexivity. rewrite Hx, Hfits. reflexivity.
    + intros [x Hx] Hfits. rewrite Hx, Hfits in Hout.
      rewrite Happ. apply (raise_after_vote_write _ _ _ _ _ OverflowError).
      rewrite <- Happ. exact Hout.
    + intros Hnone. rewrite Hnone in Hout. split; [exact Hout |].
      rewrite Hrep', decide_True by reflexivity. rewrite Hnone.
      unfold get_rep. rewrite Hnone. reflexivity.
    + intros u' Hne. rewrite Hrep', decide_False by exact Hne. reflexivity.
  - intros bot_user clock0 Hbot Hother Hwin0 Hkept Hnone Hfits0 Hfits1.
    pose proof (on_raw_reaction_add_outcome bot_user m u emoji clock0 db msg
                  Hbot Hemoji Hmsg Hwin0 Hother) as (_ & Hlive & Hacct1 & Hrep1).
    destruct (Hlive Hkept) as [Hmsg1 Hvote1].
    set (db1 := (on_raw_reaction_add bot_user (Payload.mk m u emoji) clock0 db).2) in *.
    pose proof (on_raw_reaction_remove_outcome m u emoji clock db1 msg Hemoji Hmsg1 Hwin Hvote1)
      as (_ & _ & Hrep2).
    specialize (Hrep1 author). specialize (Hrep2 author).
    fold author v in Hrep1, Hrep2, Hacct1.
    rewrite decide_True in Hrep1 by reflexivity.
    rewrite decide_True in Hrep2 by reflexivity.
    rewrite Hnone in Hrep1. rewrite decide_False in Hrep1 by discriminate.
    change (v - or_0 None) with (v - 0) in Hrep1. rewrite Z.sub_0_r in Hrep1.
    rewrite Hrep2.
    destruct (rep_users db !! author) as [x |] eqn:Hx.
    + assert (Hsome : is_Some (rep_users db1 !! author)) by (apply Hacct1; eexists; reflexivity).
      destruct Hsome as [x1 Hx1]. rewrite Hx1.
      rewrite Hfits1 in Hrep1. rewrite Hrep1.
      replace (get_rep db author + v + - v) with (get_rep db author) by lia.
      rewrite Hfits0. reflexivity.
    + assert (Hnone1 : rep_users db1 !! author = None).
      { apply eq_None_not_Some. intros Hs. apply Hacct1 in Hs.
        destruct Hs as [y Hy]. discriminate Hy. }
      rewrite Hnone1. unfold get_rep. rewrite Hx. reflexivity.
Qed.

Lemma vote_withdraw_effect_witness :
  is_vote_emoji THUMBS_UP /\
  get_rep_message voted_up 50 = Some alice_message /\
  within_rep_window (RepMessage.created_at alice_message)
    (Readings.window (at_reading 20000000)) = true /\
  (on_raw_reaction_remove (Payload.mk 50 2 THUMBS_UP) (at_reading 20000000) voted_up).1
    = Return tt /\
  get_vote (on_raw_reaction_remove (Payload.mk 50 2 THUMBS_UP) (at_reading 20000000)
              voted_up).2 50 2 = None /\
  get_rep (on_raw_reaction_remove (Payload.mk 50 2 THUMBS_UP) (at_reading 20000000)
             voted_up).2 1
    = get_rep voted_up 1 - 1.
Proof.
  assert (Hemoji : is_vote_emoji THUMBS_UP) by (left; reflexivity).
  assert (Hmsg : get_rep_message voted_up 50 = Some alice_message) by reflexivity.
  assert (Hwin : within_rep_window (RepMessage.created_at alice_message)
                   (Readings.window (at_reading 20000000)) = true) by reflexivity.
  repeat (split; [assumption |]).
  destruct (vote_withdraw_effect 50 2 THUMBS_UP (at_reading 20000000) voted_up alice_message
              Hemoji Hmsg Hwin) as (_ & Hdel & _).
  destruct Hdel as (Hvote & Hrep & _); [reflexivity |].
  destruct Hrep as [Hret Hrep]; [eexists; reflexivity | reflexivity |].
  split; [exact Hret |]. split; [exact Hvote | exact Hrep].
Defined.

(** C3 as stated fails when the author of the tracked message has no
    [rep_users] row: the matching vote row is deleted and the author's
    score, 0 before, is 0 after, not -1.  It also fails on a score at the
    smallest INTEGER: the vote row is deleted, [adjust_rep] raises, and
    the score is as it was. *)
Lemma vote_withdraw_without_account :
  (get_rep_message voted_up_untracked_author 50 = Some alice_message /\
   within_rep_window (RepMessage.created_at alice_message) 20000000 = true /\
   get_vote voted_up_untracked_author 50 2 = Some (vote_of THUMBS_UP) /\
   get_vote (on_raw_reaction_remove (Payload.mk 50 2 THUMBS_UP) (at_reading 20000000)
               voted_up_untracked_author).2 50 2 = None /\
   get_rep voted_up_untracked_author 1 = 0 /\
   get_rep (on_raw_reaction_remove (Payload.mk 50 2 THUMBS_UP) (at_reading 20000000)
              voted_up_untracked_author).2 1 = 0 /\
   get_rep (on_raw_reaction_remove (Payload.mk 50 2 THUMBS_UP) (at_reading 20000000)
              voted_up_untracked_author).2 1
     <> get_rep voted_up_untracked_author 1 - vote_of THUMBS_UP) /\
  (get_rep_message voted_up_at_the_floor 50 = Some alice_message /\
   within_rep_window (RepMessage.created_at alice_message) 20000000 = true /\
   get_vote voted_up_at_the_floor 50 2 = Some (vote_of THUMBS_UP) /\
   get_rep voted_up_at_the_floor 1 = INT64_MIN /\
   on_raw_reaction_remove (Payload.mk 50 2 THUMBS_UP) (at_reading 20000000)
     voted_up_at_the_floor
     = (Raise OverflowError, delete_vote 50 2 voted_up_at_the_floor) /\
   get_rep (delete_vote 50 2 voted_up_at_the_floor) 1 = INT64_MIN /\
   get_rep (delete_vote 50 2 voted_up_at_the_floor) 1
     <> get_rep voted_up_at_the_floor 1 - vote_of THUMBS_UP).
Proof.
  split.
  - repeat split; try reflexivity; discriminate.
  - repeat split; try reflexivity; discriminate.
Qed.



Lemma self_vote_ignored_witness :
  get_rep_message voted_up 50 = Some alice_message /\
  1 = RepMessage.author_id alice_message /\
  (on_raw_reaction_add (Some 99) (Payload.mk 50 1 THUMBS_UP) (at_reading 20000000) voted_up).1
    = Return tt /\
  rep_users (on_raw_reaction_add (Some 99) (Payload.mk 50 1 THUMBS_UP) (at_reading 20000000)
               voted_up).2 = rep_users voted_up /\
  get_rep (on_raw_reaction_add (Some 99) (Payload.mk 50 1 THUMBS_UP) (at_reading 20000000)
             voted_up).2 1 = get_rep voted_up 1 /\
  rep_votes (on_raw_reaction_add (Some 99) (Payload.mk 50 1 THUMBS_UP) (at_reading 20000000)
               voted_up).2 ⊆ rep_votes voted_up /\
  (within_rep_window (RepMessage.created_at alice_message)
     (Readings.window (at_reading 20000000)) = true ->
   on_raw_reaction_add (Some 99) (Payload.mk 50 1 THUMBS_UP) (at_reading 20000000) voted_up
     = (Return tt, voted_up)).
Proof.
  split; [reflexivity |]. split; [reflexivity |].
  apply (self_vote_ignored (Some 99) (Payload.mk 50 1 THUMBS_UP) (at_reading 20000000) voted_up
           alice_message); reflexivity.
Defined.

(** ** The broadcast quota *)

Example after_second_call_rows :
  broadcast_actions after_second_call =
  [BroadcastAction.mk 1 (Iso 0); BroadcastAction.mk 2 (Iso (timedelta_days 2 - TEN_MINUTES))].
Proof. reflexivity. Qed.

(** C6 fails on the denied path.  The third call is denied (the row of
    user 2 is twenty minutes old, 2400 seconds remain); its DELETE removed
    the row of user 1, which is older than two days, from the working copy
    only, and the connection is closed without a commit: the row is still
    in the ledger after the call. *)
Theorem denied_call_keeps_stale_row :
  check_and_consume_broadcast_quota letters_after_digits 2 1 3600
    (timedelta_days 2 + TEN_MINUTES) after_second_call
  = (Return (false, 2400), after_second_call) /\
  BroadcastAction.mk 1 (Iso 0) ∈ broadcast_actions after_second_call /\
  text_ltb letters_after_digits (Iso 0)
    (isoformat (timedelta_days 2 + TEN_MINUTES - timedelta_days 2)) = true.
Proof.
  split; [reflexivity |]. split; [| reflexivity].
  rewrite after_second_call_rows. apply list_elem_of_here.
Qed.

Section QuotaFacts.

Variable raw_lt_iso : string -> Z -> bool.

(** *** ORDER BY *)

Lemma insert_used_at_perm (x : text) (l : list text) :
  insert_used_at raw_lt_iso x l ≡ₚ x :: l.
Proof.
  induction l as [| y l IH]; simpl; [reflexivity |].
  destruct (text_ltb raw_lt_iso y x); [| reflexivity].
  rewrite IH. apply Permutation_swap.
Qed.

Lemma order_by_used_at_perm (l : list text) : order_by_used_at raw_lt_iso l ≡ₚ l.
Proof.
  induction l as [| x l IH]; simpl; [reflexivity |].
  rewrite insert_used_at_perm, IH. reflexivity.
Qed.

Lemma insert_used_at_head (t : Z) (l : list text) :
  Forall (fun x => exists tx, x = Iso tx) l ->
  head_earliest l -> head_earliest (insert_used_at raw_lt_iso (Iso t) l).
Proof.
  intros Hiso Hhead. destruct l as [| y l]; simpl.
  - exists t. split; [reflexivity |]. intros t' Hin.
    apply list_elem_of_singleton in Hin. injection Hin as ->. lia.
  - destruct Hhead as [ty [-> Hmin]]. simpl.
    destruct (Z.ltb_spec ty t) as [Hlt | Hge]; simpl.
    + exists ty. split; [reflexivity |]. intros t' Hin.
      apply elem_of_cons in Hin as [Heq | Hin]; [injection Heq as ->; lia |].
      rewrite insert_used_at_perm in Hin.
      apply elem_of_cons in Hin as [Heq | Hin]; [injection Heq as ->; lia |].
      apply Hmin. apply list_elem_of_further. exact Hin.
    + exists t. split; [reflexivity |]. intros t' Hin.
      apply elem_of_cons in Hin as [Heq | Hin]; [injection Heq as ->; lia |].
      specialize (Hmin t' Hin). lia.
Qed.

Lemma order_by_used_at_head (l : list text) :
  Forall (fun x => exists tx, x = Iso tx) l ->
  head_earliest (order_by_used_at raw_lt_iso l).
Proof.
  induction l as [| x l IH]; intros Hiso; simpl; [exact I |].
  apply Forall_cons in Hiso as [[tx ->] Hiso].
  apply insert_used_at_head; [| apply IH; exact Hiso].
  rewrite order_by_used_at_perm. exact Hiso.
Qed.

(** *** One call *)

Lemma check_and_consume_cases (user max_actions window now : Z) (db : ledger) :
  check_and_consume_broadcast_quota raw_lt_iso user max_actions window now db =
  if max_actions <=? Z.of_nat (length (rows_in_window raw_lt_iso user window now db)) then
    match rows_in_window raw_lt_iso user window now db with
    | [] => (Raise IndexError, db)
    | oldest_iso :: _ =>
        (Return (false,
                 match parse_iso_utc oldest_iso with
                 | None => 30
                 | Some oldest_dt =>
                     Z.max 1 (int_total_seconds (oldest_dt + timedelta_seconds window - now))
                 end), db)
    end
  else
    (Return (true, 0),
     with_broadcast_actions
       (fun rows => delete_used_before raw_lt_iso (isoformat (now - timedelta_days 2)) rows
                    ++ [BroadcastAction.mk user (isoformat now)]) db).
Proof.
  unfold check_and_consume_broadcast_quota, rows_in_window.
  cbv zeta. unfold connect, commit, close, execute. cbn [pending committed].
  destruct (_ <=? _); [| reflexivity].
  destruct (select_used_at _ _ _ _) as [| oldest_iso rest]; [reflexivity |].
  destruct (parse_iso_utc oldest_iso); reflexivity.
Qed.

Lemma quota_denied (user max_actions window now : Z) (db : ledger) :
  max_actions <= Z.of_nat (length (rows_in_window raw_lt_iso user window now db)) ->
  (check_and_consume_broadcast_quota raw_lt_iso user max_actions window now db).2 = db /\
  match rows_in_window raw_lt_iso user window now db with
  | [] => (check_and_consume_broadcast_quota raw_lt_iso user max_actions window now db).1
          = Raise IndexError
  | oldest_iso :: _ =>
      (check_and_consume_broadcast_quota raw_lt_iso user max_actions window now db).1
      = Return (false,
                match parse_iso_utc oldest_iso with
                | None => 30
                | Some oldest_dt =>
                    Z.max 1 (int_total_seconds (oldest_dt + timedelta_seconds window - now))
                end)
  end.
Proof.
  intros Hfull. rewrite check_and_consume_cases.
  apply Z.leb_le in Hfull. rewrite Hfull.
  destruct (rows_in_window raw_lt_iso user window now db) as [| oldest_iso rest]; auto.
Qed.

Lemma quota_allowed (user max_actions window now : Z) (db : ledger) :
  Z.of_nat (length (rows_in_window raw_lt_iso user window now db)) < max_actions ->
  check_and_consume_broadcast_quota raw_lt_iso user max_actions window now db =
  (Return (true, 0),
   with_broadcast_actions
     (fun rows => delete_used_before raw_lt_iso (isoformat (now - timedelta_days 2)) rows
                  ++ [BroadcastAction.mk user (isoformat now)]) db).
Proof.
  intros Hroom. rewrite check_and_consume_cases.
  apply Z.leb_gt in Hroom. rewrite Hroom. reflexivity.
Qed.

End QuotaFacts.

(** C10. When the call is denied, that is the rows fetched for the window
    are at least [max_actions], and the first of them, the oldest, does
    not parse, the call returns [(False, 30)]; the ledger is as before. *)
Theorem unparsable_oldest_row_retry_30
    (raw_lt_iso : string -> Z -> bool) (user max_actions window now : Z) (db : ledger)
    (oldest_iso : text) (rest : list text) :
  rows_in_window raw_lt_iso user window now db = oldest_iso :: rest ->
  max_actions <= Z.of_nat (length (oldest_iso :: rest)) ->
  parse_iso_utc oldest_iso = None ->
  check_and_consume_broadcast_quota raw_lt_iso user max_actions window now db
  = (Return (false, 30), db).
Proof.
  intros Hrows Hfull Hparse. rewrite <- Hrows in Hfull.
  destruct (quota_denied raw_lt_iso user max_actions window now db Hfull) as [Hdb Hres].
  rewrite Hrows, Hparse in Hres.
  destruct (check_and_consume_broadcast_quota raw_lt_iso user max_actions window now db)
    as [r db'].
  simpl in *. congruence.
Qed.

Lemma unparsable_oldest_row_retry_30_witness :
  rows_in_window letters_after_digits 7 3600 TEN_MINUTES corrupt_ledger = [Raw "yesterday"] /\
  1 <= Z.of_nat (length [Raw "yesterday"]) /\
  parse_iso_utc (Raw "yesterday") = None /\
  check_and_consume_broadcast_quota letters_after_digits 7 1 3600 TEN_MINUTES corrupt_ledger
  = (Return (false, 30), corrupt_ledger).
Proof.
  split; [reflexivity |]. split; [simpl; lia |]. split; [reflexivity |].
  apply (unparsable_oldest_row_retry_30 letters_after_digits 7 1 3600 TEN_MINUTES
           corrupt_ledger (Raw "yesterday") []); [reflexivity | simpl; lia | reflexivity].
Defined.

(** *** Counting *)

Lemma count_between_app (lo hi : Z) (l1 l2 : list Z) :
  count_between lo hi (l1 ++ l2) = count_between lo hi l1 + count_between lo hi l2.
Proof. unfold count_between. rewrite List.filter_app, length_app. lia. Qed.

Lemma count_since_app (c : Z) (l1 l2 : list Z) :
  count_since c (l1 ++ l2) = count_since c l1 + count_since c l2.
Proof. unfold count_since. rewrite List.filter_app, length_app. lia. Qed.

Lemma count_between_le_since (lo hi : Z) (l : list Z) :
  count_between lo hi l <= count_since lo l.
Proof.
  unfold count_between, count_since. induction l as [| p l IH]; simpl; [lia |].
  destruct (lo <=? p); simpl; [| exact IH].
  destruct (p <=? hi); simpl; lia.
Qed.

Lemma count_since_anti (c c' : Z) (l : list Z) :
  c <= c' -> count_since c' l <= count_since c l.
Proof.
  intros Hc. unfold count_since. induction l as [| p l IH]; simpl; [lia |].
  destruct (Z.leb_spec c' p), (Z.leb_spec c p); simpl; lia.
Qed.

Lemma count_between_single (lo hi t : Z) :
  count_between lo hi [t] = if (lo <=? t) && (t <=? hi) then 1 else 0.
Proof. unfold count_between. simpl. destruct ((lo <=? t) && (t <=? hi)); reflexivity. Qed.

Lemma count_since_single (c t : Z) : count_since c [t] = if c <=? t then 1 else 0.
Proof. unfold count_since. simpl. destruct (c <=? t); reflexivity. Qed.

Section RowsSince.

Variable raw_lt_iso : string -> Z -> bool.

(** The retention DELETE removes no rendering at or after its bound. *)
Lemma iso_since_delete_used_before (u c bound : Z) (rows : list BroadcastAction.t) :
  bound <= c ->
  List.filter (iso_since u c) (delete_used_before raw_lt_iso (Iso bound) rows)
  = List.filter (iso_since u c) rows.
Proof.
  intros Hb. unfold delete_used_before. induction rows as [| r rows IH]; [reflexivity |].
  rewrite filter_cons. simpl.
  destruct (decide (text_ltb raw_lt_iso (BroadcastAction.used_at r) (Iso bound) = false))
    as [Hkeep | Hdrop].
  - simpl. rewrite IH. reflexivity.
  - rewrite IH.
    assert (Hout : iso_since u c r = false).
    { unfold iso_since. destruct (BroadcastAction.used_at r) as [t | s].
      - simpl in Hdrop. apply not_false_is_true, Z.ltb_lt in Hdrop.
        replace (c <=? t) with false by (symmetry; apply Z.leb_gt; lia).
        apply andb_false_r.
      - apply andb_false_r. }
    rewrite Hout. reflexivity.
Qed.

(** Every rendering of [u] at or after the window start is among the rows
    the call fetches, when the window is no longer than the retention. *)
Lemma rows_since_le_rows_in_window (u window now : Z) (db : ledger) :
  window <= RETENTION_SECONDS ->
  rows_since u (now - timedelta_seconds window) db
  <= Z.of_nat (length (rows_in_window raw_lt_iso u window now db)).
Proof.
  intros Hw. unfold rows_since, rows_in_window, select_used_at.
  rewrite (Permutation_length (order_by_used_at_perm raw_lt_iso _)), length_fmap.
  cbn [broadcast_actions with_broadcast_actions].
  rewrite <- (iso_since_delete_used_before u _ (now - timedelta_days 2));
    [| unfold timedelta_seconds, timedelta_days, RETENTION_SECONDS, US_PER_SECOND in *; lia].
  unfold isoformat.
  induction (delete_used_before raw_lt_iso (Iso (now - timedelta_days 2))
               (broadcast_actions db)) as [| r rows IH]; [reflexivity |].
  rewrite filter_cons. simpl.
  destruct (iso_since u (now - timedelta_seconds window) r) eqn:Hr.
  - rewrite decide_True.
    + simpl. lia.
    + unfold iso_since in Hr. apply andb_true_iff in Hr as [Hu Ht].
      split; [apply Z.eqb_eq; exact Hu |].
      destruct (BroadcastAction.used_at r) as [t | s]; [| discriminate].
      simpl. apply Z.ltb_ge. apply Z.leb_le in Ht. exact Ht.
  - destruct (decide _); simpl; lia.
Qed.

(** The effect of one call on the renderings counted for [u]. *)
Lemma rows_since_after_call (u c : Z) (call : Call.t) (db : ledger) :
  Call.now call - timedelta_days 2 <= c ->
  let r := check_and_consume_broadcast_quota raw_lt_iso (Call.user_id call)
             (Call.max_actions call) (Call.window_seconds call) (Call.now call) db in
  rows_since u c r.2 =
  rows_since u c db +
  if is_allowed u (Step.mk call db r.1) && (c <=? Call.now call) then 1 else 0.
Proof.
  intros Hc r. subst r. rewrite check_and_consume_cases.
  destruct (_ <=? _).
  - destruct (rows_in_window _ _ _ _ _) as [| oldest_iso rest];
      unfold is_allowed; simpl; rewrite andb_false_r; simpl; lia.
  - unfold is_allowed, rows_since. cbn [fst snd Step.outcome Step.call].
    cbn [broadcast_actions with_broadcast_actions].
    rewrite List.filter_app, length_app, iso_since_delete_used_before by exact Hc.
    simpl. unfold iso_since at 2. simpl. rewrite andb_true_r.
    destruct (Call.user_id call =? u); simpl; [| lia].
    destruct (c <=? Call.now call); simpl; lia.
Qed.

End RowsSince.

(** *** The sliding window over a run *)

Section SlidingWindow.

Variable raw_lt_iso : string -> Z -> bool.
Variables (u max_actions window : Z).
Hypothesis window_within_retention : window <= RETENTION_SECONDS.

Lemma past_ok_step (past : list Z) (db : ledger) (tlast : Z) (call : Call.t) :
  past_ok u max_actions window past db tlast ->
  tlast <= Call.now call ->
  (Call.user_id call = u ->
   Call.max_actions call = max_actions /\ Call.window_seconds call = window) ->
  let r := check_and_consume_broadcast_quota raw_lt_iso (Call.user_id call)
             (Call.max_actions call) (Call.window_seconds call) (Call.now call) db in
  past_ok u max_actions window
    (if is_allowed u (Step.mk call db r.1) then past ++ [Call.now call] else past)
    r.2 (Call.now call).
Proof.
  intros (Hle & Hrows & Hwin) Hlater Hsame r.
  pose proof (fun c Hc => rows_since_after_call raw_lt_iso u c call db Hc) as Hafter.
  cbv zeta in Hafter. fold r in Hafter.
  destruct (is_allowed u (Step.mk call db r.1)) eqn:Hallowed.
  - (* an allowed call of [u] *)
    assert (Hu : Call.user_id call = u).
    { unfold is_allowed in Hallowed. apply andb_true_iff in Hallowed as [Hu _].
      apply Z.eqb_eq. exact Hu. }
    destruct (Hsame Hu) as [Hmax Hwindow].
    assert (Hroom : rows_since u (Call.now call - timedelta_seconds window) db < max_actions).
    { pose proof (rows_since_le_rows_in_window raw_lt_iso u window (Call.now call) db
                    window_within_retention) as Hcount.
      subst r. rewrite check_and_consume_cases in Hallowed.
      rewrite Hu, Hmax, Hwindow in Hallowed.
      destruct (Z.leb_spec max_actions
                  (Z.of_nat (length (rows_in_window raw_lt_iso u window (Call.now call) db))))
        as [Hfull | Hfree]; [| lia].
      unfold is_allowed in Hallowed.
      destruct (rows_in_window raw_lt_iso u window (Call.now call) db);
        simpl in Hallowed; rewrite andb_false_r in Hallowed; discriminate. }
    split; [| split].
    + apply Forall_app. split.
      * eapply Forall_impl; [exact Hle | intros p Hp; simpl in Hp; lia].
      * apply Forall_singleton. lia.
    + intros c Hc. rewrite count_since_app, count_since_single, Hafter by exact Hc.
      simpl. specialize (Hrows c ltac:(lia)).
      destruct (c <=? Call.now call); lia.
    + intros s. rewrite count_between_app, count_between_single.
      destruct (andb _ _) eqn:Hin; [| specialize (Hwin s); lia].
      apply andb_true_iff in Hin as [Hlo Hhi].
      apply Z.leb_le in Hlo. apply Z.leb_le in Hhi.
      pose proof (count_between_le_since (s - timedelta_seconds window) s past) as H1.
      pose proof (count_since_anti (Call.now call - timedelta_seconds window)
                    (s - timedelta_seconds window) past ltac:(lia)) as H2.
      assert (Hhorizon : tlast - timedelta_days 2
                         <= Call.now call - timedelta_seconds window).
      { unfold timedelta_seconds, timedelta_days, RETENTION_SECONDS, US_PER_SECOND in *. lia. }
      specialize (Hrows _ Hhorizon). lia.
  - (* a call of somebody else, or a call that was not allowed *)
    split; [| split].
    + eapply Forall_impl; [exact Hle | intros p Hp; simpl in Hp; lia].
    + intros c Hc. rewrite Hafter by exact Hc. simpl.
      specialize (Hrows c ltac:(lia)). lia.
    + exact Hwin.
Qed.

Lemma allowed_times_cons (s : Step.t) (trace : list Step.t) :
  allowed_times u (s :: trace) =
  if is_allowed u s then Call.now (Step.call s) :: allowed_times u trace
  else allowed_times u trace.
Proof. unfold allowed_times. simpl. destruct (is_allowed u s); reflexivity. Qed.

Lemma run_keeps_bound (calls : list Call.t) :
  forall (db : ledger) (past : list Z) (tlast : Z),
    past_ok u max_actions window past db tlast ->
    StronglySorted Z.le (map Call.now calls) ->
    Forall (fun c => tlast <= Call.now c) calls ->
    Forall (fun c => Call.user_id c = u ->
                     Call.max_actions c = max_actions /\ Call.window_seconds c = window) calls ->
    forall s, count_between (s - timedelta_seconds window) s
                (past ++ allowed_times u (run raw_lt_iso calls db)) <= max_actions.
Proof.
  induction calls as [| call calls IH]; intros db past tlast Hpast Hsorted Hlater Hsame s.
  - simpl. unfold allowed_times. simpl. rewrite app_nil_r. apply Hpast.
  - simpl. rewrite allowed_times_cons.
    apply Forall_cons in Hlater as [Hnow Hlater].
    apply Forall_cons in Hsame as [Hcall Hsame].
    simpl in Hsorted. apply StronglySorted_inv in Hsorted as [Hsorted Hfirst].
    pose proof (past_ok_step past db tlast call Hpast Hnow Hcall) as Hstep.
    cbv zeta in Hstep.
    assert (Hlater' : Forall (fun c => Call.now call <= Call.now c) calls).
    { apply List.Forall_forall. intros c Hc.
      rewrite List.Forall_forall in Hfirst. apply Hfirst.
      apply List.in_map. exact Hc. }
    destruct (is_allowed u _).
    + replace (past ++ Call.now call :: allowed_times u (run raw_lt_iso calls _))
        with ((past ++ [Call.now call]) ++ allowed_times u (run raw_lt_iso calls
               (check_and_consume_broadcast_quota raw_lt_iso (Call.user_id call)
                  (Call.max_actions call) (Call.window_seconds call) (Call.now call) db).2))
        by (rewrite <- app_assoc; reflexivity).
      eapply IH; eassumption.
    + eapply IH; eassumption.
Qed.

End SlidingWindow.

(** *** The wait reported by a denied call *)

Section RetryAfter.

Variable raw_lt_iso : string -> Z -> bool.

Lemma well_formed_after_call (user max_actions window now : Z) (db : ledger) :
  well_formed_actions db ->
  well_formed_actions
    (check_and_consume_broadcast_quota raw_lt_iso user max_actions window now db).2.
Proof.
  intros Hwf. rewrite check_and_consume_cases.
  destruct (_ <=? _).
  - destruct (rows_in_window _ _ _ _ _); exact Hwf.
  - intros r Hr. cbn [snd broadcast_actions with_broadcast_actions] in Hr.
    apply elem_of_app in Hr as [Hr | Hr].
    + apply list_elem_of_filter in Hr as [_ Hr]. apply Hwf. exact Hr.
    + apply list_elem_of_singleton in Hr. subst r. exists now. reflexivity.
Qed.

Lemma run_steps (calls : list Call.t) :
  forall (db : ledger) (step : Step.t),
    well_formed_actions db ->
    step ∈ run raw_lt_iso calls db ->
    well_formed_actions (Step.before step) /\
    Step.call step ∈ calls /\
    Step.outcome step =
      (check_and_consume_broadcast_quota raw_lt_iso
         (Call.user_id (Step.call step)) (Call.max_actions (Step.call step))
         (Call.window_seconds (Step.call step)) (Call.now (Step.call step))
         (Step.before step)).1.
Proof.
  induction calls as [| call calls IH]; intros db step Hwf Hin; simpl in Hin.
  - apply elem_of_nil in Hin. contradiction.
  - apply elem_of_cons in Hin as [-> | Hin].
    + simpl. split; [exact Hwf |]. split; [apply list_elem_of_here | reflexivity].
    + destruct (IH _ step (well_formed_after_call _ _ _ _ db Hwf) Hin) as (H1 & H2 & H3).
      split; [exact H1 |]. split; [apply list_elem_of_further; exact H2 | exact H3].
Qed.

Lemma elem_of_rows_in_window (user window now t : Z) (db : ledger) :
  window <= RETENTION_SECONDS ->
  Iso t ∈ rows_in_window raw_lt_iso user window now db <->
  BroadcastAction.mk user (Iso t) ∈ broadcast_actions db /\
  now - timedelta_seconds window <= t.
Proof.
  intros Hw. unfold rows_in_window, select_used_at.
  rewrite order_by_used_at_perm, list_elem_of_fmap.
  cbn [broadcast_actions with_broadcast_actions]. unfold delete_used_before, isoformat.
  split.
  - intros [[u' x] [Hx Hin]]. simpl in Hx. subst x.
    apply list_elem_of_filter in Hin as [[Hu Hsince] Hin]. simpl in Hu, Hsince. subst u'.
    apply list_elem_of_filter in Hin as [_ Hin].
    split; [exact Hin | apply Z.ltb_ge; exact Hsince].
  - intros [Hin Hsince]. exists (BroadcastAction.mk user (Iso t)).
    split; [reflexivity |].
    apply list_elem_of_filter. split.
    + split; [reflexivity | simpl; apply Z.ltb_ge; exact Hsince].
    + apply list_elem_of_filter. split; [| exact Hin].
      simpl. apply Z.ltb_ge.
      unfold timedelta_seconds, timedelta_days, RETENTION_SECONDS, US_PER_SECOND in *. lia.
Qed.

Lemma rows_in_window_renderings (user window now : Z) (db : ledger) :
  well_formed_actions db ->
  Forall (fun x => exists tx, x = Iso tx)
    (BroadcastAction.used_at <$>
       filter (in_window raw_lt_iso user (isoformat (now - timedelta_seconds window)))
         (delete_used_before raw_lt_iso (isoformat (now - timedelta_days 2))
            (broadcast_actions db))).
Proof.
  intros Hwf. apply Forall_fmap, Forall_forall. intros r Hr. simpl.
  apply list_elem_of_filter in Hr as [_ Hr].
  apply list_elem_of_filter in Hr as [_ Hr].
  apply Hwf. exact Hr.
Qed.

Lemma denied_retry_after (user max_actions window now retry : Z) (db : ledger) :
  well_formed_actions db ->
  window <= RETENTION_SECONDS ->
  (check_and_consume_broadcast_quota raw_lt_iso user max_actions window now db).1
    = Return (false, retry) ->
  exists oldest,
    oldest_in_window user (now - timedelta_seconds window) oldest db /\
    retry = Z.max 1 (int_total_seconds (oldest + timedelta_seconds window - now)).
Proof.
  intros Hwf Hw Hres. rewrite check_and_consume_cases in Hres.
  destruct (_ <=? _); [| discriminate Hres].
  pose proof (order_by_used_at_head raw_lt_iso _
                (rows_in_window_renderings user window now db Hwf)) as Hhead.
  pose proof (fun t => elem_of_rows_in_window user window now t db Hw) as Helem.
  unfold rows_in_window, select_used_at in *.
  cbn [broadcast_actions with_broadcast_actions] in *.
  destruct (order_by_used_at _ _) as [| oldest_iso rest]; [discriminate Hres |].
  destruct Hhead as [oldest [-> Hmin]]. simpl in Hres.
  injection Hres as <-. exists oldest. split; [| reflexivity].
  destruct (proj1 (Helem oldest) (list_elem_of_here _ _)) as [Hin Hsince].
  split; [exact Hin |]. split; [exact Hsince |].
  intros t' Hin' Hsince'. apply Hmin. apply Helem. split; assumption.
Qed.

End RetryAfter.

(** C1.  Take any run of calls at the readings of a monotonic clock, in
    which every call of user [u] carries the same [(max_actions, window)],
    a number of actions that is not negative and a window no longer than
    the two days of retention, as every pair of the policy table is.  Then
    no closed interval of [window] seconds holds more than [max_actions]
    allowed calls of [u]; and, from a ledger whose quota rows are all
    timestamps, every denied call of [u] reports
    [max(1, int(oldest + window - now))] seconds, where [oldest] is the
    earliest [used_at] of [u] inside the window. *)
Theorem sliding_window_quota
    (raw_lt_iso : string -> Z -> bool) (calls : list Call.t) (db : ledger)
    (u max_actions window : Z) :
  0 <= max_actions ->
  window <= RETENTION_SECONDS ->
  Sorted Z.le (map Call.now calls) ->
  (forall c, c ∈ calls -> Call.user_id c = u ->
             Call.max_actions c = max_actions /\ Call.window_seconds c = window) ->
  (forall s,
     count_between (s - timedelta_seconds window) s
       (allowed_times u (run raw_lt_iso calls db)) <= max_actions) /\
  (well_formed_actions db ->
   forall step retry,
     step ∈ run raw_lt_iso calls db ->
     Call.user_id (Step.call step) = u ->
     Step.outcome step = Return (false, retry) ->
     exists oldest,
       oldest_in_window u (Call.now (Step.call step) - timedelta_seconds window) oldest
         (Step.before step) /\
       retry = Z.max 1 (int_total_seconds
                          (oldest + timedelta_seconds window - Call.now (Step.call step)))).
Proof.
  intros Hmax Hw Hsorted Hsame. split.
  - intros s.
    apply Sorted_StronglySorted in Hsorted; [| intros x y z; apply Z.le_trans].
    set (tlast := match calls with [] => 0 | c :: _ => Call.now c end).
    apply (run_keeps_bound raw_lt_iso u max_actions window Hw calls db [] tlast).
    + split; [constructor |]. split.
      * intros c _. unfold count_since, rows_since. simpl. lia.
      * intros s'. unfold count_between. simpl. exact Hmax.
    + exact Hsorted.
    + destruct calls as [| c calls']; [constructor |].
      simpl in Hsorted. apply StronglySorted_inv in Hsorted as [_ Hfirst].
      constructor; [subst tlast; simpl; lia |].
      apply List.Forall_forall. intros c' Hc'.
      rewrite List.Forall_forall in Hfirst. apply Hfirst, List.in_map, Hc'.
    + apply Forall_forall. exact Hsame.
  - intros Hwf step retry Hstep Hu Hres.
    destruct (run_steps raw_lt_iso calls db step Hwf Hstep) as (Hwf' & Hcall & Hout).
    destruct (Hsame _ Hcall Hu) as [Hm Hwin].
    rewrite Hout, Hu, Hm, Hwin in Hres.
    exact (denied_retry_after raw_lt_iso u max_actions window _ retry _ Hwf' Hw Hres).
Qed.

Example six_calls_outcomes :
  map Step.outcome (run letters_after_digits six_calls init) =
  [Return (true, 0); Return (true, 0); Return (true, 0); Return (true, 0); Return (true, 0);
   Return (false, 3500)].
Proof. reflexivity. Qed.

Lemma sliding_window_quota_witness :
  0 <= 5 /\
  3600 <= RETENTION_SECONDS /\
  Sorted Z.le (map Call.now six_calls) /\
  (forall c, c ∈ six_calls -> Call.user_id c = 1 ->
             Call.max_actions c = 5 /\ Call.window_seconds c = 3600) /\
  well_formed_actions init /\
  (forall s,
     count_between (s - timedelta_seconds 3600) s
       (allowed_times 1 (run letters_after_digits six_calls init)) <= 5) /\
  (forall step retry,
     step ∈ run letters_after_digits six_calls init ->
     Call.user_id (Step.call step) = 1 ->
     Step.outcome step = Return (false, retry) ->
     exists oldest,
       oldest_in_window 1 (Call.now (Step.call step) - timedelta_seconds 3600) oldest
         (Step.before step) /\
       retry = Z.max 1 (int_total_seconds
                          (oldest + timedelta_seconds 3600 - Call.now (Step.call step)))).
Proof.
  assert (Hmax : 0 <= 5) by lia.
  assert (Hw : 3600 <= RETENTION_SECONDS) by (unfold RETENTION_SECONDS; lia).
  assert (Hsorted : Sorted Z.le (map Call.now six_calls)).
  { simpl. repeat constructor; unfold timedelta_seconds, US_PER_SECOND; lia. }
  assert (Hsame : forall c, c ∈ six_calls -> Call.user_id c = 1 ->
                            Call.max_actions c = 5 /\ Call.window_seconds c = 3600).
  { intros c Hc _. unfold six_calls in Hc. simpl in Hc.
    repeat (apply elem_of_cons in Hc as [-> | Hc]; [split; reflexivity |]).
    apply elem_of_nil in Hc. contradiction. }
  assert (Hwf : well_formed_actions init).
  { intros r Hr. apply elem_of_nil in Hr. contradiction. }
  repeat (split; [assumption |]).
  destruct (sliding_window_quota letters_after_digits six_calls init 1 5 3600
              Hmax Hw Hsorted Hsame) as [Hbound Hretry].
  split; [exact Hbound | exact (Hretry Hwf)].
Defined.

(** The bound leans on the retention being at least the window.  With
    one action per three days, a window no caller asks for, a call at
    instant 0 and a call two days and one second later are both allowed:
    the second call deletes the row of the first before it counts. *)
Lemma two_allowed_in_three_day_window :
  map Step.outcome (run letters_after_digits three_day_calls init)
    = [Return (true, 0); Return (true, 0)] /\
  count_between
    (timedelta_days 2 + timedelta_seconds 1 - timedelta_seconds 259200)
    (timedelta_days 2 + timedelta_seconds 1)
    (allowed_times 1 (run letters_after_digits three_day_calls init)) = 2 /\
  ~ (count_between
       (timedelta_days 2 + timedelta_seconds 1 - timedelta_seconds 259200)
       (timedelta_days 2 + timedelta_seconds 1)
       (allowed_times 1 (run letters_after_digits three_day_calls init)) <= 1).
Proof.
  split; [reflexivity |]. split; [reflexivity |].
  change (count_between _ _ _) with 2. lia.
Qed.

(** * Further properties of the ledger *)

(** ** [prune_rep] *)

Lemma is_expired_later (now now' : Z) (created_at : text) :
  now <= now' -> is_expired now created_at = true -> is_expired now' created_at = true.
Proof.
  unfold is_expired. destruct (parse_iso_utc created_at) as [t |]; [| discriminate].
  intros Hle H. apply Z.ltb_lt in H. apply Z.ltb_lt. lia.
Qed.

Lemma maintenance_prune_rep (now : Z) (db : ledger) :
  maintenance (prune_rep now db) =
  match maintenance db with
  | Some _ => Some (Some (utc_now_iso now))
  | None => None
  end.
Proof.
  unfold prune_rep, connect, commit, close, execute. simpl.
  destruct (expired_ids now (map_to_list (rep_messages db))); reflexivity.
Qed.

Lemma ledger_eq (a b : ledger) :
  rep_users a = rep_users b ->
  rep_messages a = rep_messages b ->
  rep_votes a = rep_votes b ->
  broadcast_actions a = broadcast_actions b ->
  maintenance a = maintenance b ->
  a = b.
Proof. destruct a, b. simpl. intros. congruence. Qed.

(** X1. What [prune_rep] does, row by row.  A tracked message stays exactly
    when its [created_at] does not parse or is at most the TTL in the
    past; a vote goes exactly when its message row is there and expired
    (a vote whose message row is already gone is never collected); the
    scores and the quota rows are as before; and the marker is set to the
    clock, if its row exists. *)
Theorem prune_rep_effect (now : Z) (db : ledger) :
  rep_users (prune_rep now db) = rep_users db /\
  broadcast_actions (prune_rep now db) = broadcast_actions db /\
  (forall m,
     get_rep_message (prune_rep now db) m =
     match get_rep_message db m with
     | Some msg =>
         match parse_iso_utc (RepMessage.created_at msg) with
         | Some t => if timedelta_seconds REP_TTL_SECONDS <? now - t then None else Some msg
         | None => Some msg
         end
     | None => None
     end) /\
  (forall m v,
     get_vote (prune_rep now db) m v =
     match get_rep_message db m with
     | Some msg =>
         match parse_iso_utc (RepMessage.created_at msg) with
         | Some t => if timedelta_seconds REP_TTL_SECONDS <? now - t then None
                     else get_vote db m v
         | None => get_vote db m v
         end
     | None => get_vote db m v
     end) /\
  get_last_prune (prune_rep now db) =
    match maintenance db with
    | Some _ => Some (utc_now_iso now)
    | None => None
    end.
Proof.
  destruct (prune_rep_tables now db) as (Hu & Ha & _ & _).
  split; [exact Hu |]. split; [exact Ha |]. split; [| split].
  - intros m. rewrite get_rep_message_prune_rep.
    destruct (get_rep_message db m) as [msg |]; [| reflexivity].
    unfold is_expired. destruct (parse_iso_utc _); reflexivity.
  - intros m v. rewrite get_vote_prune_rep.
    destruct (get_rep_message db m) as [msg |]; [| reflexivity].
    unfold is_expired. destruct (parse_iso_utc _); reflexivity.
  - unfold get_last_prune. rewrite maintenance_prune_rep.
    destruct (maintenance db); reflexivity.
Qed.

(** X2. Pruning at a reading of the clock and then again at a later one
    leaves the ledger that the later prune alone would have left. *)
Theorem prune_rep_twice (now now' : Z) (db : ledger) :
  now <= now' ->
  prune_rep now' (prune_rep now db) = prune_rep now' db.
Proof.
  intros Hle. apply ledger_eq.
  - destruct (prune_rep_tables now' (prune_rep now db)) as (-> & _).
    destruct (prune_rep_tables now db) as (-> & _).
    destruct (prune_rep_tables now' db) as (-> & _). reflexivity.
  - apply map_eq. intros m.
    pose proof (get_rep_message_prune_rep now' (prune_rep now db) m) as H1.
    pose proof (get_rep_message_prune_rep now db m) as H2.
    pose proof (get_rep_message_prune_rep now' db m) as H3.
    unfold get_rep_message in *. rewrite H1, H3, H2.
    destruct (rep_messages db !! m) as [msg |]; [| reflexivity].
    destruct (is_expired now (RepMessage.created_at msg)) eqn:Hexp; [| reflexivity].
    rewrite (is_expired_later now now' _ Hle Hexp). reflexivity.
  - apply map_eq. intros [m v].
    pose proof (get_vote_prune_rep now' (prune_rep now db) m v) as H1.
    pose proof (get_vote_prune_rep now db m v) as H2.
    pose proof (get_vote_prune_rep now' db m v) as H3.
    pose proof (get_rep_message_prune_rep now db m) as H4.
    unfold get_vote in *. rewrite H1, H3, H4, H2.
    destruct (get_rep_message db m) as [msg |]; [| reflexivity].
    destruct (is_expired now (RepMessage.created_at msg)) eqn:Hexp.
    + rewrite (is_expired_later now now' _ Hle Hexp). reflexivity.
    + reflexivity.
  - destruct (prune_rep_tables now' (prune_rep now db)) as (_ & -> & _).
    destruct (prune_rep_tables now db) as (_ & -> & _).
    destruct (prune_rep_tables now' db) as (_ & -> & _). reflexivity.
  - rewrite !maintenance_prune_rep. destruct (maintenance db); reflexivity.
Qed.

Lemma prune_rep_twice_witness :
  10000000 <= FIVE_HOURS /\
  prune_rep FIVE_HOURS (prune_rep 10000000 voted_up) = prune_rep FIVE_HOURS voted_up.
Proof.
  split; [unfold FIVE_HOURS, timedelta_seconds, US_PER_SECOND; lia |].
  apply (prune_rep_twice 10000000 FIVE_HOURS voted_up).
  unfold FIVE_HOURS, timedelta_seconds, US_PER_SECOND. lia.
Defined.

(** ** Tracking a message *)

Lemma whole_second_bounds (now : Z) : whole_second now <= now < whole_second now + US_PER_SECOND.
Proof.
  unfold whole_second, US_PER_SECOND.
  pose proof (Z.mod_pos_bound now 1000000 ltac:(lia)). lia.
Qed.

(** X3. A message tracked at the reading [now] is stored with the whole
    second of [now]; it is inside the voting window exactly up to the TTL
    after that second, so for at least the TTL less one second after the
    call.  Tracking touches neither the votes nor the scores, so a message
    id tracked again keeps the votes stored on it. *)
Theorem track_rep_message_window
    (message_id author_id : Z) (author_name : string) (now : Z) (db : ledger) :
  get_rep_message (track_rep_message message_id author_id author_name now db) message_id
    = Some (RepMessage.mk author_id author_name (Iso (whole_second now))) /\
  (forall now',
     within_rep_window (Iso (whole_second now)) now' = true <->
     now' - whole_second now <= timedelta_seconds REP_TTL_SECONDS) /\
  (forall now',
     now' <= now + timedelta_seconds (REP_TTL_SECONDS - 1) ->
     within_rep_window (Iso (whole_second now)) now' = true) /\
  (forall m', m' <> message_id ->
     get_rep_message (track_rep_message message_id author_id author_name now db) m'
       = get_rep_message db m') /\
  rep_votes (track_rep_message message_id author_id author_name now db) = rep_votes db /\
  rep_users (track_rep_message message_id author_id author_name now db) = rep_users db.
Proof.
  split; [| split; [| split; [| split; [| split]]]].
  - unfold get_rep_message, track_rep_message, connect, commit, close, execute. simpl.
    apply lookup_insert_eq.
  - intros now'. unfold within_rep_window. simpl. apply Z.leb_le.
  - intros now' Hle. unfold within_rep_window. simpl. apply Z.leb_le.
    pose proof (whole_second_bounds now).
    unfold timedelta_seconds, US_PER_SECOND in *. lia.
  - intros m' Hne.
    unfold get_rep_message, track_rep_message, connect, commit, close, execute. simpl.
    apply lookup_insert_ne. congruence.
  - reflexivity.
  - reflexivity.
Qed.

(** X4. A tracked message whose [created_at] does not parse is never
    collected by [prune_rep], whatever the clock; the first thumbs
    reaction on it (added by anyone but the bot, or removed) deletes it
    and changes no score. *)
Theorem unparsable_created_at_row
    (db : ledger) (m : Z) (msg : RepMessage.t) :
  get_rep_message db m = Some msg ->
  parse_iso_utc (RepMessage.created_at msg) = None ->
  (forall now, get_rep_message (prune_rep now db) m = Some msg) /\
  (forall bot_user u emoji clock,
     is_vote_emoji emoji -> bot_user <> Some u ->
     (on_raw_reaction_add bot_user (Payload.mk m u emoji) clock db).1 = Return tt /\
     stale_row_dropped m db (on_raw_reaction_add bot_user (Payload.mk m u emoji) clock db).2) /\
  (forall u emoji clock,
     is_vote_emoji emoji ->
     (on_raw_reaction_remove (Payload.mk m u emoji) clock db).1 = Return tt /\
     stale_row_dropped m db (on_raw_reaction_remove (Payload.mk m u emoji) clock db).2).
Proof.
  intros Hmsg Hparse.
  assert (Hwin : forall now, within_rep_window (RepMessage.created_at msg) now = false).
  { intros now. unfold within_rep_window. rewrite Hparse. reflexivity. }
  split; [| split].
  - intros now. rewrite get_rep_message_prune_rep, Hmsg.
    unfold is_expired. rewrite Hparse. reflexivity.
  - intros bot_user u emoji clock Hemoji Hbot. unfold on_raw_reaction_add.
    cbn [Payload.message_id Payload.user_id Payload.emoji].
    destruct (decide (bot_user = Some u)) as [Heq | _]; [contradiction |].
    destruct (decide (emoji = THUMBS_UP \/ emoji = THUMBS_DOWN)) as [_ | Hno];
      [| contradiction].
    rewrite Hmsg, Hwin. cbn [negb fst snd]. split; [reflexivity | apply drop_stale_row].
  - intros u emoji clock Hemoji. unfold on_raw_reaction_remove.
    cbn [Payload.message_id Payload.user_id Payload.emoji].
    destruct (decide (emoji = THUMBS_UP \/ emoji = THUMBS_DOWN)) as [_ | Hno];
      [| contradiction].
    rewrite Hmsg, Hwin. cbn [negb fst snd]. split; [reflexivity | apply drop_stale_row].
Qed.

Lemma unparsable_created_at_row_witness :
  get_rep_message
    (with_rep_messages (insert 60 (RepMessage.mk 1 "alice" (Raw "soon"))) tracked_author) 60
    = Some (RepMessage.mk 1 "alice" (Raw "soon")) /\
  parse_iso_utc (RepMessage.created_at (RepMessage.mk 1 "alice" (Raw "soon"))) = None /\
  get_rep_message
    (prune_rep FIVE_HOURS
       (with_rep_messages (insert 60 (RepMessage.mk 1 "alice" (Raw "soon"))) tracked_author)) 60
    = Some (RepMessage.mk 1 "alice" (Raw "soon")).
Proof.
  split; [reflexivity |]. split; [reflexivity |].
  apply (unparsable_created_at_row
           (with_rep_messages (insert 60 (RepMessage.mk 1 "alice" (Raw "soon"))) tracked_author)
           60 (RepMessage.mk 1 "alice" (Raw "soon"))); reflexivity.
Defined.

(** ** Accounts and scores *)

Lemma rep_users_ensure_rep_user (u : Z) (name : string) (now : Z) (db : ledger) (u' : Z) :
  rep_users (ensure_rep_user u name now db) !! u' =
  if decide (u' = u) then
    Some (RepUser.mk (get_rep db u) name (utc_now_iso now))
  else rep_users db !! u'.
Proof.
  unfold ensure_rep_user, get_rep, connect, commit, close, execute. simpl.
  destruct (rep_users db !! u) as [r |] eqn:Hr; simpl;
    (destruct (decide (u' = u)) as [-> | Hne];
     [rewrite lookup_insert_eq; reflexivity | rewrite lookup_insert_ne by congruence; reflexivity]).
Qed.

(** [adjust_rep] on a ledger that holds the account. *)
Lemma adjust_rep_with_account (u delta now : Z) (db : ledger) :
  is_Some (rep_users db !! u) ->
  (fits_int64 (get_rep db u + delta) = true ->
   (adjust_rep u delta now db).1 = Return tt /\
   get_rep (adjust_rep u delta now db).2 u = get_rep db u + delta) /\
  (fits_int64 (get_rep db u + delta) = false ->
   adjust_rep u delta now db = (Raise OverflowError, db)).
Proof.
  intros [r Hr].
  pose proof (adjust_rep_outcome u delta now db) as Hout.
  pose proof (get_rep_adjust_rep u delta now db u) as Hrep.
  rewrite decide_True in Hrep by reflexivity. rewrite Hr in Hout, Hrep.
  split; intros Hfits; rewrite Hfits in Hout, Hrep.
  - split; assumption.
  - destruct (adjust_rep_cases u delta now db) as [H | H]; [| exact H].
    rewrite H in Hout. discriminate Hout.
Qed.

(** X5. [ensure_rep_user] creates the account at score 0 when there is
    none and keeps the score when there is one, touching no other account.
    After it an adjustment applies whenever the new score fits the 64 bits
    of an INTEGER; when it does not fit, [adjust_rep] raises
    [OverflowError] and leaves the ledger as it was. *)
Theorem ensure_rep_user_then_adjust
    (u : Z) (name : string) (now now' delta : Z) (db : ledger) :
  is_Some (rep_users (ensure_rep_user u name now db) !! u) /\
  get_rep (ensure_rep_user u name now db) u = get_rep db u /\
  (forall u', u' <> u ->
     rep_users (ensure_rep_user u name now db) !! u' = rep_users db !! u') /\
  (fits_int64 (get_rep db u + delta) = true ->
   (adjust_rep u delta now' (ensure_rep_user u name now db)).1 = Return tt /\
   get_rep (adjust_rep u delta now' (ensure_rep_user u name now db)).2 u
     = get_rep db u + delta) /\
  (fits_int64 (get_rep db u + delta) = false ->
   adjust_rep u delta now' (ensure_rep_user u name now db)
     = (Raise OverflowError, ensure_rep_user u name now db)).
Proof.
  pose proof (rep_users_ensure_rep_user u name now db u) as Hu.
  rewrite decide_True in Hu by reflexivity.
  assert (Hacct : is_Some (rep_users (ensure_rep_user u name now db) !! u))
    by (rewrite Hu; eexists; reflexivity).
  split; [exact Hacct |].
  assert (Hrep : get_rep (ensure_rep_user u name now db) u = get_rep db u).
  { unfold get_rep at 1. rewrite Hu. reflexivity. }
  split; [exact Hrep |]. split.
  - intros u' Hne. rewrite rep_users_ensure_rep_user, decide_False by exact Hne. reflexivity.
  - pose proof (adjust_rep_with_account u delta now' _ Hacct) as Hadj.
    rewrite Hrep in Hadj. exact Hadj.
Qed.

(** X6. Adjustments of one account add up while the scores fit the 64
    bits of an INTEGER.  From a score that fits, after an adjustment that
    fits: a second adjustment that fits leaves every score as one
    adjustment by the sum would; a second adjustment that does not fit
    raises and leaves the first in place; and the opposite adjustment
    leaves every score where it was at the start, with or without an
    account. *)
Theorem adjust_rep_adds_up (u d1 d2 now1 now2 now3 : Z) (db : ledger) :
  fits_int64 (get_rep db u) = true ->
  fits_int64 (get_rep db u + d1) = true ->
  (fits_int64 (get_rep db u + d1 + d2) = true ->
   forall u', get_rep (adjust_rep u d2 now2 (adjust_rep u d1 now1 db).2).2 u'
              = get_rep (adjust_rep u (d1 + d2) now3 db).2 u') /\
  (fits_int64 (get_rep db u + d1 + d2) = false ->
   is_Some (rep_users db !! u) ->
   adjust_rep u d2 now2 (adjust_rep u d1 now1 db).2
     = (Raise OverflowError, (adjust_rep u d1 now1 db).2) /\
   get_rep (adjust_rep u d1 now1 db).2 u = get_rep db u + d1) /\
  (forall u', get_rep (adjust_rep u (- d1) now2 (adjust_rep u d1 now1 db).2).2 u'
              = get_rep db u').
Proof.
  intros Hfits0 Hfits1.
  assert (Hfirst : get_rep (adjust_rep u d1 now1 db).2 u =
                   match rep_users db !! u with
                   | Some _ => get_rep db u + d1
                   | None => 0
                   end).
  { rewrite get_rep_adjust_rep, decide_True by reflexivity. rewrite Hfits1. reflexivity. }
  assert (Hgen : forall d' n' u',
            get_rep (adjust_rep u d' n' (adjust_rep u d1 now1 db).2).2 u' =
            if decide (u' = u) then
              match rep_users db !! u with
              | Some _ => if fits_int64 (get_rep db u + d1 + d')
                          then get_rep db u + d1 + d' else get_rep db u + d1
              | None => 0
              end
            else get_rep db u').
  { intros d' n' u'. rewrite get_rep_adjust_rep.
    destruct (decide (u' = u)) as [-> | Hne].
    - rewrite Hfirst.
      destruct (rep_users db !! u) as [r |] eqn:Hr.
      + assert (Hs : is_Some (rep_users (adjust_rep u d1 now1 db).2 !! u)).
        { apply account_after_adjust_rep. rewrite Hr. eexists. reflexivity. }
        destruct Hs as [r' ->]. reflexivity.
      + assert (Hn : rep_users (adjust_rep u d1 now1 db).2 !! u = None).
        { apply eq_None_not_Some. intros Hs. apply account_after_adjust_rep in Hs.
          rewrite Hr in Hs. destruct Hs as [x Hx]. discriminate Hx. }
        rewrite Hn. reflexivity.
    - rewrite get_rep_adjust_rep, decide_False by exact Hne. reflexivity. }
  split; [| split].
  - intros Hfits2 u'. rewrite Hgen, get_rep_adjust_rep.
    destruct (decide (u' = u)); [| reflexivity].
    destruct (rep_users db !! u); [| reflexivity].
    rewrite Hfits2. rewrite Z.add_assoc, Hfits2. reflexivity.
  - intros Hfits2 Hacct.
    assert (Hacct1 : is_Some (rep_users (adjust_rep u d1 now1 db).2 !! u))
      by (apply account_after_adjust_rep; exact Hacct).
    destruct Hacct as [r Hr]. rewrite Hr in Hfirst.
    split; [| exact Hfirst].
    apply (adjust_rep_with_account u d2 now2 _ Hacct1). rewrite Hfirst. exact Hfits2.
  - intros u'. rewrite Hgen.
    destruct (decide (u' = u)) as [-> | _]; [| reflexivity].
    destruct (rep_users db !! u) as [r |] eqn:Hr.
    + replace (get_rep db u + d1 + - d1) with (get_rep db u) by lia.
      rewrite Hfits0. reflexivity.
    + unfold get_rep. rewrite Hr. reflexivity.
Qed.

Lemma adjust_rep_adds_up_witness :
  fits_int64 (get_rep tracked_author 1) = true /\
  fits_int64 (get_rep tracked_author 1 + 3) = true /\
  fits_int64 (get_rep tracked_author 1 + 3 + -5) = true /\
  get_rep (adjust_rep 1 (-5) 2000000 (adjust_rep 1 3 1000000 tracked_author).2).2 1
    = get_rep (adjust_rep 1 (3 + -5) 3000000 tracked_author).2 1 /\
  get_rep (adjust_rep 1 (- 3) 2000000 (adjust_rep 1 3 1000000 tracked_author).2).2 1
    = get_rep tracked_author 1.
Proof.
  assert (H0 : fits_int64 (get_rep tracked_author 1) = true) by reflexivity.
  assert (H1 : fits_int64 (get_rep tracked_author 1 + 3) = true) by reflexivity.
  assert (H2 : fits_int64 (get_rep tracked_author 1 + 3 + -5) = true) by reflexivity.
  repeat (split; [assumption |]).
  destruct (adjust_rep_adds_up 1 3 (-5) 1000000 2000000 3000000 tracked_author H0 H1)
    as (Hsum & _ & Hback).
  split; [exact (Hsum H2 1) | exact (Hback 1)].
Defined.


(** ** Scores against stored votes *)

Lemma sum_votes_insert_fresh (votes : gmap (Z * Z) Z) (k : Z * Z) (x : Z) :
  votes !! k = None -> sum_votes (<[k:=x]> votes) = x + sum_votes votes.
Proof.
  intros Hk. unfold sum_votes.
  rewrite map_fold_insert_L; [reflexivity | | exact Hk].
  intros j1 j2 z1 z2 y _ _ _. lia.
Qed.

Lemma sum_votes_delete (votes : gmap (Z * Z) Z) (k : Z * Z) :
  sum_votes (delete k votes) = sum_votes votes - or_0 (votes !! k).
Proof.
  destruct (votes !! k) as [y |] eqn:Hk.
  - unfold sum_votes at 2.
    rewrite (map_fold_delete_L _ _ k y votes); [| intros; lia | exact Hk].
    fold (sum_votes (delete k votes)). unfold or_0. simpl. lia.
  - rewrite delete_id by exact Hk. unfold or_0. simpl. lia.
Qed.

Lemma sum_votes_insert (votes : gmap (Z * Z) Z) (k : Z * Z) (x : Z) :
  sum_votes (<[k:=x]> votes) = sum_votes votes - or_0 (votes !! k) + x.
Proof.
  rewrite <- insert_delete_eq.
  rewrite sum_votes_insert_fresh by apply lookup_delete_eq.
  rewrite sum_votes_delete. lia.
Qed.

Lemma votes_on_lookup (m u : Z) (db : ledger) :
  votes_on m db !! (m, u) = get_vote db m u.
Proof.
  unfold votes_on, get_vote. destruct (rep_votes db !! (m, u)) as [x |] eqn:Hx.
  - apply map_lookup_filter_Some. split; [exact Hx | reflexivity].
  - apply map_lookup_filter_None. left. exact Hx.
Qed.

(** The votes on [m] are the same in two ledgers that answer [get_vote]
    alike on [m]. *)
Lemma votes_on_ext (m : Z) (a b : ledger) :
  (forall v, get_vote a m v = get_vote b m v) -> votes_on m a = votes_on m b.
Proof.
  intros Hsame. unfold votes_on. apply map_eq. intros [m' v].
  destruct (decide (m' = m)) as [-> | Hne].
  - specialize (Hsame v). unfold get_vote in Hsame.
    destruct (rep_votes b !! (m, v)) as [x |] eqn:Hx.
    + transitivity (Some x); [| symmetry];
        apply map_lookup_filter_Some; (split; [| reflexivity]); [exact Hsame | exact Hx].
    + transitivity (@None Z); [| symmetry];
        apply map_lookup_filter_None; left; [exact Hsame | exact Hx].
  - transitivity (@None Z); [| symmetry];
      apply map_lookup_filter_None; right; intros x _; simpl; exact Hne.
Qed.

Lemma vote_sum_after_vote_write (w : ledger -> ledger) (db : ledger)
    (author delta : Z) (clock : Readings.t) (m : Z) (msg : RepMessage.t) :
  rep_messages (w db) = rep_messages db ->
  get_rep_message db m = Some msg ->
  within_rep_window (RepMessage.created_at msg) (Readings.prune clock) = true ->
  vote_sum m (adjust_then_prune author delta clock (w db)).2 = vote_sum m (w db).
Proof.
  intros Hm Hmsg Hwin. unfold vote_sum. f_equal. apply votes_on_ext.
  pose proof (stored_after_vote_write w db Hm author delta clock m msg Hmsg) as Hstored.
  cbv zeta in Hstored. apply within_window_not_expired in Hwin.
  destruct Hstored as [(_ & Hexp & _) | (_ & _ & Hvotes)]; [congruence | exact Hvotes].
Qed.

Lemma vote_sum_set_vote (m u x : Z) (db : ledger) :
  vote_sum m (set_vote m u x db) = vote_sum m db - or_0 (get_vote db m u) + x.
Proof.
  unfold vote_sum. rewrite <- votes_on_lookup, <- sum_votes_insert.
  f_equal. unfold votes_on, set_vote, connect, commit, close, execute. simpl.
  apply map_filter_insert_True. reflexivity.
Qed.

Lemma vote_sum_delete_vote (m u : Z) (db : ledger) :
  vote_sum m (delete_vote m u db) = vote_sum m db - or_0 (get_vote db m u).
Proof.
  unfold vote_sum. rewrite <- votes_on_lookup, <- sum_votes_delete.
  f_equal. unfold votes_on, delete_vote, connect, commit, close, execute. simpl.
  apply map_filter_delete.
Qed.

(** X8. The conservation law of the listeners.  Take a tracked message
    that is inside the window both at the reading of the window check and
    at the reading of [prune_rep], whose author has an account, and a
    reaction event on it by any user with any emoji (the bot or the author
    included) for which the adjusted score would fit the 64 bits of an
    INTEGER.  Then the handler returns, the author's score moves by
    exactly as much as the sum of the votes stored on that message, and no
    other score moves. *)
Theorem reaction_conserves_votes
    (bot_user : option Z) (payload : Payload.t) (clock : Readings.t) (db : ledger)
    (msg : RepMessage.t) :
  get_rep_message db (Payload.message_id payload) = Some msg ->
  within_rep_window (RepMessage.created_at msg) (Readings.window clock) = true ->
  within_rep_window (RepMessage.created_at msg) (Readings.prune clock) = true ->
  is_Some (rep_users db !! RepMessage.author_id msg) ->
  fits_int64 (get_rep db (RepMessage.author_id msg)
              + (vote_of (Payload.emoji payload)
                 - or_0 (get_vote db (Payload.message_id payload) (Payload.user_id payload))))
    = true ->
  fits_int64 (get_rep db (RepMessage.author_id msg) - vote_of (Payload.emoji payload)) = true ->
  let m := Payload.message_id payload in
  let author := RepMessage.author_id msg in
  ((on_raw_reaction_add bot_user payload clock db).1 = Return tt /\
   get_rep (on_raw_reaction_add bot_user payload clock db).2 author - get_rep db author
     = vote_sum m (on_raw_reaction_add bot_user payload clock db).2 - vote_sum m db /\
   forall u', u' <> author ->
     get_rep (on_raw_reaction_add bot_user payload clock db).2 u' = get_rep db u') /\
  ((on_raw_reaction_remove payload clock db).1 = Return tt /\
   get_rep (on_raw_reaction_remove payload clock db).2 author - get_rep db author
     = vote_sum m (on_raw_reaction_remove payload clock db).2 - vote_sum m db /\
   forall u', u' <> author ->
     get_rep (on_raw_reaction_remove payload clock db).2 u' = get_rep db u').
Proof.
  intros Hmsg Hwin Hkept [r Hr] Hfits_add Hfits_remove. cbv zeta.
  set (author := RepMessage.author_id msg) in *.
  set (m := Payload.message_id payload) in *.
  assert (Hsame : (@Return unit tt, db).1 = Return tt /\
                  get_rep (@Return unit tt, db).2 author - get_rep db author
                    = vote_sum m (@Return unit tt, db).2 - vote_sum m db /\
                  forall u', u' <> author -> get_rep (@Return unit tt, db).2 u' = get_rep db u')
    by (cbn [fst snd]; split; [reflexivity | split; [lia | reflexivity]]).
  assert (Hwrite : forall (w : ledger -> ledger) delta,
            rep_users (w db) = rep_users db ->
            rep_messages (w db) = rep_messages db ->
            fits_int64 (get_rep db author + delta) = true ->
            vote_sum m (w db) = vote_sum m db + delta ->
            (adjust_then_prune author delta clock (w db)).1 = Return tt /\
            get_rep (adjust_then_prune author delta clock (w db)).2 author - get_rep db author
              = vote_sum m (adjust_then_prune author delta clock (w db)).2 - vote_sum m db /\
            forall u', u' <> author ->
              get_rep (adjust_then_prune author delta clock (w db)).2 u' = get_rep db u').
  { intros w delta Hu Hm Hfits Hsum.
    split; [| split].
    - rewrite (outcome_after_vote_write w db Hu), Hr, Hfits. reflexivity.
    - rewrite (get_rep_after_vote_write w db Hu), decide_True by reflexivity.
      rewrite Hr, Hfits.
      rewrite (vote_sum_after_vote_write w db author delta clock m msg Hm Hmsg Hkept).
      rewrite Hsum. lia.
    - intros u' Hne. rewrite (get_rep_after_vote_write w db Hu), decide_False by exact Hne.
      reflexivity. }
  destruct payload as [pm u emoji].
  cbn [Payload.message_id Payload.user_id Payload.emoji] in *. subst m.
  split.
  - destruct (decide (bot_user = Some u)) as [Hbot | Hbot].
    { unfold on_raw_reaction_add. cbn [Payload.user_id].
      rewrite decide_True by exact Hbot. exact Hsame. }
    destruct (decide (emoji = THUMBS_UP \/ emoji = THUMBS_DOWN)) as [Hemoji | Hemoji].
    2:{ destruct (other_emoji_dropped bot_user (Payload.mk pm u emoji) clock db Hemoji)
          as [-> _]. exact Hsame. }
    destruct (decide (u = author)) as [Hself | Hother].
    { rewrite (self_vote_unchanged bot_user (Payload.mk pm u emoji) clock db msg
                 Hmsg Hself Hwin). exact Hsame. }
    rewrite (on_raw_reaction_add_applies bot_user (Payload.mk pm u emoji) clock db msg
               Hbot Hemoji Hmsg Hwin Hother).
    cbn [Payload.message_id Payload.user_id Payload.emoji]. cbv zeta. fold author.
    destruct (decide (get_vote db pm u = Some (vote_of emoji))) as [Heq | Hne];
      [exact Hsame |].
    destruct (set_vote_tables pm u (vote_of emoji) db) as [Hu Hm].
    apply Hwrite; [exact Hu | exact Hm | exact Hfits_add |].
    rewrite vote_sum_set_vote. lia.
  - destruct (decide (emoji = THUMBS_UP \/ emoji = THUMBS_DOWN)) as [Hemoji | Hemoji].
    2:{ destruct (other_emoji_dropped bot_user (Payload.mk pm u emoji) clock db Hemoji)
          as [_ ->]. exact Hsame. }
    rewrite (on_raw_reaction_remove_applies (Payload.mk pm u emoji) clock db msg
               Hemoji Hmsg Hwin).
    cbn [Payload.message_id Payload.user_id Payload.emoji]. cbv zeta. fold author.
    destruct (decide (get_vote db pm u = Some (vote_of emoji))) as [Heq | Hne];
      [| exact Hsame].
    destruct (delete_vote_tables pm u db) as [Hu Hm].
    apply Hwrite; [exact Hu | exact Hm | exact Hfits_remove |].
    rewrite vote_sum_delete_vote, Heq. unfold or_0. simpl. lia.
Qed.

Lemma reaction_conserves_votes_witness :
  get_rep_message voted_up 50 = Some alice_message /\
  within_rep_window (RepMessage.created_at alice_message)
    (Readings.window (at_reading 20000000)) = true /\
  within_rep_window (RepMessage.created_at alice_message)
    (Readings.prune (at_reading 20000000)) = true /\
  is_Some (rep_users voted_up !! RepMessage.author_id alice_message) /\
  get_rep (on_raw_reaction_add (Some 99) (Payload.mk 50 2 THUMBS_DOWN) (at_reading 20000000)
             voted_up).2 1
    - get_rep voted_up 1
  = vote_sum 50 (on_raw_reaction_add (Some 99) (Payload.mk 50 2 THUMBS_DOWN)
                   (at_reading 20000000) voted_up).2
    - vote_sum 50 voted_up.
Proof.
  assert (Hmsg : get_rep_message voted_up 50 = Some alice_message) by reflexivity.
  assert (Hwin : within_rep_window (RepMessage.created_at alice_message)
                   (Readings.window (at_reading 20000000)) = true) by reflexivity.
  assert (Hkept : within_rep_window (RepMessage.created_at alice_message)
                    (Readings.prune (at_reading 20000000)) = true) by reflexivity.
  assert (Hacct : is_Some (rep_users voted_up !! RepMessage.author_id alice_message))
    by (eexists; reflexivity).
  repeat (split; [assumption |]).
  destruct (reaction_conserves_votes (Some 99) (Payload.mk 50 2 THUMBS_DOWN)
              (at_reading 20000000) voted_up alice_message Hmsg Hwin Hkept Hacct
              eq_refl eq_refl) as [(_ & Hadd & _) _].
  exact Hadd.
Defined.

(** X9. What the listeners never do.  Whatever the event and whether the
    handler returns or raises, neither listener touches the quota rows,
    creates or deletes an account, or adds a tracked message: the accounts
    after are the accounts before, and the messages after are among the
    messages before. *)
Theorem reaction_frame
    (bot_user : option Z) (payload : Payload.t) (clock : Readings.t) (db : ledger) :
  (broadcast_actions (on_raw_reaction_add bot_user payload clock db).2 = broadcast_actions db /\
   (forall u, is_Some (rep_users (on_raw_reaction_add bot_user payload clock db).2 !! u)
              <-> is_Some (rep_users db !! u)) /\
   rep_messages (on_raw_reaction_add bot_user payload clock db).2 ⊆ rep_messages db) /\
  (broadcast_actions (on_raw_reaction_remove payload clock db).2 = broadcast_actions db /\
   (forall u, is_Some (rep_users (on_raw_reaction_remove payload clock db).2 !! u)
              <-> is_Some (rep_users db !! u)) /\
   rep_messages (on_raw_reaction_remove payload clock db).2 ⊆ rep_messages db).
Proof.
  assert (Hsame : broadcast_actions (@Return unit tt, db).2 = broadcast_actions db /\
                  (forall u, is_Some (rep_users (@Return unit tt, db).2 !! u)
                             <-> is_Some (rep_users db !! u)) /\
                  rep_messages (@Return unit tt, db).2 ⊆ rep_messages db)
    by (cbn [snd]; split; [reflexivity | split; [reflexivity | reflexivity]]).
  assert (Hstale : forall m,
            let db' := (@Return unit tt,
                        prune_rep (Readings.prune clock) (delete_rep_message m db)).2 in
            broadcast_actions db' = broadcast_actions db /\
            (forall u, is_Some (rep_users db' !! u) <-> is_Some (rep_users db !! u)) /\
            rep_messages db' ⊆ rep_messages db).
  { intros m. cbn [snd].
    destruct (prune_rep_tables (Readings.prune clock) (delete_rep_message m db))
      as (Hu & Ha & _ & Hm).
    destruct (delete_rep_message_tables m db) as (Hu' & Ha' & _ & Hm').
    split; [congruence |]. split.
    - intros u. rewrite Hu, Hu'. reflexivity.
    - rewrite Hm.
      transitivity (rep_messages (delete_rep_message m db)); [apply map_filter_subseteq |].
      rewrite Hm'. apply map_filter_subseteq. }
  assert (Hwrite : forall (w : ledger -> ledger) author delta,
            rep_users (w db) = rep_users db ->
            rep_messages (w db) = rep_messages db ->
            broadcast_actions (w db) = broadcast_actions db ->
            broadcast_actions (adjust_then_prune author delta clock (w db)).2
              = broadcast_actions db /\
            (forall u, is_Some (rep_users (adjust_then_prune author delta clock (w db)).2 !! u)
                       <-> is_Some (rep_users db !! u)) /\
            rep_messages (adjust_then_prune author delta clock (w db)).2 ⊆ rep_messages db).
  { intros w author delta Hwu Hwm Hwa.
    split; [| split].
    - rewrite adjust_then_prune_snd.
      destruct (adjust_rep_tables author delta (Readings.adjust clock) (w db))
        as (_ & _ & Ha').
      destruct ((adjust_rep author delta (Readings.adjust clock) (w db)).1); [| exact Hwa].
      destruct (prune_rep_tables (Readings.prune clock)
                  (adjust_rep author delta (Readings.adjust clock) (w db)).2) as (_ & -> & _).
      congruence.
    - intros u. apply account_after_vote_write. exact Hwu.
    - rewrite adjust_then_prune_snd.
      destruct (adjust_rep_tables author delta (Readings.adjust clock) (w db))
        as (Hm' & _ & _).
      destruct ((adjust_rep author delta (Readings.adjust clock) (w db)).1);
        [| rewrite Hwm; reflexivity].
      destruct (prune_rep_tables (Readings.prune clock)
                  (adjust_rep author delta (Readings.adjust clock) (w db)).2)
        as (_ & _ & _ & ->).
      rewrite Hm', Hwm. apply map_filter_subseteq. }
  unfold adjust_then_prune in Hwrite.
  split.
  - unfold on_raw_reaction_add.
    destruct (decide (bot_user = _)); [exact Hsame |].
    destruct (decide (_ \/ _)); [| exact Hsame].
    destruct (get_rep_message db (Payload.message_id payload)) as [msg |]; [| exact Hsame].
    destruct (within_rep_window _ (Readings.window clock)); cbn [negb]; [| apply Hstale].
    destruct (decide (Payload.user_id payload = _)); [exact Hsame |].
    destruct (decide (get_vote db _ _ = _)); [exact Hsame |].
    apply Hwrite; reflexivity.
  - unfold on_raw_reaction_remove.
    destruct (decide (_ \/ _)); [| exact Hsame].
    destruct (get_rep_message db (Payload.message_id payload)) as [msg |]; [| exact Hsame].
    destruct (within_rep_window _ (Readings.window clock)); cbn [negb]; [| apply Hstale].
    destruct (decide (get_vote db _ _ = _)); [| exact Hsame].
    apply Hwrite; reflexivity.
Qed.

(** * Further properties of the broadcast quota *)

Lemma int_total_seconds_floor (td : Z) :
  0 <= td ->
  timedelta_seconds (int_total_seconds td) <= td
  < timedelta_seconds (int_total_seconds td) + US_PER_SECOND.
Proof.
  intros Htd. unfold int_total_seconds, timedelta_seconds, US_PER_SECOND.
  rewrite Z.quot_div_nonneg by lia.
  pose proof (Z.div_mod td 1000000 ltac:(lia)).
  pose proof (Z.mod_pos_bound td 1000000 ltac:(lia)). lia.
Qed.

(** X10. What one call leaves behind.  A call that is denied, or that
    raises, leaves the database exactly as it was.  An allowed call
    returns a wait of 0, removes the rows whose [used_at] sorts before
    two days ago and appends one row for the caller stamped with the
    clock, so that no timestamp older than two days is left; it touches no
    other table. *)
Theorem quota_call_effect
    (raw_lt_iso : string -> Z -> bool) (user max_actions window now : Z) (db : ledger) :
  let r := check_and_consume_broadcast_quota raw_lt_iso user max_actions window now db in
  (forall retry, r.1 = Return (false, retry) -> r.2 = db) /\
  (forall e, r.1 = Raise e -> r.2 = db) /\
  (forall retry, r.1 = Return (true, retry) ->
     retry = 0 /\
     broadcast_actions r.2 =
       delete_used_before raw_lt_iso (isoformat (now - timedelta_days 2)) (broadcast_actions db)
       ++ [BroadcastAction.mk user (isoformat now)] /\
     (forall row t, row ∈ broadcast_actions r.2 -> BroadcastAction.used_at row = Iso t ->
                    now - timedelta_days 2 <= t) /\
     rep_users r.2 = rep_users db /\
     rep_messages r.2 = rep_messages db /\
     rep_votes r.2 = rep_votes db /\
     maintenance r.2 = maintenance db).
Proof.
  intros r. subst r. rewrite check_and_consume_cases.
  destruct (_ <=? _).
  - destruct (rows_in_window _ _ _ _ _) as [| oldest_iso rest]; simpl;
      (split; [reflexivity || (intros; reflexivity) |]);
      (split; [intros; reflexivity | intros retry H; discriminate H]).
  - cbn [fst snd]. split; [intros retry H; discriminate H |].
    split; [intros e H; discriminate H |].
    intros retry H. injection H as <-.
    split; [reflexivity |]. split; [reflexivity |]. split; [| auto].
    intros row t Hin Ht. cbn [broadcast_actions with_broadcast_actions] in Hin.
    apply elem_of_app in Hin as [Hin | Hin].
    + apply list_elem_of_filter in Hin as [Hkeep _].
      rewrite Ht in Hkeep. simpl in Hkeep. apply Z.ltb_ge in Hkeep.
      unfold timedelta_days in *. exact Hkeep.
    + apply list_elem_of_singleton in Hin. subst row. simpl in Ht. injection Ht as <-.
      unfold timedelta_days, US_PER_SECOND. lia.
Qed.

(** X11. [rows[0]] raises exactly when [max_actions] is zero or negative
    and the caller has no row in the window.  The policy table always
    yields at least one action and a window between one second and the
    retention, so a call made with its limits never raises. *)
Theorem quota_raises_only_without_quota
    (raw_lt_iso : string -> Z -> bool) (user max_actions window now : Z) (db : ledger) :
  ((check_and_consume_broadcast_quota raw_lt_iso user max_actions window now db).1
     = Raise IndexError
   <-> max_actions <= 0 /\ rows_in_window raw_lt_iso user window now db = []) /\
  (forall rep,
     1 <= (_limits_for_rep rep).1 /\
     1 <= (_limits_for_rep rep).2 <= RETENTION_SECONDS /\
     (check_and_consume_broadcast_quota raw_lt_iso user
        (_limits_for_rep rep).1 (_limits_for_rep rep).2 now db).1 <> Raise IndexError).
Proof.
  assert (Hiff : forall max_actions window,
            (check_and_consume_broadcast_quota raw_lt_iso user max_actions window now db).1
              = Raise IndexError
            <-> max_actions <= 0 /\ rows_in_window raw_lt_iso user window now db = []).
  { intros ma w. rewrite check_and_consume_cases.
    destruct (Z.leb_spec ma (Z.of_nat (length (rows_in_window raw_lt_iso user w now db))))
      as [Hfull | Hroom].
    - destruct (rows_in_window raw_lt_iso user w now db) as [| oldest_iso rest] eqn:Hrows;
        simpl in *.
      + split; [intros _; split; [lia | reflexivity] | reflexivity].
      + split; [intros H; discriminate H | intros [_ H]; discriminate H].
    - simpl. split; [intros H; discriminate H |].
      intros [Hle Hnil]. rewrite Hnil in Hroom. simpl in Hroom. lia. }
  split; [apply Hiff |].
  intros rep.
  assert (Hlim : 1 <= (_limits_for_rep rep).1 /\
                 1 <= (_limits_for_rep rep).2 <= RETENTION_SECONDS).
  { unfold _limits_for_rep, RETENTION_SECONDS.
    repeat match goal with
           | |- context [?x <=? ?y] => destruct (Z.leb_spec x y)
           end; simpl; lia. }
  destruct Hlim as [Hmax Hwin]. split; [exact Hmax |]. split; [exact Hwin |].
  intros Hraise. apply Hiff in Hraise as [Hle _]. lia.
Qed.

Section RetryBounds.

Variable raw_lt_iso : string -> Z -> bool.

(** The rows fetched at a later reading are the rows fetched now, while
    the window has not slid past the oldest of them. *)
Lemma rows_in_window_later (user window now now' : Z) (db : ledger) :
  well_formed_actions db ->
  window <= RETENTION_SECONDS ->
  now <= now' ->
  (forall t, Iso t ∈ rows_in_window raw_lt_iso user window now db ->
             now' - timedelta_seconds window <= t) ->
  rows_in_window raw_lt_iso user window now' db
  = rows_in_window raw_lt_iso user window now db.
Proof.
  intros Hwf Hw Hle Hold.
  assert (Hold' : forall t, BroadcastAction.mk user (Iso t) ∈ broadcast_actions db ->
                            now - timedelta_seconds window <= t ->
                            now' - timedelta_seconds window <= t).
  { intros t Hin Hsince. apply Hold. apply elem_of_rows_in_window; [exact Hw |].
    split; assumption. }
  clear Hold. unfold rows_in_window, select_used_at.
  cbn [broadcast_actions with_broadcast_actions].
  do 2 f_equal. unfold delete_used_before, isoformat.
  unfold well_formed_actions in Hwf.
  induction (broadcast_actions db) as [| r rows IH]; [reflexivity |].
  assert (Hr : exists t, BroadcastAction.used_at r = Iso t)
    by (apply Hwf, list_elem_of_here).
  assert (IH' : filter (in_window raw_lt_iso user (Iso (now' - timedelta_seconds window)))
                  (filter (fun r => text_ltb raw_lt_iso (BroadcastAction.used_at r)
                                      (Iso (now' - timedelta_days 2)) = false) rows)
                = filter (in_window raw_lt_iso user (Iso (now - timedelta_seconds window)))
                    (filter (fun r => text_ltb raw_lt_iso (BroadcastAction.used_at r)
                                        (Iso (now - timedelta_days 2)) = false) rows)).
  { apply IH.
    - intros r' Hr'. apply Hwf, list_elem_of_further, Hr'.
    - intros t Hin. apply Hold', list_elem_of_further, Hin. }
  clear IH. destruct Hr as [t Ht]. destruct r as [u' x]. simpl in Ht. subst x.
  specialize (Hold' t).
  assert (Hdays : timedelta_seconds window <= timedelta_days 2)
    by (unfold timedelta_seconds, timedelta_days, RETENTION_SECONDS, US_PER_SECOND in *; lia).
  rewrite !(filter_cons _ (BroadcastAction.mk u' (Iso t))). simpl.
  destruct (Z.ltb_spec t (now' - timedelta_days 2)) as [Hold2 | Hnew2];
    destruct (Z.ltb_spec t (now - timedelta_days 2)) as [Hold1 | Hnew1];
    simpl; try lia.
  - exact IH'.
  - rewrite filter_cons. rewrite decide_False; [exact IH' |].
    intros [Hu Hsince]. simpl in Hu, Hsince. subst u'. apply Z.ltb_ge in Hsince.
    specialize (Hold' (list_elem_of_here _ _) Hsince). lia.
  - rewrite !filter_cons.
    destruct (decide (in_window raw_lt_iso user (Iso (now - timedelta_seconds window))
                        (BroadcastAction.mk u' (Iso t)))) as [[Hu Hsince] | Hout].
    + simpl in Hu, Hsince. subst u'. apply Z.ltb_ge in Hsince.
      specialize (Hold' (list_elem_of_here _ _) Hsince).
      rewrite decide_True; [rewrite IH'; reflexivity |].
      split; [reflexivity | simpl; apply Z.ltb_ge; exact Hold'].
    + rewrite decide_False; [exact IH' |].
      intros [Hu Hsince]. apply Hout. split; [exact Hu |].
      simpl in *. apply Z.ltb_ge in Hsince. apply Z.ltb_ge. lia.
Qed.

End RetryBounds.

(** X12. The wait a denial reports is at least one second; on a ledger of
    timestamps none of which is later than the clock it is at most the
    window (or one second, for a window shorter than that). *)
Theorem retry_after_bounds
    (raw_lt_iso : string -> Z -> bool) (user max_actions window now retry : Z) (db : ledger) :
  (check_and_consume_broadcast_quota raw_lt_iso user max_actions window now db).1
    = Return (false, retry) ->
  1 <= retry /\
  (well_formed_actions db ->
   window <= RETENTION_SECONDS ->
   (forall t, BroadcastAction.mk user (Iso t) ∈ broadcast_actions db -> t <= now) ->
   retry <= Z.max 1 window).
Proof.
  intros Hres. split.
  - rewrite check_and_consume_cases in Hres.
    destruct (_ <=? _); [| discriminate Hres].
    destruct (rows_in_window _ _ _ _ _) as [| oldest_iso rest]; [discriminate Hres |].
    simpl in Hres. injection Hres as <-.
    destruct (parse_iso_utc oldest_iso); lia.
  - intros Hwf Hw Hpast.
    destruct (denied_retry_after raw_lt_iso user max_actions window now retry db Hwf Hw Hres)
      as (oldest & (Hin & Hsince & _) & ->).
    specialize (Hpast oldest Hin).
    assert (Hd : 0 <= oldest + timedelta_seconds window - now) by lia.
    pose proof (int_total_seconds_floor _ Hd) as Hfloor.
    unfold timedelta_seconds, US_PER_SECOND in *. lia.
Qed.

Lemma retry_after_bounds_witness :
  (check_and_consume_broadcast_quota letters_after_digits 2 1 3600
     (timedelta_days 2 + TEN_MINUTES) after_second_call).1 = Return (false, 2400) /\
  1 <= 2400 /\
  (well_formed_actions after_second_call ->
   3600 <= RETENTION_SECONDS ->
   (forall t, BroadcastAction.mk 2 (Iso t) ∈ broadcast_actions after_second_call ->
              t <= timedelta_days 2 + TEN_MINUTES) ->
   2400 <= Z.max 1 3600).
Proof.
  split; [reflexivity |].
  exact (retry_after_bounds letters_after_digits 2 1 3600 (timedelta_days 2 + TEN_MINUTES)
           2400 after_second_call eq_refl).
Defined.

(** X13. The reported wait falls short.  On a ledger of timestamps, a
    caller denied with a wait of two seconds or more who calls again
    exactly that many seconds later (nothing else having run) is denied
    again, with a wait of one second: the wait is truncated to whole
    seconds and the window bound is inclusive, so the oldest row is still
    inside the window. *)
Theorem retry_at_reported_time_denied
    (raw_lt_iso : string -> Z -> bool) (user max_actions window now retry : Z) (db : ledger) :
  well_formed_actions db ->
  window <= RETENTION_SECONDS ->
  check_and_consume_broadcast_quota raw_lt_iso user max_actions window now db
    = (Return (false, retry), db) ->
  2 <= retry ->
  check_and_consume_broadcast_quota raw_lt_iso user max_actions window
    (now + timedelta_seconds retry) db
  = (Return (false, 1), db).
Proof.
  intros Hwf Hw Hcall Hretry.
  assert (Hres : (check_and_consume_broadcast_quota raw_lt_iso user max_actions window now db).1
                 = Return (false, retry)) by (rewrite Hcall; reflexivity).
  destruct (denied_retry_after raw_lt_iso user max_actions window now retry db Hwf Hw Hres)
    as (oldest & (Hin & Hsince & Hmin) & Hval).
  assert (Hd : 0 <= oldest + timedelta_seconds window - now) by lia.
  pose proof (int_total_seconds_floor _ Hd) as Hfloor.
  assert (Hq : int_total_seconds (oldest + timedelta_seconds window - now) = retry) by lia.
  rewrite Hq in Hfloor.
  assert (Hrows : rows_in_window raw_lt_iso user window (now + timedelta_seconds retry) db
                  = rows_in_window raw_lt_iso user window now db).
  { apply rows_in_window_later; [exact Hwf | exact Hw | |].
    - unfold timedelta_seconds, US_PER_SECOND. lia.
    - intros t Ht. apply elem_of_rows_in_window in Ht as [Ht Hs]; [| exact Hw].
      specialize (Hmin t Ht Hs). lia. }
  assert (Hhead : head_earliest (rows_in_window raw_lt_iso user window now db))
    by exact (order_by_used_at_head raw_lt_iso _
                (rows_in_window_renderings raw_lt_iso user window now db Hwf)).
  rewrite check_and_consume_cases in Hcall |- *. rewrite Hrows.
  destruct (_ <=? _); [| discriminate Hcall].
  destruct (rows_in_window raw_lt_iso user window now db) as [| oldest_iso rest] eqn:Hlist;
    [discriminate Hcall |].
  destruct Hhead as [th [-> Hth]]. simpl in Hcall |- *.
  assert (Hsame : th = oldest).
  { assert (H1 : th <= oldest).
    { apply Hth. rewrite <- Hlist. apply elem_of_rows_in_window; [exact Hw |].
      split; assumption. }
    assert (H2 : Iso th ∈ rows_in_window raw_lt_iso user window now db)
      by (rewrite Hlist; apply list_elem_of_here).
    apply elem_of_rows_in_window in H2 as [H2 H3]; [| exact Hw].
    specialize (Hmin th H2 H3). lia. }
  subst th. do 3 f_equal.
  assert (Hd' : 0 <= oldest + timedelta_seconds window - (now + timedelta_seconds retry))
    by (unfold timedelta_seconds in *; lia).
  pose proof (int_total_seconds_floor _ Hd') as Hfloor'.
  unfold timedelta_seconds, US_PER_SECOND in *. lia.
Qed.

Lemma retry_at_reported_time_denied_witness :
  well_formed_actions after_second_call /\
  3600 <= RETENTION_SECONDS /\
  check_and_consume_broadcast_quota letters_after_digits 2 1 3600
    (timedelta_days 2 + TEN_MINUTES) after_second_call
    = (Return (false, 2400), after_second_call) /\
  2 <= 2400 /\
  check_and_consume_broadcast_quota letters_after_digits 2 1 3600
    (timedelta_days 2 + TEN_MINUTES + timedelta_seconds 2400) after_second_call
    = (Return (false, 1), after_second_call).
Proof.
  assert (Hwf : well_formed_actions after_second_call).
  { intros r Hr. rewrite after_second_call_rows in Hr.
    repeat (apply elem_of_cons in Hr as [-> | Hr]; [eexists; reflexivity |]).
    apply elem_of_nil in Hr. contradiction. }
  assert (Hw : 3600 <= RETENTION_SECONDS) by (unfold RETENTION_SECONDS; lia).
  assert (Hcall : check_and_consume_broadcast_quota letters_after_digits 2 1 3600
                    (timedelta_days 2 + TEN_MINUTES) after_second_call
                  = (Return (false, 2400), after_second_call)) by reflexivity.
  assert (Hretry : 2 <= 2400) by lia.
  repeat (split; [assumption |]).
  apply (retry_at_reported_time_denied letters_after_digits 2 1 3600
           (timedelta_days 2 + TEN_MINUTES) 2400 after_second_call Hwf Hw Hcall Hretry).
Defined.

(** * Further properties of the callers *)

(** ** The prune throttle *)

(** X14. [_should_prune_rep] against [prune_rep].  After a prune at the
    reading [now] the throttle answers by the time elapsed since the whole
    second of [now]: no prune is due up to [min_interval] less one second
    after it, one is due from [min_interval] after it.  Without the
    maintenance row [prune_rep] cannot record its run and a prune is due
    at every call; it is also due on a fresh database. *)
Theorem should_prune_after_prune (now now' min_interval : Z) (db : ledger) :
  (maintenance db = None ->
   _should_prune_rep now' min_interval (prune_rep now db) = true) /\
  (is_Some (maintenance db) ->
   _should_prune_rep now' min_interval (prune_rep now db)
     = (timedelta_seconds min_interval <=? now' - whole_second now) /\
   (now' <= now + timedelta_seconds (min_interval - 1) ->
    _should_prune_rep now' min_interval (prune_rep now db) = false) /\
   (now + timedelta_seconds min_interval <= now' ->
    _should_prune_rep now' min_interval (prune_rep now db) = true)) /\
  _should_prune_rep now' min_interval init = true.
Proof.
  assert (Hmark : is_Some (maintenance db) ->
            _should_prune_rep now' min_interval (prune_rep now db)
            = (timedelta_seconds min_interval <=? now' - whole_second now)).
  { intros [x Hx]. unfold _should_prune_rep, get_last_prune.
    rewrite maintenance_prune_rep, Hx. reflexivity. }
  split; [| split; [| reflexivity]].
  - intros Hnone. unfold _should_prune_rep, get_last_prune.
    rewrite maintenance_prune_rep, Hnone. reflexivity.
  - intros Hsome. rewrite (Hmark Hsome).
    pose proof (whole_second_bounds now) as Hsec.
    split; [reflexivity |]. split.
    + intros Hle. apply Z.leb_gt. unfold timedelta_seconds, US_PER_SECOND in *. lia.
    + intros Hle. apply Z.leb_le. unfold timedelta_seconds, US_PER_SECOND in *. lia.
Qed.

(** ** The tiers shown to the user *)

Section TierDisplay.

Variable math_log_floor : Q -> Q -> Z.
Hypothesis math_log_floor_ok : log_floor_accurate math_log_floor.

Lemma rep_level_le (a b : Z) :
  a <= b -> rep_level math_log_floor a <= rep_level math_log_floor b.
Proof.
  intros Hab.
  destruct (Z.le_gt_cases (rep_level math_log_floor a) (rep_level math_log_floor b))
    as [Hle | Hgt]; [exact Hle | exfalso].
  pose proof (rep_level_range math_log_floor a) as Ha.
  pose proof (rep_level_range math_log_floor b) as Hb.
  assert (Hl : 1 <= rep_level math_log_floor a <= 5) by lia.
  destruct (Z.lt_ge_cases a (rep_threshold (rep_level math_log_floor a)))
    as [Hbelow | Habove].
  - pose proof (rep_level_below math_log_floor math_log_floor_ok _ a Hl Hbelow). lia.
  - destruct (Z.eq_dec a b) as [Heq | Hne]; [rewrite Heq in Hgt; lia |].
    assert (Hb' : rep_threshold (rep_level math_log_floor a) < b) by lia.
    pose proof (rep_level_above math_log_floor math_log_floor_ok _ b Hl Hb'). lia.
Qed.

Lemma rep_level_cases (rep : Z) :
  rep_level math_log_floor rep = 0 \/ rep_level math_log_floor rep = 1 \/
  rep_level math_log_floor rep = 2 \/ rep_level math_log_floor rep = 3 \/
  rep_level math_log_floor rep = 4 \/ rep_level math_log_floor rep = 5.
Proof. pose proof (rep_level_range math_log_floor rep). lia. Qed.

Lemma rep_below_next_threshold (rep : Z) :
  rep_level math_log_floor rep < 5 ->
  rep <= rep_threshold (rep_level math_log_floor rep + 1).
Proof.
  intros Hlt. pose proof (rep_level_range math_log_floor rep) as Hr.
  destruct (Z.le_gt_cases rep (rep_threshold (rep_level math_log_floor rep + 1)))
    as [Hle | Hgt]; [exact Hle | exfalso].
  pose proof (rep_level_above math_log_floor math_log_floor_ok
                (rep_level math_log_floor rep + 1) rep ltac:(lia) Hgt). lia.
Qed.

End TierDisplay.

(** X15. [rep_milestone] never indexes [TIER_NAMES] out of range.  At the
    top level it returns [("Legend", None, None)]; below it returns the
    names of the level and of the next one with the threshold of the next
    one, which is never below the score, so the "need N more" of the
    [/rep] command is [next_at - rep] without its clamp at 0. *)
Theorem rep_milestone_next_threshold (math_log_floor : Q -> Q -> Z) (rep : Z) :
  log_floor_accurate math_log_floor ->
  (rep_level math_log_floor rep = 5 ->
   rep_milestone math_log_floor rep = Return ("Legend", None, None)) /\
  (rep_level math_log_floor rep < 5 ->
   exists current next_name,
     rep_milestone math_log_floor rep =
       Return (current, Some next_name,
               Some (rep_threshold (rep_level math_log_floor rep + 1))) /\
     TIER_NAMES !! Z.to_nat (rep_level math_log_floor rep) = Some current /\
     TIER_NAMES !! Z.to_nat (rep_level math_log_floor rep + 1) = Some next_name /\
     rep <= rep_threshold (rep_level math_log_floor rep + 1)).
Proof.
  intros Hacc. split.
  - intros Htop. unfold rep_milestone. rewrite Htop. reflexivity.
  - intros Hlt.
    pose proof (rep_below_next_threshold math_log_floor Hacc rep Hlt) as Hnext.
    unfold rep_milestone.
    destruct (rep_level_cases math_log_floor rep) as [Hl | [Hl | [Hl | [Hl | [Hl | Hl]]]]];
      rewrite Hl in *; try lia;
      eexists; eexists; (split; [reflexivity |]); (split; [reflexivity |]);
      (split; [reflexivity | exact Hnext]).
Qed.

Lemma rep_milestone_next_threshold_witness :
  log_floor_accurate exact_log_floor /\
  rep_milestone exact_log_floor 12 = Return ("Regular", Some "Trusted", Some 29) /\
  rep_milestone exact_log_floor 250 = Return ("Legend", None, None).
Proof.
  split; [exact exact_log_floor_accurate |].
  destruct (rep_milestone_next_threshold exact_log_floor 12 exact_log_floor_accurate)
    as [_ Hbelow].
  destruct (rep_milestone_next_threshold exact_log_floor 250 exact_log_floor_accurate)
    as [Htop _].
  split; [| apply Htop; reflexivity].
  destruct Hbelow as (current & next_name & Hm & Hc & Hn & _); [vm_compute; reflexivity |].
  vm_compute in Hc, Hn. injection Hc as <-. injection Hn as <-.
  rewrite Hm. reflexivity.
Defined.

(** X16. [rep_stars] shows at most three stars and never fewer for a
    higher score: none up to a score of 9, three from 65 on, and the
    stars of a score are a suffix of the stars of any higher score. *)
Theorem rep_stars_monotone (math_log_floor : Q -> Q -> Z) :
  log_floor_accurate math_log_floor ->
  (forall rep, rep <= 9 -> rep_stars math_log_floor rep = "") /\
  (forall rep, 65 <= rep -> rep_stars math_log_floor rep = "★★★") /\
  (forall rep, rep_stars math_log_floor rep = "" \/ rep_stars math_log_floor rep = "★" \/
               rep_stars math_log_floor rep = "★★" \/
               rep_stars math_log_floor rep = "★★★") /\
  (forall a b, a <= b ->
     exists k, 0 <= k /\
       rep_stars math_log_floor b = py_repeat "★" k +:+ rep_stars math_log_floor a).
Proof.
  intros Hacc. split; [| split; [| split]].
  - intros rep Hrep. unfold rep_stars.
    pose proof (rep_level_range math_log_floor rep) as Hr.
    assert (Hlt : rep_level math_log_floor rep < 1).
    { apply (rep_level_below math_log_floor Hacc 1 rep); [lia |].
      change (rep_threshold 1) with 10. lia. }
    replace (rep_level math_log_floor rep) with 0 by lia. reflexivity.
  - intros rep Hrep. unfold rep_stars.
    assert (Hge : 3 <= rep_level math_log_floor rep).
    { apply (rep_level_above math_log_floor Hacc 3 rep); [lia |].
      change (rep_threshold 3) with 64. lia. }
    replace (Z.min 3 (rep_level math_log_floor rep)) with 3 by lia. reflexivity.
  - intros rep. unfold rep_stars.
    destruct (rep_level_cases math_log_floor rep) as [Hl | [Hl | [Hl | [Hl | [Hl | Hl]]]]];
      rewrite Hl; vm_compute; auto.
  - intros a b Hab.
    pose proof (rep_level_le math_log_floor Hacc a b Hab) as Hle.
    unfold rep_stars.
    destruct (rep_level_cases math_log_floor a) as [Ha | [Ha | [Ha | [Ha | [Ha | Ha]]]]];
      destruct (rep_level_cases math_log_floor b) as [Hb | [Hb | [Hb | [Hb | [Hb | Hb]]]]];
      rewrite Ha, Hb in *; try lia;
      first [ exists 0; split; [lia | reflexivity]
            | exists 1; split; [lia | reflexivity]
            | exists 2; split; [lia | reflexivity]
            | exists 3; split; [lia | reflexivity] ].
Qed.

Lemma rep_stars_monotone_witness :
  log_floor_accurate exact_log_floor /\
  rep_stars exact_log_floor 9 = "" /\
  rep_stars exact_log_floor 70 = "★★★".
Proof.
  split; [exact exact_log_floor_accurate |].
  destruct (rep_stars_monotone exact_log_floor exact_log_floor_accurate) as (H0 & H3 & _).
  split; [apply H0; lia | apply H3; lia].
Defined.

(** ** The wait shown to the user *)

(** X17. [_format_wait] shows a wait below a minute and a wait below an
    hour exactly, as seconds or as minutes and seconds.  From an hour on
    it shows hours and minutes and drops the seconds, so the text falls
    short of the wait by up to 59 seconds.  A negative argument is shown
    as its remainder modulo 60, a number of seconds between 0 and 59. *)
Theorem format_wait_shape (retry_after : Z) :
  (0 <= retry_after < 60 -> _format_wait retry_after = pretty retry_after +:+ "s") /\
  (60 <= retry_after < 3600 ->
   exists m s, _format_wait retry_after = pretty m +:+ "m " +:+ pretty s +:+ "s" /\
               1 <= m <= 59 /\ 0 <= s <= 59 /\ 60 * m + s = retry_after) /\
  (3600 <= retry_after ->
   exists h m, _format_wait retry_after = pretty h +:+ "h " +:+ pretty m +:+ "m" /\
               1 <= h /\ 0 <= m <= 59 /\
               3600 * h + 60 * m <= retry_after < 3600 * h + 60 * m + 60) /\
  (retry_after < 0 ->
   _format_wait retry_after = pretty (retry_after mod 60) +:+ "s" /\
   0 <= retry_after mod 60 <= 59).
Proof.
  unfold _format_wait.
  pose proof (Z.div_mod retry_after 60 ltac:(lia)) as Hdm.
  pose proof (Z.mod_pos_bound retry_after 60 ltac:(lia)) as Hmod.
  split; [| split; [| split]].
  - intros Hr.
    rewrite (Z.div_small retry_after 60), (Z.mod_small retry_after 60) by lia.
    reflexivity.
  - intros Hr.
    assert (Hm : 1 <= retry_after / 60 <= 59) by lia.
    destruct (Z.leb_spec 60 (retry_after / 60)); [lia |].
    destruct (Z.ltb_spec 0 (retry_after / 60)); [| lia].
    exists (retry_after / 60), (retry_after mod 60).
    split; [reflexivity | lia].
  - intros Hr.
    assert (Hm : 60 <= retry_after / 60) by lia.
    destruct (Z.leb_spec 60 (retry_after / 60)); [| lia].
    pose proof (Z.div_mod (retry_after / 60) 60 ltac:(lia)) as Hdm2.
    pose proof (Z.mod_pos_bound (retry_after / 60) 60 ltac:(lia)) as Hmod2.
    exists (retry_after / 60 / 60), ((retry_after / 60) mod 60).
    split; [reflexivity | lia].
  - intros Hr.
    assert (Hm : retry_after / 60 < 0) by lia.
    destruct (Z.leb_spec 60 (retry_after / 60)); [lia |].
    destruct (Z.ltb_spec 0 (retry_after / 60)); [lia |].
    split; [reflexivity | lia].
Qed.

Example format_wait_values :
  map _format_wait [45; 2400; 3659; 14400; -1] = ["45s"; "40m 0s"; "1h 0m"; "4h 0m"; "59s"].
Proof. vm_compute. reflexivity. Qed.

(** * Further properties of the other cogs *)

(** ** The cooldown of group broadcasts *)

Lemma cooldown_ok_cases (now group_id user_id : Z) (self : cooldowns) :
  let last := default 0 (self !! (group_id, user_id)) in
  (now - last < GROUP_BROADCAST_COOLDOWN /\
   _cooldown_ok now group_id user_id self
     = ((false, GROUP_BROADCAST_COOLDOWN - (now - last)), self)) \/
  (last + GROUP_BROADCAST_COOLDOWN <= now /\
   _cooldown_ok now group_id user_id self
     = ((true, 0), <[(group_id, user_id) := now]> self)).
Proof.
  intros last. unfold _cooldown_ok. fold last.
  destruct (Z.ltb_spec (now - last) GROUP_BROADCAST_COOLDOWN) as [Hlt | Hge].
  - left. split; [exact Hlt | reflexivity].
  - right. split; [lia | reflexivity].
Qed.

Lemma passed_at_cons (k : Z * Z) (c : Cooldown.call) (r : bool * Z)
    (trace : list (Cooldown.call * (bool * Z))) :
  passed_at k ((c, r) :: trace) =
    if bool_decide (Cooldown.key c = k) && r.1
    then Cooldown.now c :: passed_at k trace
    else passed_at k trace.
Proof.
  unfold passed_at. cbn [List.filter]. unfold cooldown_passed at 1. cbn [fst snd].
  destruct (bool_decide (Cooldown.key c = k) && r.1); reflexivity.
Qed.

(** X18. Over any sequence of [_cooldown_ok] calls of one cog, whatever
    the clock does between them and whatever other users do in between,
    the readings at which the calls of one (group, user) pass are at
    least [GROUP_BROADCAST_COOLDOWN] seconds apart, and each is at least
    that long after the reading stored for the pair at the start (0 when
    none is stored). *)
Theorem cooldown_spacing (k : Z * Z) (calls : list Cooldown.call) (self : cooldowns) :
  StronglySorted (fun a b => a + GROUP_BROADCAST_COOLDOWN <= b)
                 (passed_at k (run_cooldown calls self).1) /\
  Forall (fun t => default 0 (self !! k) + GROUP_BROADCAST_COOLDOWN <= t)
         (passed_at k (run_cooldown calls self).1).
Proof.
  revert self. unfold cooldowns. induction calls as [| c rest IH]; intros self.
  - split; constructor.
  - cbn [run_cooldown fst snd]. rewrite passed_at_cons.
    destruct (cooldown_ok_cases (Cooldown.now c) (Cooldown.group_id c)
                (Cooldown.user_id c) self) as [[Hlt ->] | [Hge ->]]; cbn [fst snd].
    + rewrite andb_false_r. apply IH.
    + rewrite andb_true_r.
      destruct (IH (<[(Cooldown.group_id c, Cooldown.user_id c) := Cooldown.now c]> self))
        as [Hsorted Hall].
      destruct (bool_decide_reflect (Cooldown.key c = k)) as [Hk | Hk].
      * unfold Cooldown.key in Hk. subst k.
        assert (Hall' : Forall (fun t => Cooldown.now c + GROUP_BROADCAST_COOLDOWN <= t)
                  (passed_at (Cooldown.group_id c, Cooldown.user_id c)
                     (run_cooldown rest
                        (<[(Cooldown.group_id c, Cooldown.user_id c) := Cooldown.now c]> self)).1)).
        { eapply Forall_impl; [exact Hall |]. intros t Ht. cbn beta in Ht.
          rewrite lookup_insert_eq in Ht. exact Ht. }
        split.
        -- constructor; [exact Hsorted | exact Hall'].
        -- constructor; [exact Hge |].
           eapply Forall_impl; [exact Hall' |].
           intros t Ht. cbn beta in Ht |- *.
           unfold GROUP_BROADCAST_COOLDOWN, cooldowns in *. lia.
      * unfold Cooldown.key in Hk.
        split; [exact Hsorted |].
        eapply Forall_impl; [exact Hall |]. intros t Ht. cbn beta in Ht |- *.
        rewrite lookup_insert_ne in Ht by exact Hk. exact Ht.
Qed.

(** X19. A denied [_cooldown_ok] leaves the dict as it was and reports a
    wait of at least one second that is exact: the same caller is denied
    at every reading before [now + wait] and passes, with the reading
    stored, at every reading from [now + wait] on. *)
Theorem cooldown_wait_exact (now group_id user_id wait : Z) (self self' : cooldowns) :
  _cooldown_ok now group_id user_id self = ((false, wait), self') ->
  self' = self /\ 1 <= wait /\
  forall now',
    _cooldown_ok now' group_id user_id self' =
      if bool_decide (now + wait <= now')
      then ((true, 0), <[(group_id, user_id) := now']> self)
      else ((false, now + wait - now'), self).
Proof.
  intros Hcall.
  destruct (cooldown_ok_cases now group_id user_id self) as [[Hlt Hden] | [_ Hok]];
    [| rewrite Hok in Hcall; discriminate].
  rewrite Hden in Hcall. injection Hcall as Hwait Hself. subst self'.
  split; [reflexivity |]. split; [lia |].
  intros now'.
  destruct (cooldown_ok_cases now' group_id user_id self) as [[Hlt' ->] | [Hge' ->]].
  - rewrite bool_decide_eq_false_2 by lia. do 2 f_equal. lia.
  - rewrite bool_decide_eq_true_2 by lia. reflexivity.
Qed.

Lemma cooldown_wait_exact_witness :
  _cooldown_ok 130 1 2 {[ (1, 2) := 100 ]} = ((false, 30), {[ (1, 2) := 100 ]}) /\
  _cooldown_ok 159 1 2 {[ (1, 2) := 100 ]} = ((false, 1), {[ (1, 2) := 100 ]}) /\
  _cooldown_ok 160 1 2 {[ (1, 2) := 100 ]}
    = ((true, 0), <[ (1, 2) := 160 ]> {[ (1, 2) := 100 ]}).
Proof.
  assert (Hcall : _cooldown_ok 130 1 2 {[ (1, 2) := 100 ]}
                  = ((false, 30), {[ (1, 2) := 100 ]})) by reflexivity.
  destruct (cooldown_wait_exact 130 1 2 30 _ _ Hcall) as (_ & _ & Hlater).
  split; [exact Hcall |]. split; [exact (Hlater 159) | exact (Hlater 160)].
Defined.

(** ** Mentions *)

Lemma append_assoc (a b c : string) : (a +:+ b) +:+ c = a +:+ (b +:+ c).
Proof.
  induction a as [| x a IH]; [reflexivity |].
  change (String x ((a +:+ b) +:+ c) = String x (a +:+ (b +:+ c))).
  rewrite IH. reflexivity.
Qed.

Lemma prefix_spec (n h : string) :
  String.prefix n h = true <-> exists post, h = n +:+ post.
Proof.
  revert h. induction n as [| x n IH]; intros h.
  - split; [intros _; exists h; reflexivity | intros _; destruct h; reflexivity].
  - destruct h as [| y h]; simpl.
    + split; [discriminate | intros [post Hpost]; discriminate].
    + destruct (Ascii.ascii_dec x y) as [-> | Hne].
      * rewrite IH. split; intros [post Hpost]; exists post; [rewrite Hpost; reflexivity |].
        injection Hpost as Hpost. exact Hpost.
      * split; [discriminate | intros [post Hpost]].
        injection Hpost as Hxy _. congruence.
Qed.

(** [py_in] is the substring test. *)
Lemma py_in_spec (n h : string) :
  py_in n h = true <-> exists pre post, h = pre +:+ n +:+ post.
Proof.
  induction h as [| y h IH].
  - cbn [py_in]. rewrite orb_false_r, prefix_spec. split.
    + intros [post Hpost]. exists "", post. exact Hpost.
    + intros (pre & post & Hh). destruct pre as [| z pre]; [| discriminate].
      exists post. exact Hh.
  - cbn [py_in]. rewrite orb_true_iff, prefix_spec, IH. split.
    + intros [[post Hpost] | (pre & post & Hh)].
      * exists "", post. exact Hpost.
      * exists (String y pre), post. simpl. rewrite Hh. reflexivity.
    + intros (pre & post & Hh). destruct pre as [| z pre].
      * left. exists post. exact Hh.
      * right. simpl in Hh. injection Hh as _ Hh. exists pre, post. exact Hh.
Qed.

Lemma py_in_trans (a b c : string) :
  py_in a b = true -> py_in b c = true -> py_in a c = true.
Proof.
  rewrite !py_in_spec. intros (p1 & q1 & ->) (p2 & q2 & ->).
  exists (p2 +:+ p1), (q1 +:+ q2). rewrite !append_assoc. reflexivity.
Qed.

(** X20. [contains_disallowed_mentions] answers by two of its six tests:
    it is true exactly when the lowered text holds an "@" or a "<#".  The
    tests for "@everyone", "@here", "<@" and "<@&" never decide, so a
    text is reported as soon as its lowered form has an "@" anywhere, as
    a mail address has. *)
Theorem mentions_decided_by_at_and_channel (py_lower : string -> string)
    (text : option string) :
  contains_disallowed_mentions py_lower text
    = py_in "@" (py_lower (default "" text)) || py_in "<#" (py_lower (default "" text)).
Proof.
  unfold contains_disallowed_mentions. cbv zeta.
  set (t := py_lower (default "" text)).
  assert (Hsub : forall n, py_in "@" n = true -> py_in n t = true -> py_in "@" t = true)
    by (intros n Hn Ht; exact (py_in_trans _ _ _ Hn Ht)).
  destruct (py_in "@" t) eqn:Hat.
  - destruct (py_in "@everyone" t || py_in "@here" t); [reflexivity |].
    destruct (py_in "<@" t || py_in "<@&" t || py_in "<#" t); reflexivity.
  - destruct (py_in "@everyone" t) eqn:H1;
      [pose proof (Hsub "@everyone" eq_refl H1); congruence |].
    destruct (py_in "@here" t) eqn:H2;
      [pose proof (Hsub "@here" eq_refl H2); congruence |].
    destruct (py_in "<@" t) eqn:H3;
      [pose proof (Hsub "<@" eq_refl H3); congruence |].
    destruct (py_in "<@&" t) eqn:H4;
      [pose proof (Hsub "<@&" eq_refl H4); congruence |].
    cbn [orb]. destruct (py_in "<#" t); reflexivity.
Qed.

(** ** The ban list *)

(** X21. [block_user] makes [is_user_blocked] true for the user and
    leaves every other user as before; [unblock_user] then returns true
    and leaves the list without the user's row, whatever row the user had
    before the block.  On any list [unblock_user] makes
    [is_user_blocked] false for the user, leaves the others as before,
    returns true for a user who was blocked, and changes nothing when it
    returns false. *)
Theorem block_unblock_round_trip (py_strip : string -> string) (now user_id : Z)
    (user_name blocked_by : string) (reason : option string) (bans : banlist) :
  let bans' := block_user py_strip now user_id user_name blocked_by reason bans in
  is_user_blocked user_id bans' = true /\
  (forall v, v <> user_id -> is_user_blocked v bans' = is_user_blocked v bans) /\
  unblock_user user_id bans' = (true, delete user_id bans) /\
  is_user_blocked user_id (unblock_user user_id bans).2 = false /\
  (forall v, v <> user_id ->
     is_user_blocked v (unblock_user user_id bans).2 = is_user_blocked v bans) /\
  (is_user_blocked user_id bans = true -> (unblock_user user_id bans).1 = true) /\
  ((unblock_user user_id bans).1 = false -> (unblock_user user_id bans).2 = bans).
Proof.
  intros bans'. subst bans'. unfold block_user, unblock_user, is_user_blocked. cbn [fst snd].
  unfold banlist in *.
  repeat split.
  - rewrite lookup_insert_eq. reflexivity.
  - intros v Hv. rewrite lookup_insert_ne by congruence. reflexivity.
  - f_equal.
    + apply bool_decide_eq_true_2. rewrite lookup_insert_eq. eexists; reflexivity.
    + apply delete_insert_eq.
  - rewrite lookup_delete_eq. reflexivity.
  - intros v Hv. rewrite lookup_delete_ne by congruence. reflexivity.
  - intros Hb. apply bool_decide_eq_true_2.
    destruct (bans !! user_id); [eexists; reflexivity | discriminate].
  - intros Hb. apply bool_decide_eq_false_1 in Hb.
    apply delete_id. destruct (bans !! user_id) eqn:Hl; [| reflexivity].
    exfalso. apply Hb. eexists; reflexivity.
Qed.
